(** * QCoDeS example notebooks: the widget script and the notebook cells

    The repository content is two Jupyter notebooks.  The Ithaco notebook
    carries, as a cell output, the QCoDeS browser-widget script
    ([UpdateView], [HiddenUpdateView], [SubprocessView]) and a handful of
    Python cells that build instruments, run sweeps and poll a data set.

    - [JS]       : the string primitives the script uses.
    - [Widget]   : the script, as state passing over the page state.
    - [Notebook] : the Python cells, as a small statement language run
                   against an arbitrary library behaviour.
    - [Sweep]    : the sweep entry point of the library, which the
                   notebooks only call. *)

From Stdlib Require Import ZArith QArith Bool Ascii String List Lia DecimalString.
From stdpp Require Import base option list strings gmap.

Local Open Scope string_scope.
Local Open Scope list_scope.
Local Open Scope Z_scope.

#[local] Set Warnings "-register-all".

(* ================================================================== *)
(** ** JavaScript string primitives *)

Module JS.

(** [s.indexOf(sub)]: index of the first occurrence, or -1. *)
Fixpoint indexOf_from (sub s : string) (i : Z) : Z :=
  if String.prefix sub s then i
  else match s with
       | EmptyString => -1
       | String _ rest => indexOf_from sub rest (i + 1)
       end.

Definition indexOf (s sub : string) : Z := indexOf_from sub s 0.

Fixpoint drop_chars (n : nat) (s : string) : string :=
  match n, s with
  | O, _ => s
  | S m, String _ rest => drop_chars m rest
  | S _, EmptyString => EmptyString
  end.

(** [s.substr(start)] with the length omitted: a negative [start] counts
    from the end of the string, and never reaches before its beginning. *)
Definition substr (s : string) (start : Z) : string :=
  let len := Z.of_nat (String.length s) in
  let from := if start <? 0 then Z.max 0 (len + start) else start in
  drop_chars (Z.to_nat from) s.

(** [s.split(c)] for a one-character separator: one more piece than
    there are separators, the empty string giving one empty piece. *)
Fixpoint split (sep : ascii) (s : string) : list string :=
  match s with
  | EmptyString => [EmptyString]
  | String c rest =>
      if Ascii.eqb c sep then EmptyString :: split sep rest
      else match split sep rest with
           | piece :: pieces => String c piece :: pieces
           | [] => [String c EmptyString]
           end
  end.

(** Truthiness of a string: only the empty string is falsy. *)
Definition truthy (s : string) : bool := negb (String.eqb s "").

(** [a || b] on strings. *)
Definition or_else (a b : string) : string := if truthy a then a else b.

End JS.

(* ================================================================== *)
(** ** The widget script *)

Module Widget.

Inductive view_class := UpdateView | HiddenUpdateView | SubprocessView.

(** Messages the view sends to the kernel: [{myupdate: true}] and
    [{abort: true}]. *)
Inductive msg := MyUpdate | Abort.

(** The widget model as the script reads it: [model.get('_message')],
    [model.get('interval')], [model.get('_processes')] and
    [model.comm_live].  Numbers are kept as integers: the script only
    compares the interval with [===], tests it for truthiness and scales
    it by 1000. *)
Record Model := {
  _message : string;
  interval : Z;
  _processes : string;
  comm_live : bool
}.

(** A DOM element other than the view's own, with the elements it lies
    inside.  The view's own element sits in the widget area of its cell,
    inside none of the elements listed here. *)
Record node := {
  node_id : nat;
  classes : list string;
  ancestors : list nat;    (* the ids of the elements around it *)
  attached : bool          (* is it in the document? *)
}.

(** What a jQuery selection holds: the view's own element or another. *)
Inductive ref := Own | Other (id : nat).

(** The three state buttons built by [SubprocessView.render]. *)
Inductive button := BtnMinimized | BtnDocked | BtnFloated.

(** The page as far as one view is concerned: its model, the browser
    (timers, window, the other elements, the kernel's inbox), the view
    object and the view's element.  Pixel offsets are integers. *)
Record State := {
  cls : view_class;
  model : Model;
  (* browser *)
  next_timer : positive;           (* next id [setInterval] hands out *)
  active : list (positive * Z);    (* running interval timers of the view:
                                      id and delay in milliseconds *)
  innerWidth : Z;
  innerHeight : Z;
  others : list node;              (* the other elements of the page *)
  sent : list msg;                 (* messages sent so far, oldest first *)
  max_scroll : list string -> Z;   (* layout: largest scrollTop of the
                                      output area for a given content *)
  (* the view object *)
  _interval : option Z;            (* [None]: not yet assigned *)
  _updater : option positive;      (* [None]: undefined *)
  (* the view's element *)
  el_classes : list string;
  el_attached : bool;
  el_width : Z;
  el_height : Z;
  innerHTML : string;              (* as written by [UpdateView.display] *)
  hidden : bool;
  rendered : bool;                 (* panel built and handlers bound *)
  qcodes_state : option string;    (* the [qcodes-state] attribute *)
  outputArea : list string;        (* fragments appended to the [pre] *)
  scrollTop : Z;
  clear_disabled : bool;
  abort_disabled : bool;
  subprocessList : string;
  draggable : bool;
  css_left : option Z;
  css_top : option Z
}.

(** Field updates: [set_f v s] is [s] with field [f] replaced by [v]. *)

Definition set_model (v : Model) (s : State) : State :=
  {| cls := cls s; model := v; next_timer := next_timer s;
     active := active s; innerWidth := innerWidth s;
     innerHeight := innerHeight s; others := others s; sent := sent s;
     max_scroll := max_scroll s; _interval := _interval s;
     _updater := _updater s; el_classes := el_classes s;
     el_attached := el_attached s; el_width := el_width s;
     el_height := el_height s; innerHTML := innerHTML s;
     hidden := hidden s; rendered := rendered s;
     qcodes_state := qcodes_state s; outputArea := outputArea s;
     scrollTop := scrollTop s; clear_disabled := clear_disabled s;
     abort_disabled := abort_disabled s;
     subprocessList := subprocessList s; draggable := draggable s;
     css_left := css_left s; css_top := css_top s |}.

Definition set_next_timer (v : positive) (s : State) : State :=
  {| cls := cls s; model := model s; next_timer := v; active := active s;
     innerWidth := innerWidth s; innerHeight := innerHeight s;
     others := others s; sent := sent s; max_scroll := max_scroll s;
     _interval := _interval s; _updater := _updater s;
     el_classes := el_classes s; el_attached := el_attached s;
     el_width := el_width s; el_height := el_height s;
     innerHTML := innerHTML s; hidden := hidden s; rendered := rendered s;
     qcodes_state := qcodes_state s; outputArea := outputArea s;
     scrollTop := scrollTop s; clear_disabled := clear_disabled s;
     abort_disabled := abort_disabled s;
     subprocessList := subprocessList s; draggable := draggable s;
     css_left := css_left s; css_top := css_top s |}.

Definition set_active (v : list (positive * Z)) (s : State) : State :=
  {| cls := cls s; model := model s; next_timer := next_timer s;
     active := v; innerWidth := innerWidth s; innerHeight := innerHeight s;
     others := others s; sent := sent s; max_scroll := max_scroll s;
     _interval := _interval s; _updater := _updater s;
     el_classes := el_classes s; el_attached := el_attached s;
     el_width := el_width s; el_height := el_height s;
     innerHTML := innerHTML s; hidden := hidden s; rendered := rendered s;
     qcodes_state := qcodes_state s; outputArea := outputArea s;
     scrollTop := scrollTop s; clear_disabled := clear_disabled s;
     abort_disabled := abort_disabled s;
     subprocessList := subprocessList s; draggable := draggable s;
     css_left := css_left s; css_top := css_top s |}.

Definition set_innerWidth (v : Z) (s : State) : State :=
  {| cls := cls s; model := model s; next_timer := next_timer s;
     active := active s; innerWidth := v; innerHeight := innerHeight s;
     others := others s; sent := sent s; max_scroll := max_scroll s;
     _interval := _interval s; _updater := _updater s;
     el_classes := el_classes s; el_attached := el_attached s;
     el_width := el_width s; el_height := el_height s;
     innerHTML := innerHTML s; hidden := hidden s; rendered := rendered s;
     qcodes_state := qcodes_state s; outputArea := outputArea s;
     scrollTop := scrollTop s; clear_disabled := clear_disabled s;
     abort_disabled := abort_disabled s;
     subprocessList := subprocessList s; draggable := draggable s;
     css_left := css_left s; css_top := css_top s |}.

Definition set_innerHeight (v : Z) (s : State) : State :=
  {| cls := cls s; model := model s; next_timer := next_timer s;
     active := active s; innerWidth := innerWidth s; innerHeight := v;
     others := others s; sent := sent s; max_scroll := max_scroll s;
     _interval := _interval s; _updater := _updater s;
     el_classes := el_classes s; el_attached := el_attached s;
     el_width := el_width s; el_height := el_height s;
     innerHTML := innerHTML s; hidden := hidden s; rendered := rendered s;
     qcodes_state := qcodes_state s; outputArea := outputArea s;
     scrollTop := scrollTop s; clear_disabled := clear_disabled s;
     abort_disabled := abort_disabled s;
     subprocessList := subprocessList s; draggable := draggable s;
     css_left := css_left s; css_top := css_top s |}.

Definition set_others (v : list node) (s : State) : State :=
  {| cls := cls s; model := model s; next_timer := next_timer s;
     active := active s; innerWidth := innerWidth s;
     innerHeight := innerHeight s; others := v; sent := sent s;
     max_scroll := max_scroll s; _interval := _interval s;
     _updater := _updater s; el_classes := el_classes s;
     el_attached := el_attached s; el_width := el_width s;
     el_height := el_height s; innerHTML := innerHTML s;
     hidden := hidden s; rendered := rendered s;
     qcodes_state := qcodes_state s; outputArea := outputArea s;
     scrollTop := scrollTop s; clear_disabled := clear_disabled s;
     abort_disabled := abort_disabled s;
     subprocessList := subprocessList s; draggable := draggable s;
     css_left := css_left s; css_top := css_top s |}.

Definition set_sent (v : list msg) (s : State) : State :=
  {| cls := cls s; model := model s; next_timer := next_timer s;
     active := active s; innerWidth := innerWidth s;
     innerHeight := innerHeight s; others := others s; sent := v;
     max_scroll := max_scroll s; _interval := _interval s;
     _updater := _updater s; el_classes := el_classes s;
     el_attached := el_attached s; el_width := el_width s;
     el_height := el_height s; innerHTML := innerHTML s;
     hidden := hidden s; rendered := rendered s;
     qcodes_state := qcodes_state s; outputArea := outputArea s;
     scrollTop := scrollTop s; clear_disabled := clear_disabled s;
     abort_disabled := abort_disabled s;
     subprocessList := subprocessList s; draggable := draggable s;
     css_left := css_left s; css_top := css_top s |}.

Definition set_interval (v : option Z) (s : State) : State :=
  {| cls := cls s; model := model s; next_timer := next_timer s;
     active := active s; innerWidth := innerWidth s;
     innerHeight := innerHeight s; others := others s; sent := sent s;
     max_scroll := max_scroll s; _interval := v; _updater := _updater s;
     el_classes := el_classes s; el_attached := el_attached s;
     el_width := el_width s; el_height := el_height s;
     innerHTML := innerHTML s; hidden := hidden s; rendered := rendered s;
     qcodes_state := qcodes_state s; outputArea := outputArea s;
     scrollTop := scrollTop s; clear_disabled := clear_disabled s;
     abort_disabled := abort_disabled s;
     subprocessList := subprocessList s; draggable := draggable s;
     css_left := css_left s; css_top := css_top s |}.

Definition set_updater (v : option positive) (s : State) : State :=
  {| cls := cls s; model := model s; next_timer := next_timer s;
     active := active s; innerWidth := innerWidth s;
     innerHeight := innerHeight s; others := others s; sent := sent s;
     max_scroll := max_scroll s; _interval := _interval s; _updater := v;
     el_classes := el_classes s; el_attached := el_attached s;
     el_width := el_width s; el_height := el_height s;
     innerHTML := innerHTML s; hidden := hidden s; rendered := rendered s;
     qcodes_state := qcodes_state s; outputArea := outputArea s;
     scrollTop := scrollTop s; clear_disabled := clear_disabled s;
     abort_disabled := abort_disabled s;
     subprocessList := subprocessList s; draggable := draggable s;
     css_left := css_left s; css_top := css_top s |}.

Definition set_el_classes (v : list string) (s : State) : State :=
  {| cls := cls s; model := model s; next_timer := next_timer s;
     active := active s; innerWidth := innerWidth s;
     innerHeight := innerHeight s; others := others s; sent := sent s;
     max_scroll := max_scroll s; _interval := _interval s;
     _updater := _updater s; el_classes := v; el_attached := el_attached s;
     el_width := el_width s; el_height := el_height s;
     innerHTML := innerHTML s; hidden := hidden s; rendered := rendered s;
     qcodes_state := qcodes_state s; outputArea := outputArea s;
     scrollTop := scrollTop s; clear_disabled := clear_disabled s;
     abort_disabled := abort_disabled s;
     subprocessList := subprocessList s; draggable := draggable s;
     css_left := css_left s; css_top := css_top s |}.

Definition set_el_attached (v : bool) (s : State) : State :=
  {| cls := cls s; model := model s; next_timer := next_timer s;
     active := active s; innerWidth := innerWidth s;
     innerHeight := innerHeight s; others := others s; sent := sent s;
     max_scroll := max_scroll s; _interval := _interval s;
     _updater := _updater s; el_classes := el_classes s; el_attached := v;
     el_width := el_width s; el_height := el_height s;
     innerHTML := innerHTML s; hidden := hidden s; rendered := rendered s;
     qcodes_state := qcodes_state s; outputArea := outputArea s;
     scrollTop := scrollTop s; clear_disabled := clear_disabled s;
     abort_disabled := abort_disabled s;
     subprocessList := subprocessList s; draggable := draggable s;
     css_left := css_left s; css_top := css_top s |}.

Definition set_el_width (v : Z) (s : State) : State :=
  {| cls := cls s; model := model s; next_timer := next_timer s;
     active := active s; innerWidth := innerWidth s;
     innerHeight := innerHeight s; others := others s; sent := sent s;
     max_scroll := max_scroll s; _interval := _interval s;
     _updater := _updater s; el_classes := el_classes s;
     el_attached := el_attached s; el_width := v; el_height := el_height s;
     innerHTML := innerHTML s; hidden := hidden s; rendered := rendered s;
     qcodes_state := qcodes_state s; outputArea := outputArea s;
     scrollTop := scrollTop s; clear_disabled := clear_disabled s;
     abort_disabled := abort_disabled s;
     subprocessList := subprocessList s; draggable := draggable s;
     css_left := css_left s; css_top := css_top s |}.

Definition set_el_height (v : Z) (s : State) : State :=
  {| cls := cls s; model := model s; next_timer := next_timer s;
     active := active s; innerWidth := innerWidth s;
     innerHeight := innerHeight s; others := others s; sent := sent s;
     max_scroll := max_scroll s; _interval := _interval s;
     _updater := _updater s; el_classes := el_classes s;
     el_attached := el_attached s; el_width := el_width s; el_height := v;
     innerHTML := innerHTML s; hidden := hidden s; rendered := rendered s;
     qcodes_state := qcodes_state s; outputArea := outputArea s;
     scrollTop := scrollTop s; clear_disabled := clear_disabled s;
     abort_disabled := abort_disabled s;
     subprocessList := subprocessList s; draggable := draggable s;
     css_left := css_left s; css_top := css_top s |}.

Definition set_innerHTML (v : string) (s : State) : State :=
  {| cls := cls s; model := model s; next_timer := next_timer s;
     active := active s; innerWidth := innerWidth s;
     innerHeight := innerHeight s; others := others s; sent := sent s;
     max_scroll := max_scroll s; _interval := _interval s;
     _updater := _updater s; el_classes := el_classes s;
     el_attached := el_attached s; el_width := el_width s;
     el_height := el_height s; innerHTML := v; hidden := hidden s;
     rendered := rendered s; qcodes_state := qcodes_state s;
     outputArea := outputArea s; scrollTop := scrollTop s;
     clear_disabled := clear_disabled s;
     abort_disabled := abort_disabled s;
     subprocessList := subprocessList s; draggable := draggable s;
     css_left := css_left s; css_top := css_top s |}.

Definition set_hidden (v : bool) (s : State) : State :=
  {| cls := cls s; model := model s; next_timer := next_timer s;
     active := active s; innerWidth := innerWidth s;
     innerHeight := innerHeight s; others := others s; sent := sent s;
     max_scroll := max_scroll s; _interval := _interval s;
     _updater := _updater s; el_classes := el_classes s;
     el_attached := el_attached s; el_width := el_width s;
     el_height := el_height s; innerHTML := innerHTML s; hidden := v;
     rendered := rendered s; qcodes_state := qcodes_state s;
     outputArea := outputArea s; scrollTop := scrollTop s;
     clear_disabled := clear_disabled s;
     abort_disabled := abort_disabled s;
     subprocessList := subprocessList s; draggable := draggable s;
     css_left := css_left s; css_top := css_top s |}.

Definition set_rendered (v : bool) (s : State) : State :=
  {| cls := cls s; model := model s; next_timer := next_timer s;
     active := active s; innerWidth := innerWidth s;
     innerHeight := innerHeight s; others := others s; sent := sent s;
     max_scroll := max_scroll s; _interval := _interval s;
     _updater := _updater s; el_classes := el_classes s;
     el_attached := el_attached s; el_width := el_width s;
     el_height := el_height s; innerHTML := innerHTML s;
     hidden := hidden s; rendered := v; qcodes_state := qcodes_state s;
     outputArea := outputArea s; scrollTop := scrollTop s;
     clear_disabled := clear_disabled s;
     abort_disabled := abort_disabled s;
     subprocessList := subprocessList s; draggable := draggable s;
     css_left := css_left s; css_top := css_top s |}.

Definition set_qcodes_state (v : option string) (s : State) : State :=
  {| cls := cls s; model := model s; next_timer := next_timer s;
     active := active s; innerWidth := innerWidth s;
     innerHeight := innerHeight s; others := others s; sent := sent s;
     max_scroll := max_scroll s; _interval := _interval s;
     _updater := _updater s; el_classes := el_classes s;
     el_attached := el_attached s; el_width := el_width s;
     el_height := el_height s; innerHTML := innerHTML s;
     hidden := hidden s; rendered := rendered s; qcodes_state := v;
     outputArea := outputArea s; scrollTop := scrollTop s;
     clear_disabled := clear_disabled s;
     abort_disabled := abort_disabled s;
     subprocessList := subprocessList s; draggable := draggable s;
     css_left := css_left s; css_top := css_top s |}.

Definition set_outputArea (v : list string) (s : State) : State :=
  {| cls := cls s; model := model s; next_timer := next_timer s;
     active := active s; innerWidth := innerWidth s;
     innerHeight := innerHeight s; others := others s; sent := sent s;
     max_scroll := max_scroll s; _interval := _interval s;
     _updater := _updater s; el_classes := el_classes s;
     el_attached := el_attached s; el_width := el_width s;
     el_height := el_height s; innerHTML := innerHTML s;
     hidden := hidden s; rendered := rendered s;
     qcodes_state := qcodes_state s; outputArea := v;
     scrollTop := scrollTop s; clear_disabled := clear_disabled s;
     abort_disabled := abort_disabled s;
     subprocessList := subprocessList s; draggable := draggable s;
     css_left := css_left s; css_top := css_top s |}.

Definition set_scrollTop (v : Z) (s : State) : State :=
  {| cls := cls s; model := model s; next_timer := next_timer s;
     active := active s; innerWidth := innerWidth s;
     innerHeight := innerHeight s; others := others s; sent := sent s;
     max_scroll := max_scroll s; _interval := _interval s;
     _updater := _updater s; el_classes := el_classes s;
     el_attached := el_attached s; el_width := el_width s;
     el_height := el_height s; innerHTML := innerHTML s;
     hidden := hidden s; rendered := rendered s;
     qcodes_state := qcodes_state s; outputArea := outputArea s;
     scrollTop := v; clear_disabled := clear_disabled s;
     abort_disabled := abort_disabled s;
     subprocessList := subprocessList s; draggable := draggable s;
     css_left := css_left s; css_top := css_top s |}.

Definition set_clear_disabled (v : bool) (s : State) : State :=
  {| cls := cls s; model := model s; next_timer := next_timer s;
     active := active s; innerWidth := innerWidth s;
     innerHeight := innerHeight s; others := others s; sent := sent s;
     max_scroll := max_scroll s; _interval := _interval s;
     _updater := _updater s; el_classes := el_classes s;
     el_attached := el_attached s; el_width := el_width s;
     el_height := el_height s; innerHTML := innerHTML s;
     hidden := hidden s; rendered := rendered s;
     qcodes_state := qcodes_state s; outputArea := outputArea s;
     scrollTop := scrollTop s; clear_disabled := v;
     abort_disabled := abort_disabled s;
     subprocessList := subprocessList s; draggable := draggable s;
     css_left := css_left s; css_top := css_top s |}.

Definition set_abort_disabled (v : bool) (s : State) : State :=
  {| cls := cls s; model := model s; next_timer := next_timer s;
     active := active s; innerWidth := innerWidth s;
     innerHeight := innerHeight s; others := others s; sent := sent s;
     max_scroll := max_scroll s; _interval := _interval s;
     _updater := _updater s; el_classes := el_classes s;
     el_attached := el_attached s; el_width := el_width s;
     el_height := el_height s; innerHTML := innerHTML s;
     hidden := hidden s; rendered := rendered s;
     qcodes_state := qcodes_state s; outputArea := outputArea s;
     scrollTop := scrollTop s; clear_disabled := clear_disabled s;
     abort_disabled := v; subprocessList := subprocessList s;
     draggable := draggable s; css_left := css_left s;
     css_top := css_top s |}.

Definition set_subprocessList (v : string) (s : State) : State :=
  {| cls := cls s; model := model s; next_timer := next_timer s;
     active := active s; innerWidth := innerWidth s;
     innerHeight := innerHeight s; others := others s; sent := sent s;
     max_scroll := max_scroll s; _interval := _interval s;
     _updater := _updater s; el_classes := el_classes s;
     el_attached := el_attached s; el_width := el_width s;
     el_height := el_height s; innerHTML := innerHTML s;
     hidden := hidden s; rendered := rendered s;
     qcodes_state := qcodes_state s; outputArea := outputArea s;
     scrollTop := scrollTop s; clear_disabled := clear_disabled s;
     abort_disabled := abort_disabled s; subprocessList := v;
     draggable := draggable s; css_left := css_left s;
     css_top := css_top s |}.

Definition set_draggable (v : bool) (s : State) : State :=
  {| cls := cls s; model := model s; next_timer := next_timer s;
     active := active s; innerWidth := innerWidth s;
     innerHeight := innerHeight s; others := others s; sent := sent s;
     max_scroll := max_scroll s; _interval := _interval s;
     _updater := _updater s; el_classes := el_classes s;
     el_attached := el_attached s; el_width := el_width s;
     el_height := el_height s; innerHTML := innerHTML s;
     hidden := hidden s; rendered := rendered s;
     qcodes_state := qcodes_state s; outputArea := outputArea s;
     scrollTop := scrollTop s; clear_disabled := clear_disabled s;
     abort_disabled := abort_disabled s;
     subprocessList := subprocessList s; draggable := v;
     css_left := css_left s; css_top := css_top s |}.

Definition set_css_left (v : option Z) (s : State) : State :=
  {| cls := cls s; model := model s; next_timer := next_timer s;
     active := active s; innerWidth := innerWidth s;
     innerHeight := innerHeight s; others := others s; sent := sent s;
     max_scroll := max_scroll s; _interval := _interval s;
     _updater := _updater s; el_classes := el_classes s;
     el_attached := el_attached s; el_width := el_width s;
     el_height := el_height s; innerHTML := innerHTML s;
     hidden := hidden s; rendered := rendered s;
     qcodes_state := qcodes_state s; outputArea := outputArea s;
     scrollTop := scrollTop s; clear_disabled := clear_disabled s;
     abort_disabled := abort_disabled s;
     subprocessList := subprocessList s; draggable := draggable s;
     css_left := v; css_top := css_top s |}.

Definition set_css_top (v : option Z) (s : State) : State :=
  {| cls := cls s; model := model s; next_timer := next_timer s;
     active := active s; innerWidth := innerWidth s;
     innerHeight := innerHeight s; others := others s; sent := sent s;
     max_scroll := max_scroll s; _interval := _interval s;
     _updater := _updater s; el_classes := el_classes s;
     el_attached := el_attached s; el_width := el_width s;
     el_height := el_height s; innerHTML := innerHTML s;
     hidden := hidden s; rendered := rendered s;
     qcodes_state := qcodes_state s; outputArea := outputArea s;
     scrollTop := scrollTop s; clear_disabled := clear_disabled s;
     abort_disabled := abort_disabled s;
     subprocessList := subprocessList s; draggable := draggable s;
     css_left := css_left s; css_top := v |}.

(** *** The browser's interval timers *)

(** [clearInterval(id)]: the timer stops; an id that names no running
    timer is ignored. *)
Definition clearInterval (id : positive) (s : State) : State :=
  set_active (List.filter (fun t => negb (Pos.eqb (fst t) id)) (active s)) s.

(** [clearInterval(me._updater)], where [_updater] may be undefined. *)
Definition clear_updater (s : State) : State :=
  match _updater s with
  | Some id => clearInterval id s
  | None => s
  end.

(** The browser's [setInterval(callback, delay)]: starts a timer and
    returns its id, a fresh positive number (hence truthy). *)
Definition start_timer (delay : Z) (s : State) : positive * State :=
  let id := next_timer s in
  (id, set_next_timer (Pos.succ id) (set_active (active s ++ [(id, delay)]) s)).

Definition is_active (id : positive) (s : State) : bool :=
  existsb (fun t => Pos.eqb (fst t) id) (active s).

(** [me.send(content)] *)
Definition send (m : msg) (s : State) : State := set_sent (sent s ++ [m]) s.

(** *** UpdateView *)

(** [UpdateView.setInterval(newInterval)]; [None] is a call without the
    argument. *)
Definition setInterval (arg : option Z) (s : State) : State :=
  let newInterval :=
    match arg with
    | None => interval (model s)
    | Some n => n
    end in
  if bool_decide (Some newInterval = _interval s) then s
  else
    let s1 := set_interval (Some newInterval) s in
    let s2 := clear_updater s1 in
    if negb (newInterval =? 0) then
      let (id, s3) := start_timer (newInterval * 1000) s2 in
      set_updater (Some id) s3
    else s2.

(** The function handed to the browser's [setInterval]: one tick of the
    polling loop. *)
Definition poll (s : State) : State :=
  let s1 := send MyUpdate s in
  if comm_live (model s1) then s1 else clear_updater s1.

(** The timer [id] comes due: its callback runs if the timer is still
    running. *)
Definition tick (id : positive) (s : State) : State :=
  if is_active id s then poll s else s.

(** [UpdateView.remove] *)
Definition remove (s : State) : State := clear_updater s.

(** *** SubprocessView: the state buttons *)

(** The [class] attribute of each state button, from the markup that
    [render] writes. *)
Definition className (b : button) : string :=
  match b with
  | BtnMinimized => "btn js-state qcodes-minimized"
  | BtnDocked => "btn js-state qcodes-docked"
  | BtnFloated => "btn js-state qcodes-floated"
  end.

(** [cn.substr(cn.indexOf('qcodes')).split('-')[1].split(' ')[0]];
    [None] when [split('-')[1]] is undefined and the second [split]
    throws. *)
Definition state_of_class (cn : string) : option string :=
  match JS.split "-" (JS.substr cn (JS.indexOf cn "qcodes")) !! 1%nat with
  | Some part => head (JS.split " " part)
  | None => None
  end.

(** The click handler bound to the [.js-state] buttons. *)
Definition js_state_click (b : button) (s : State) : State :=
  let oldState := qcodes_state s in
  match state_of_class (className b) with
  | None => s
  | Some state =>
      let s1 := set_el_attached true s in                  (* appendTo('body') *)
      let s2 :=
        if bool_decide (oldState = Some "floated")
        then set_css_top None (set_css_left None (set_draggable false s1))
        else s1 in
      let s3 := set_qcodes_state (Some state) s2 in
      if String.eqb state "floated"
      then set_css_top (Some (innerHeight s3 - el_height s3 - 10))
             (set_css_left (Some (innerWidth s3 - el_width s3 - 15))
                (set_draggable true s3))
      else s3
  end.

(** [$el.position()]: the offsets set through [css], and where none is
    set the place the style sheet gives the panel
    ([position: fixed; bottom: 0; right: 5px]). *)
Definition position_left (s : State) : Z :=
  match css_left s with
  | Some l => l
  | None => innerWidth s - el_width s - 5
  end.

Definition position_top (s : State) : Z :=
  match css_top s with
  | Some t => t
  | None => innerHeight s - el_height s
  end.

(** The handler bound to the window's [resize]. *)
Definition on_resize (s : State) : State :=
  if bool_decide (qcodes_state s = Some "floated") then
    let left := position_left s in
    let top := position_top s in
    let minVis := 20 in
    let maxLeft := innerWidth s - minVis in
    let maxTop := innerHeight s - minVis in
    let s1 := if maxLeft <? left then set_css_left (Some maxLeft) s else s in
    if maxTop <? top then set_css_top (Some maxTop) s1 else s1
  else s.

(** The Clear and Abort buttons. *)
Definition clear_click (s : State) : State :=
  set_clear_disabled true (set_outputArea [] s).

Definition abort_click (s : State) : State := send Abort s.

(** *** Display *)

(** [outputArea.scrollTop(v)]: the browser keeps the offset within what
    the content allows. *)
Definition scroll_to (v : Z) (s : State) : State :=
  set_scrollTop (Z.max 0 (Z.min v (max_scroll s (outputArea s)))) s.

(** [outputArea.scrollTop(outputArea.prop('scrollHeight'))]: the scroll
    height is never below the largest offset, so this scrolls to the
    bottom. *)
Definition scroll_to_bottom (s : State) : State :=
  set_scrollTop (Z.max 0 (max_scroll s (outputArea s))) s.

(** [SubprocessView.display(message)] *)
Definition subprocess_display (message : string) (s : State) : State :=
  let s' :=
    if JS.truthy message then
      let initialScroll := scrollTop s in
      let s1 := scroll_to_bottom s in
      let scrollBottom := scrollTop s1 in
      let minimized := bool_decide (qcodes_state s1 = Some "minimized") in
      let s2 := if minimized then js_state_click BtnDocked s1 else s1 in
      let initialScroll := if minimized then scrollBottom else initialScroll in
      let s3 := set_outputArea (outputArea s2 ++ [message]) s2 in
      let s4 := set_clear_disabled false s3 in
      if initialScroll =? scrollBottom then scroll_to_bottom s4
      else scroll_to initialScroll s4
    else s in
  let processes := JS.or_else (_processes (model s')) "No subprocesses" in
  set_subprocessList processes
    (set_abort_disabled (JS.indexOf processes "Measurement" =? -1) s').

(** [this.display(message)], by the class of the view.  The output area
    and the buttons of a [SubprocessView] exist once [render] has built
    them; before that [this.outputArea] and [this.abortButton] are
    undefined, the method throws a [TypeError] at its first use of them
    and has changed nothing: [None]. *)
Definition display (message : string) (s : State) : option State :=
  match cls s with
  | UpdateView => Some (set_innerHTML message s)
  | HiddenUpdateView => Some (set_hidden true s)
  | SubprocessView =>
      if rendered s then Some (subprocess_display message s) else None
  end.

(** [UpdateView.update], inherited by the two other classes; an
    exception in [display] ends it. *)
Definition update (s : State) : State :=
  match display (_message (model s)) s with
  | Some s' => setInterval None s'
  | None => s
  end.

(** *** Render *)

Definition has_class (c : string) (cs : list string) : bool :=
  existsb (String.eqb c) cs.

Definition add_class (c : string) (cs : list string) : list string :=
  if has_class c cs then cs else cs ++ [c].

(** [$('.c')]: the elements of the document that carry class [c]; the
    view's own element, when selected, is listed first. *)
Definition select (c : string) (s : State) : list ref :=
  (if el_attached s && has_class c (el_classes s) then [Own] else []) ++
  map (fun n => Other (node_id n))
      (List.filter (fun n => attached n && has_class c (classes n)) (others s)).

(** [selection.not(me.$el)] *)
Definition not_own (sel : list ref) : list ref :=
  List.filter (fun r => match r with Own => false | Other _ => true end) sel.

(** Is the element [n] the element [id] or one inside it? *)
Definition within (id : nat) (n : node) : bool :=
  Nat.eqb (node_id n) id || existsb (Nat.eqb id) (ancestors n).

(** The element [id] is taken out of the document, and with it all that
    lies inside. *)
Definition detach (id : nat) (n : node) : node :=
  if within id n
  then {| node_id := node_id n; classes := classes n;
          ancestors := ancestors n; attached := false |}
  else n.

(** [selection.remove()]: every selected element leaves the document,
    with its descendants. *)
Fixpoint remove_all (sel : list ref) (s : State) : State :=
  match sel with
  | [] => s
  | Own :: rest => remove_all rest (set_el_attached false s)
  | Other id :: rest => remove_all rest (set_others (map (detach id) (others s)) s)
  end.

(** [SubprocessView.render] up to its final [me.update()]: the clean-up
    of earlier panels, the class and attribute, the markup (an empty
    output area, Abort and Clear disabled) and the handlers. *)
Definition build_panel (s : State) : State :=
  let s1 := set_interval (Some 0) s in
  let s2 := remove_all (not_own (select "qcodes-output-view" s1)) s1 in
  let s3 := set_el_classes (add_class "qcodes-output-view" (el_classes s2)) s2 in
  let s4 := set_qcodes_state (Some "docked") s3 in
  let s5 :=
    set_subprocessList ""
      (set_abort_disabled true
         (set_clear_disabled true (set_scrollTop 0 (set_outputArea [] s4)))) in
  set_rendered true s5.

(** [render], by the class of the view. *)
Definition render (s : State) : State :=
  match cls s with
  | SubprocessView => update (build_panel s)
  | _ => update (set_interval (Some 0) s)
  end.

(** *** What can happen to a view *)

Inductive event :=
| Render                              (* the framework renders the view *)
| Update                              (* ... or calls [update] *)
| SetInterval (arg : option Z)
| Remove
| Tick (id : positive)                (* a timer comes due *)
| ClickState (b : button)
| ClickClear
| ClickAbort
| Resize (w h : Z)                    (* the window gets a new size *)
| Drag (x y : Z)                      (* the user drags the floated panel *)
| ModelChange (m : Model)             (* the model's attributes change *)
| Relayout (w h : Z)                  (* the panel gets a new size *)
| Attach.                             (* the framework puts the view's
                                         element into the page *)

(** The buttons and the resize handler exist once the panel is built;
    dragging needs [draggable()]. *)
Definition step (e : event) (s : State) : State :=
  match e with
  | Render => render s
  | Update => update s
  | SetInterval arg => setInterval arg s
  | Remove => remove s
  | Tick id => tick id s
  | ClickState b => if rendered s then js_state_click b s else s
  | ClickClear => if rendered s then clear_click s else s
  | ClickAbort => if rendered s then abort_click s else s
  | Resize w h =>
      let s1 := set_innerHeight h (set_innerWidth w s) in
      if rendered s1 then on_resize s1 else s1
  | Drag x y =>
      if draggable s then set_css_top (Some y) (set_css_left (Some x) s)
      else s
  | ModelChange m => set_model m s
  | Relayout w h => set_el_height h (set_el_width w s)
  | Attach => set_el_attached true s
  end.

Definition run (evs : list event) (s : State) : State :=
  fold_left (fun s e => step e s) evs s.

(** A view as the framework hands it to [render]: nothing assigned yet,
    no timer, no panel. *)
Definition fresh (c : view_class) (m : Model) (w h : Z) (page : list node)
    (el_cls : list string) (in_doc : bool) (layout : list string -> Z) : State :=
  {| cls := c; model := m; next_timer := 1%positive; active := [];
     innerWidth := w; innerHeight := h; others := page; sent := [];
     max_scroll := layout; _interval := None; _updater := None;
     el_classes := el_cls; el_attached := in_doc; el_width := 0;
     el_height := 0; innerHTML := ""; hidden := false; rendered := false;
     qcodes_state := None; outputArea := []; scrollTop := 0;
     clear_disabled := false; abort_disabled := false;
     subprocessList := ""; draggable := false; css_left := None;
     css_top := None |}.

End Widget.


(* ================================================================== *)
(** ** The notebook cells *)

Module Notebook.

(** What an operation of the library does when the notebook performs it:
    it returns a value, of which the cells only ever test the
    truthiness, or it raises. *)
Inductive outcome := Returns (truthy : bool) | Raises (exc : string).

(** The library and the instruments behind it are not under the
    notebook's control: any behaviour is possible, given as the outcome
    of the [n]-th operation performed. *)
Definition library := nat -> outcome.

(** The statements of Python the code cells are read in.  The compound
    statements of the cells are [with Timer(...)], [while] and [for ...
    in range(...)]; [try] with [except] or with [finally] is how Python
    code handles an exception or cleans up after one, and no cell
    contains it. *)
Inductive stmt :=
| Op (name : string)                        (* a call into the library, possibly bound to a name *)
| Divide (numerator : string) (name : string)
                                            (* numerator / <library call> *)
| Sleep                                     (* time.sleep(0.1) *)
| With (timer : option string) (body : list stmt)   (* with Timer(name): body *)
| While (cond : string) (body : list stmt)  (* while <library call>: body *)
| For (n : nat) (body : list stmt)          (* for i in range(n): body *)
| TryExcept (body handler : list stmt)      (* try: body / except: handler *)
| TryFinally (body final : list stmt).      (* try: body / finally: final *)

Inductive event :=
| Called (name : string) (truthy : bool)
| Raised (name : string) (exc : string)     (* a library call raised *)
| Failed (expr : string) (exc : string)     (* an expression of the notebook's own raised *)
| Slept
| TimerEntered                              (* Timer.__enter__ reads the clock *)
| Printed (text : string)                   (* print('[%s]' % self.name,) *)
| PrintedElapsed.                           (* print('Elapsed: %s' % ...) *)

Inductive result := Normal | Exception (exc : string).

(** [Timer.__exit__(type, value, traceback)]: prints the name if there
    is one, then the elapsed time, and returns [None]; it runs when the
    body ends, by its end or by an exception, and a [None] does not
    swallow the exception. *)
Definition timer_exit (timer : option string) : list event :=
  match timer with
  | Some name => if JS.truthy name then [Printed ("[" +:+ name +:+ "]")] else []
  | None => []
  end ++ [PrintedElapsed].

Definition call (name : string) (lib : library) (k : nat)
  : list event * nat * result :=
  match lib k with
  | Returns b => ([Called name b], S k, Normal)
  | Raises e => ([Raised name e], S k, Exception e)
  end.

(** [numerator / name]: the library call, then the notebook's own
    division by what it returned.  Of that value the model knows the
    truthiness: a number that is falsy is zero, and the division raises
    before anything else of the cell runs. *)
Definition divide (numerator name : string) (lib : library) (k : nat)
  : list event * nat * result :=
  match lib k with
  | Returns true => ([Called name true], S k, Normal)
  | Returns false =>
      ([Called name false;
        Failed (numerator +:+ "/" +:+ name) "ZeroDivisionError"],
       S k, Exception "ZeroDivisionError")
  | Raises e => ([Raised name e], S k, Exception e)
  end.

(** What a run gives: the events, the number of operations of the
    library performed, and how it ended. *)
Definition run_result : Type := list event * nat * result.

(** One statement, [k] operations of the library having been performed
    before; [rec] runs the blocks inside it. *)
Definition exec_stmt (rec : nat -> list stmt -> option run_result)
    (lib : library) (k : nat) (s : stmt) : option run_result :=
  match s with
  | Op name => Some (call name lib k)
  | Divide numerator name => Some (divide numerator name lib k)
  | Sleep => Some ([Slept], k, Normal)
  | With timer body =>
      match rec k body with
      | Some (ev, k', r) => Some (TimerEntered :: ev ++ timer_exit timer, k', r)
      | None => None
      end
  | While cond body =>
      match lib k with
      | Raises e => Some ([Raised cond e], S k, Exception e)
      | Returns false => Some ([Called cond false], S k, Normal)
      | Returns true =>
          match rec (S k) (body ++ [While cond body]) with
          | Some (ev, k', r) => Some (Called cond true :: ev, k', r)
          | None => None
          end
      end
  | For n body => rec k (concat (replicate n body))
  | TryExcept body handler =>
      match rec k body with
      | Some (ev, k', Exception _) =>
          match rec k' handler with
          | Some (ev2, k2, r) => Some (ev ++ ev2, k2, r)
          | None => None
          end
      | other => other
      end
  | TryFinally body final =>
      match rec k body with
      | Some (ev, k', r) =>
          match rec k' final with
          | Some (ev2, k2, Normal) => Some (ev ++ ev2, k2, r)
          | Some (ev2, k2, Exception e) => Some (ev ++ ev2, k2, Exception e)
          | None => None
          end
      | None => None
      end
  end.

(** The statements after the first run only if the first ended
    normally. *)
Definition exec_rest (rec : nat -> list stmt -> option run_result)
    (first : option run_result) (rest : list stmt) : option run_result :=
  match first with
  | None => None
  | Some (ev, k', Normal) =>
      match rec k' rest with
      | Some (ev2, k2, r) => Some (ev ++ ev2, k2, r)
      | None => None
      end
  | Some (ev, k', Exception e) => Some (ev, k', Exception e)
  end.

(** Running a block.  [None]: the fuel did not suffice. *)
Fixpoint exec (fuel : nat) (lib : library) (k : nat) (prog : list stmt)
  : option run_result :=
  match fuel with
  | O => None
  | S fuel' =>
      match prog with
      | [] => Some ([], k, Normal)
      | s :: rest =>
          exec_rest (exec fuel' lib)
            (exec_stmt (exec fuel' lib) lib k s) rest
      end
  end.

(** *** The Ithaco notebook, cell by cell *)

Definition sweep (each : string) (run : string) : list stmt :=
  [Op "k1.volt[-5:5:1]"; Op "qc.Loop(..., 0)"; Op each; Op run].

(** [while data.sync(): time.sleep(0.1)] *)
Definition sync_loop : stmt := While "data.sync()" [Sleep].

Definition cell_instruments : list stmt :=
  [Op "keith.Keithley_2600('Keithley1', 'GPIB0::15::INSTR', channel='a')";
   Op "keith.Keithley_2600('Keithley2', 'GPIB0::15::INSTR', channel='b')";
   Op "agi.Agilent_34400A('Agilent1', 'GPIB0::11::INSTR')";
   Op "agi.Agilent_34400A('Agilent2', 'GPIB0::6::INSTR')";
   Op "ithaco.Ithaco_1211('camp1')";
   Op "camp.sens.set(1e-4)";
   Op "ithaco.CurrentParameter(a2.volt, camp)";
   Op "a1.NPLC.set(1)";
   Op "a2.NPLC.set(1)"].

Definition cell_snapshot : list stmt := [Op "camp.snapshot()"].
Definition cell_units_volt : list stmt := [Op "a2.volt.units"].
Definition cell_units_curr : list stmt := [Op "curr.units"].

Definition cell_first_sweep : list stmt :=
  sweep ".each(curr)" ".run(location='testsweep', overwrite=True)" ++
  [Op "qc.QtPlot(data.current, windowTitle='YEAH')"].

Definition cell_arrays : list stmt := [Op "data.sync()"; Op "data.arrays"].

Definition cell_stations : list stmt :=
  [Op "qc.Station(a1, a2)"; Op "station1.set_measurement(a1.volt)";
   Op "qc.Station(a1, a2)"; Op "station2.set_measurement(a1.volt, a2.volt)"].

Definition cell_time_stations : list stmt :=
  [With (Some "Time s1") [Op "station1.measure()"];
   With (Some "Time s2") [Op "station2.measure()"]].

Definition cell_time_readings : list stmt :=
  [With (Some "Time a1") [Op "a1.volt.get()"];
   With (Some "Time a2") [Op "a2.volt.get()"]].

Definition cell_timed_loops : list stmt :=
  [With (Some "Time Loop 1")
     (sweep ".each(a1.volt)"
        ".run(location='testsweep', overwrite=True, background=False)");
   With (Some "Time Loop 2")
     (sweep ".each(a1.volt, a2.volt)"
        ".run(location='testsweep', overwrite=True, background=False)")].

Definition cell_polled_loop_1 : list stmt :=
  [With (Some "Time Loop 1")
     (sweep ".each(a1.volt)" ".run(location='testsweep', overwrite=True)" ++
      [sync_loop])].

Definition cell_polled_loop_2 : list stmt :=
  [With (Some "Time Loop 2")
     (sweep ".each(a1.volt, a2.volt)"
        ".run(location='testsweep', overwrite=True)" ++
      [sync_loop])].

Definition ithaco_notebook : list (list stmt) :=
  [cell_instruments; cell_snapshot; cell_units_volt; cell_units_curr;
   cell_first_sweep; cell_arrays; cell_stations; cell_time_stations;
   cell_time_readings; cell_timed_loops; cell_polled_loop_1;
   cell_polled_loop_2].

(** *** The Keysight Infiniium notebook *)

(** [nPoints = 100000; mso.acquire_points(nPoints);
    mso.acquire_sample_rate(nPoints/mso.timebase_range())]: the argument
    of the last call is a division of the notebook's own. *)
Definition cell_sample_rate : list stmt :=
  [Op "mso.acquire_points(nPoints)";
   Divide "nPoints" "mso.timebase_range()";
   Op "mso.acquire_sample_rate(nPoints/mso.timebase_range())"].

Definition keysight_notebook : list (list stmt) :=
  [[Op "logging.getLogger()"; Op "logger.setLevel(logging.DEBUG)"];
   [Op "MSO.Infiniium('MSO', 'TCPIP0::A-PCSERNO-47466::inst0::INSTR')"];
   [For 4 [Op "mso.channels[i].display(False)"];
    Op "mso.ch4.display(True)"; Op "mso.timebase_range(10e-3)";
    Op "mso.timebase_position(5e-3)"; Op "mso.ch4.range(1.2)"];
   [Op "mso.trigger_enabled(True)"; Op "mso.trigger_edge_source('CHANnel4')";
    Op "mso.trigger_edge_slope('negative')"; Op "mso.ch4.trigger_level(0.4)"];
   cell_sample_rate;
   [Op "mso.ch4.trace.prepare_curvedata()"];
   [Op "qc.Measure(mso.ch4.trace)"; Op ".run()"];
   [Op "qc.MatPlot(data.arrays['MSO_chan4_trace'])"]].

Definition notebooks : list (list stmt) := ithaco_notebook ++ keysight_notebook.

(** A block without [try]: nothing in it handles an exception or cleans
    up after one. *)
Fixpoint handler_free_stmt (s : stmt) : bool :=
  match s with
  | Op _ | Divide _ _ | Sleep => true
  | With _ body | While _ body | For _ body => forallb handler_free_stmt body
  | TryExcept _ _ | TryFinally _ _ => false
  end.

Definition handler_free (prog : list stmt) : bool :=
  forallb handler_free_stmt prog.

(** Events that are the printing of [Timer.__exit__]. *)
Definition is_timer_print (e : event) : bool :=
  match e with
  | Printed _ | PrintedElapsed => true
  | _ => false
  end.

Definition is_sleep (e : event) : bool :=
  match e with
  | Slept => true
  | _ => false
  end.

End Notebook.

(* ================================================================== *)
(** ** The sweep entry point of the library *)

Module Sweep.

(** Modelled from the spec: the values of [parameter[start:stop:step]],
    the "sweep specification" handed to [Loop]; the library code is not
    part of the notebooks.  The output of the Ithaco notebook shows
    [k1.volt[-5:5:1]] giving -5, ..., 4: the values start at [start] and
    move towards [stop] by the size of [step], and [stop] is left out.
    A zero step gives no values. *)
Definition slice (start stop step : Z) : list Z :=
  if step =? 0 then []
  else
    let signed_step := Z.abs step * (if start <? stop then 1 else -1) in
    let n := (Z.abs (stop - start) + Z.abs step - 1) / Z.abs step in
    map (fun i => start + Z.of_nat i * signed_step) (seq 0 (Z.to_nat n)).

(** Modelled from the spec: a "persisted collection of named numeric
    arrays", "keyed by a location string". *)
Record DataSet := {
  location : string;
  arrays : list (string * list Q)
}.

Section Instruments.

(** The state of the instruments on the bench, which the library reads
    and sets. *)
Variable world : Type.

(** Modelled from the spec: an instrument setting, a "named parameter
    with set semantics" ([k1.volt]). *)
Record Settable := {
  set_name : string;
  set : Z -> world -> world
}.

(** Modelled from the spec: a measured parameter, with "get semantics".
    One parameter may read several named values: [curr], the
    [CurrentParameter] of the Ithaco notebook, has units [('V', 'A')] and
    fills the arrays [volt] and [current]; [a1.volt] reads one. *)
Record Gettable := {
  outputs : list (string * (world -> Q))
}.

(** Modelled from the spec: [Loop(setpoints, delay).each(p1, ..., pn)],
    "a parameterized loop over one or more instrument settings that
    records one or more measured parameters at each setting". *)
Record Loop := {
  sweep_over : Settable;
  setpoints : list Z;
  delay : Z;
  actions : list Gettable
}.

(** Modelled from the spec: the constructor [Loop(setpoints, delay)] of
    the library, before any parameter to measure is given. *)
Definition new_loop (p : Settable) (values : list Z) (delay : Z) : Loop :=
  {| sweep_over := p; setpoints := values; delay := delay; actions := [] |}.

(** Modelled from the spec: [loop.each(p1, ..., pn)] of the library,
    which names the "one or more measured parameters". *)
Definition each (ps : list Gettable) (lp : Loop) : Loop :=
  {| sweep_over := sweep_over lp; setpoints := setpoints lp;
     delay := delay lp; actions := ps |}.

(** Modelled from the spec: the loop of the library "over one or more
    instrument settings"; the bench after each setting in turn. *)
Fixpoint settings (p : Settable) (values : list Z) (w : world) : list world :=
  match values with
  | [] => []
  | v :: rest => let w' := set p v w in w' :: settings p rest w'
  end.

(** Modelled from the spec: the values the library reads at a setting,
    each with the position in [each(...)] of the parameter it belongs
    to. *)
Definition columns (ps : list Gettable) : list (nat * string * (world -> Q)) :=
  concat (imap (fun i g => map (fun o => (i, fst o, snd o)) (outputs g)) ps).

(** Modelled from the spec: how many of the values read by the library
    carry a given name. *)
Definition occurrences (name : string) (cols : list (nat * string * (world -> Q))) : nat :=
  length (List.filter (fun c => String.eqb (snd (fst c)) name) cols).

(** Modelled from the spec: the array names the library gives, as the
    notebook's output shows them: the value's own name ([volt],
    [current]), and when two values share a name the position of their
    parameter is appended ([volt_0], [volt_1]). *)
Definition array_name (cols : list (nat * string * (world -> Q)))
    (c : nat * string * (world -> Q)) : string :=
  let name := snd (fst c) in
  if (1 <? occurrences name cols)%nat
  then name +:+ "_" +:+ NilEmpty.string_of_uint (Nat.to_uint (fst (fst c)))
  else name.

(** Modelled from the spec: what the sweep records.  The set-point array
    is named after the swept parameter ([volt_set]); each value read
    fills one array, with one entry per setting. *)
Definition sweep_arrays (lp : Loop) (w : world) : list (string * list Q) :=
  let worlds := settings (sweep_over lp) (setpoints lp) w in
  let cols := columns (actions lp) in
  (set_name (sweep_over lp) +:+ "_set", map inject_Z (setpoints lp)) ::
  map (fun c => (array_name cols c, map (snd c) worlds)) cols.

(** Modelled from the spec: [loop.run(location=..., overwrite=...)],
    which "produces a persisted dataset keyed by a location string".
    [store] is what is persisted so far and [default] the location the
    library picks when none is given.  The spec says nothing of
    [overwrite]; by its name, the call without it refuses to replace an
    entry, and [None] stands for that refusal. *)
Definition run (lp : Loop) (loc : option string) (overwrite : bool)
    (default : string) (store : gmap string DataSet) (w : world)
  : option (gmap string DataSet * DataSet) :=
  let l := match loc with Some l => l | None => default end in
  if negb overwrite && bool_decide (is_Some (store !! l)) then None
  else
    let data := {| location := l; arrays := sweep_arrays lp w |} in
    Some (<[l := data]> store, data).

End Instruments.

Arguments set_name {world}.
Arguments set {world}.
Arguments outputs {world}.
Arguments sweep_over {world}.
Arguments setpoints {world}.
Arguments delay {world}.
Arguments actions {world}.
Arguments new_loop {world}.
Arguments each {world}.
Arguments settings {world}.
Arguments columns {world}.
Arguments array_name {world}.
Arguments sweep_arrays {world}.
Arguments run {world}.

End Sweep.

(* ================================================================== *)
(** ** Vocabulary of the statements *)

Module WidgetSpec.

Import Widget.

(** The value a call of [setInterval] asks for. *)
Definition requested (arg : option Z) (s : State) : Z :=
  match arg with
  | None => interval (model s)
  | Some n => n
  end.

(** The timers of a view are in order when the only timer that may run
    is the one [_updater] names, and that id has been handed out. *)
Definition timers_ok (s : State) : Prop :=
  (forall id, _updater s = Some id -> (id < next_timer s)%positive) /\
  (forall t, t ∈ active s -> _updater s = Some (fst t)) /\
  (length (active s) <= 1)%nat.

(** The timer [id] has been handed out and does not run. *)
Definition stopped (id : positive) (s : State) : Prop :=
  timers_ok s /\ (id < next_timer s)%positive /\ is_active id s = false.

(** The update messages among the messages sent. *)
Definition updates (s : State) : list msg :=
  List.filter (fun m => match m with MyUpdate => true | Abort => false end) (sent s).

(** An event that does not give [_interval] a new value: anything but a
    render, and a call of [setInterval] (direct, or through [update])
    only when it asks for the value [_interval] already has. *)
Definition quiet_event (e : event) (s : State) : bool :=
  match e with
  | Render => false
  | Update => bool_decide (Some (interval (model s)) = _interval s)
  | SetInterval arg => bool_decide (Some (requested arg s) = _interval s)
  | _ => true
  end.

Fixpoint quiet (evs : list event) (s : State) : bool :=
  match evs with
  | [] => true
  | e :: rest => quiet_event e s && quiet rest (step e s)
  end.

(** The state a state button stands for. *)
Definition state_name (b : button) : string :=
  match b with
  | BtnMinimized => "minimized"
  | BtnDocked => "docked"
  | BtnFloated => "floated"
  end.

Definition panel_states : list string := ["docked"; "minimized"; "floated"].

(** How much of the panel, placed at [position_left], [position_top]
    with its width and height, lies inside the viewport. *)
Definition visible_width (s : State) : Z :=
  Z.max 0 (Z.min (position_left s + el_width s) (innerWidth s)
           - Z.max (position_left s) 0).

Definition visible_height (s : State) : Z :=
  Z.max 0 (Z.min (position_top s + el_height s) (innerHeight s)
           - Z.max (position_top s) 0).

(** The subprocess-output panels of the document. *)
Definition panels (s : State) : list ref := select "qcodes-output-view" s.

(** The part of the state the timers live in. *)
Definition timer_part (s : State) :=
  (active s, _updater s, next_timer s, _interval s, model s, sent s).

(** The part of the state the timer operations leave alone. *)
Definition panel_part (s : State) :=
  (cls s, qcodes_state s, rendered s, outputArea s, clear_disabled s,
   others s, el_attached s, el_classes s, innerHTML s,
   css_left s, css_top s, draggable s,
   innerWidth s, innerHeight s, el_width s, el_height s).

(** An element other than the view's own that shows as a panel. *)
Definition is_panel (n : node) : bool :=
  attached n && has_class "qcodes-output-view" (classes n).

(** *** Views to try the statements on *)

Definition live_model : Model :=
  {| _message := "ready"; interval := 1; _processes := ""; comm_live := true |}.

Definition dead_model : Model :=
  {| _message := "ready"; interval := 1; _processes := ""; comm_live := false |}.

(** An [UpdateView] rendered with an interval of one second: timer 1
    runs. *)
Definition polling_view : State :=
  run [Render] (fresh UpdateView live_model 800 600 [] [] true (fun _ => 0)).

(** The same view once the comm has died. *)
Definition dead_view : State := step (ModelChange dead_model) polling_view.

(** A page on which a panel from before a kernel restart is left. *)
Definition stale_panel : node :=
  {| node_id := 7; classes := ["widget-area"; "qcodes-output-view"];
     ancestors := []; attached := true |}.

(** A [SubprocessView] as [render] receives it, its element in the
    document or not. *)
Definition new_panel (in_doc : bool) : State :=
  fresh SubprocessView live_model 800 600 [stale_panel] [] in_doc
    (fun content => Z.of_nat (length content) * 14 - 50).

(** The panel floated, 400 by 100, and dragged out of the window's left
    edge. *)
Definition dragged_away : State :=
  run [Render; Relayout 400 100; ClickState BtnFloated; Drag (-1000) 50]
      (new_panel true).

End WidgetSpec.

Module NotebookSpec.

Import Notebook.

(** From the [k]-th operation on, the library answers truthy [n] times
    and then falsy. *)
Definition truthy_until (lib : library) (k n : nat) : Prop :=
  (forall m, (m < n)%nat -> lib (k + m)%nat = Returns true) /\
  lib (k + n)%nat = Returns false.

Definition never_raises (lib : library) : Prop :=
  forall i, exists b, lib i = Returns b.

(** What the polling loop does when [data.sync()] is truthy [n] times. *)
Fixpoint loop_trace (n : nat) : list event :=
  match n with
  | O => [Called "data.sync()" false]
  | S m => Called "data.sync()" true :: Slept :: loop_trace m
  end.

Definition sleeps (ev : list event) : nat := length (List.filter is_sleep ev).

(** The exception an event raises, if it raises one: a call into the
    library that raised, or an expression of the notebook's own. *)
Definition raised (x : event) : option string :=
  match x with
  | Raised _ e | Failed _ e => Some e
  | _ => None
  end.

Definition is_raise (e : event) : bool :=
  match e with
  | Raised _ _ | Failed _ _ => true
  | _ => false
  end.

(** How a run ends: normally, nothing having raised; or with the
    exception of the one event that raised, after which nothing happened
    but the printing of the timers around it. *)
Definition ends_well (ev : list event) (r : result) : Prop :=
  match r with
  | Normal => Forall (fun x => is_raise x = false) ev
  | Exception e =>
      exists pre x post,
        ev = pre ++ x :: post /\ raised x = Some e /\
        Forall (fun x => is_raise x = false) pre /\
        Forall (fun x => is_timer_print x = true) post
  end.

(** The size of a block, every loop counted unrolled once. *)
Fixpoint size_stmt (s : stmt) : nat :=
  match s with
  | Op _ | Divide _ _ | Sleep => 1
  | With _ body => S (list_sum (map size_stmt body))
  | While _ body => S (list_sum (map size_stmt body))
  | For n body => S (n * list_sum (map size_stmt body))
  | TryExcept body handler | TryFinally body handler =>
      S (list_sum (map size_stmt body) + list_sum (map size_stmt handler))
  end.

Definition size (prog : list stmt) : nat := list_sum (map size_stmt prog).

(** A cell lets exceptions through: whatever the library does,
    - a call into the library that raises, or an expression of the
      notebook's own that does, ends the cell with that exception:
      nothing had raised before, so nothing was recovered from, and
      nothing follows, neither a statement of the cell nor a second try,
      but the printing of [Timer.__exit__] of the timers around it;
    - an exception that ends the cell comes from such an event of the
      run;
    - once some call is bound to raise, the cell does end. *)
Definition lets_exceptions_through (cell : list stmt) : Prop :=
  forall lib : library,
    (forall fuel ev k r pre x e post,
       exec fuel lib 0 cell = Some (ev, k, r) ->
       ev = pre ++ x :: post -> raised x = Some e ->
       r = Exception e /\
       Forall (fun x => is_raise x = false) pre /\
       Forall (fun x => is_timer_print x = true) post) /\
    (forall fuel ev k e,
       exec fuel lib 0 cell = Some (ev, k, Exception e) ->
       exists x, x ∈ ev /\ raised x = Some e) /\
    (forall j e, lib j = Raises e ->
       exists fuel ev k r, exec fuel lib 0 cell = Some (ev, k, r)).

(** The operations numbered [k] to [k' - 1] have been performed, and if
    the run ended normally each of them returned. *)
Definition all_returned (lib : library) (k k' : nat) (r : result) : Prop :=
  (k <= k')%nat /\
  (r = Normal ->
   forall i, (k <= i < k')%nat -> exists b, lib i = Returns b).

(** One of the next [d] operations raises. *)
Definition raises_within (lib : library) (k d : nat) : Prop :=
  exists j e, (k <= j < k + d)%nat /\ lib j = Raises e.

Definition terminates (lib : library) (k : nat) (prog : list stmt) : Prop :=
  exists fuel out, exec fuel lib k prog = Some out.

(** [rec'] runs whatever [rec] runs, with the same result. *)
Definition extends (rec rec' : nat -> list stmt -> option run_result) : Prop :=
  forall k prog out, rec k prog = Some out -> rec' k prog = Some out.

(** A cell that handles what its call raises, as no cell of the
    notebooks does. *)
Definition guarded_cell : list stmt :=
  [TryExcept [Op "station1.measure()"] [Op "station1.measure()"]].

(** A library whose first operation fails, the later ones not. *)
Definition fails_once : library :=
  fun n => if Nat.eqb n 0 then Raises "VisaIOError" else Returns true.

(** An oscilloscope whose time base reads zero. *)
Definition zero_timebase : library :=
  fun n => Returns (negb (Nat.eqb n 1)).

(** A library whose fourth operation fails. *)
Definition fails_at_run : library :=
  fun n => if Nat.eqb n 3 then Raises "VisaIOError" else Returns true.

(** A data set that is in sync after [n] more polls. *)
Definition in_sync_after (n : nat) : library :=
  fun i => Returns (Nat.ltb i n).

End NotebookSpec.

Module SweepSpec.

Import Sweep.

(** The bench when the first [i + 1] set points have been set, one after
    the other: the setting at which the entries numbered [i] are
    read. *)
Definition bench_after {world} (p : Settable world) (values : list Z)
    (i : nat) (w : world) : world :=
  fold_left (fun w v => set p v w) (take (S i) values) w.

(** A bench to try the statements on: the state of the instruments is
    the voltage the source was last set to, and the two meters read it
    back, the first with the sign turned as in the notebook's output. *)
Definition k1_volt : Settable Z :=
  {| set_name := "volt"; set := fun v _ => v |}.

Definition a1_volt : Gettable Z :=
  {| outputs := [("volt", fun w => inject_Z (- w))] |}.

Definition a2_volt : Gettable Z :=
  {| outputs := [("volt", fun w => inject_Z w)] |}.

(** [Loop(k1.volt[-5:5:1], 0).each(a1.volt, a2.volt)] *)
Definition two_meter_sweep : Loop Z :=
  each [a1_volt; a2_volt] (new_loop k1_volt (slice (-5) 5 1) 0).

End SweepSpec.

(* ================================================================== *)
(** ** Further vocabulary *)

Module WidgetMore.

Import Widget WidgetSpec.

(** Does the character occur in the string? *)
Fixpoint has_char (c : ascii) (s : string) : bool :=
  match s with
  | EmptyString => false
  | String a rest => Ascii.eqb a c || has_char c rest
  end.

(** [sub] occurs somewhere in [s]. *)
Definition occurs (sub s : string) : Prop :=
  exists pre post, s = pre +:+ sub +:+ post.

(** The first piece of [s.split(sep)]. *)
Definition first_piece (sep : ascii) (s : string) : string :=
  match JS.split sep s with
  | piece :: _ => piece
  | [] => EmptyString
  end.

(** The Clear button is disabled exactly when the output area is
    empty. *)
Definition clear_matches_output (s : State) : Prop :=
  clear_disabled s = bool_decide (outputArea s = []).

(** The model with another message. *)
Definition with_message (m : string) (mdl : Model) : Model :=
  {| _message := m; interval := interval mdl;
     _processes := _processes mdl; comm_live := comm_live mdl |}.

(** The kernel sets the model's message and the framework calls
    [update]. *)
Definition deliver (m : string) (s : State) : State :=
  step Update (step (ModelChange (with_message m (model s))) s).

Definition deliver_all (ms : list string) (s : State) : State :=
  fold_left (fun s m => deliver m s) ms s.

(** The bottom of the output area for a given content. *)
Definition bottom (s : State) (content : list string) : Z :=
  Z.max 0 (max_scroll s content).

(** The panel is draggable and placed through [left] and [top] exactly
    when it is floated. *)
Definition floating_consistent (s : State) : Prop :=
  if bool_decide (qcodes_state s = Some "floated")
  then draggable s = true /\ is_Some (css_left s) /\ is_Some (css_top s)
  else draggable s = false /\ css_left s = None /\ css_top s = None.

Definition is_render (e : event) : bool :=
  match e with
  | Render => true
  | _ => false
  end.

(** No event of the list is a render. *)
Definition no_render (evs : list event) : bool :=
  forallb (fun e => negb (is_render e)) evs.

(** Every running timer has the period [_interval] asks for. *)
Definition delay_matches_interval (s : State) : Prop :=
  forall t, t ∈ active s ->
    exists v, _interval s = Some v /\ v <> 0 /\ snd t = v * 1000.

(** The style sheet hides the button of the state the panel is in:
    [.qcodes-output-view[qcodes-state=docked] .qcodes-docked] and its
    two siblings have [display: none]. *)
Definition button_shown (b : button) (s : State) : bool :=
  negb (bool_decide (qcodes_state s = Some (state_name b))).

(** ... and, minimized, everything of class [qcodes-content]: the
    output area and the Clear button. *)
Definition content_shown (s : State) : bool :=
  negb (bool_decide (qcodes_state s = Some "minimized")).

End WidgetMore.

Module NotebookMore.

Import Notebook NotebookSpec.

Definition is_timer_enter (e : event) : bool :=
  match e with
  | TimerEntered => true
  | _ => false
  end.

Definition is_elapsed (e : event) : bool :=
  match e with
  | PrintedElapsed => true
  | _ => false
  end.

(** How many events of a kind a run holds. *)
Definition count (f : event -> bool) (ev : list event) : nat :=
  length (List.filter f ev).

(** As many timers report the elapsed time as were entered. *)
Definition timers_balanced (ev : list event) : Prop :=
  count is_timer_enter ev = count is_elapsed ev.

End NotebookMore.

(* ================================================================== *)
(** * Properties of the widget script *)

Section WidgetFacts.

Import Widget WidgetSpec.

Lemma state_of_class_className b :
  state_of_class (className b) = Some (state_name b).
Proof. destruct b; vm_compute; reflexivity. Qed.

(** Closes a goal that says an operation leaves some fields alone. *)
Ltac frame :=
  unfold subprocess_display, js_state_click, on_resize, clear_click,
    abort_click, send, scroll_to_bottom, scroll_to;
  try rewrite state_of_class_className;
  repeat case_match; reflexivity.

(** ** The timers *)

Lemma timer_part_eq s s' :
  timer_part s' = timer_part s ->
  active s' = active s /\ _updater s' = _updater s /\
  next_timer s' = next_timer s /\ _interval s' = _interval s /\
  model s' = model s /\ sent s' = sent s.
Proof. unfold timer_part. intros H. by simplify_eq. Qed.

Lemma js_state_click_timer_part b s :
  timer_part (js_state_click b s) = timer_part s.
Proof. frame. Qed.

Lemma subprocess_display_timer_part m s :
  timer_part (subprocess_display m s) = timer_part s.
Proof. frame. Qed.

Lemma display_timer_part m s s' :
  display m s = Some s' -> timer_part s' = timer_part s.
Proof.
  unfold display. destruct (cls s); [| |destruct (rendered s)];
    intros [= <-]; auto using subprocess_display_timer_part.
Qed.

Lemma on_resize_timer_part s : timer_part (on_resize s) = timer_part s.
Proof. frame. Qed.

Lemma timers_ok_ext s s' :
  timer_part s' = timer_part s -> timers_ok s -> timers_ok s'.
Proof.
  intros H%timer_part_eq (Hid & Hact & Hlen).
  destruct H as (Ha & Hu & Hn & _).
  unfold timers_ok. rewrite Ha, Hu, Hn. auto.
Qed.

Lemma clear_updater_active s :
  timers_ok s -> active (clear_updater s) = [].
Proof.
  intros (_ & Hact & Hlen). unfold clear_updater, clearInterval.
  destruct (active s) as [|t [|t' rest]] eqn:Ha; cbn in Hlen; [| |lia].
  - destruct (_updater s); cbn; rewrite ?Ha; reflexivity.
  - specialize (Hact t). rewrite Hact by (left).
    cbn. rewrite ?Ha. cbn. rewrite Pos.eqb_refl. reflexivity.
Qed.

Lemma clear_updater_rest s :
  _updater (clear_updater s) = _updater s /\
  next_timer (clear_updater s) = next_timer s /\
  _interval (clear_updater s) = _interval s /\
  model (clear_updater s) = model s /\
  sent (clear_updater s) = sent s.
Proof.
  unfold clear_updater.
  destruct (_updater s) eqn:E; cbn; rewrite ?E; repeat split.
Qed.

Lemma clear_updater_ok s : timers_ok s -> timers_ok (clear_updater s).
Proof.
  intros Hok. pose proof (clear_updater_active s Hok) as Ha.
  destruct (clear_updater_rest s) as (Hu & Hn & _).
  destruct Hok as (Hid & _ & _).
  unfold timers_ok. rewrite Ha, Hu, Hn.
  repeat split; [exact Hid | intros t Ht; inversion Ht | cbn; lia].
Qed.

(** A call that asks for the current value changes nothing. *)
Lemma setInterval_same arg s :
  Some (requested arg s) = _interval s -> setInterval arg s = s.
Proof.
  intros H. unfold setInterval. fold (requested arg s).
  rewrite bool_decide_eq_true_2 by assumption. reflexivity.
Qed.

(** A call that asks for another value: the timer table afterwards. *)
Lemma setInterval_other arg s :
  Some (requested arg s) <> _interval s ->
  timers_ok s ->
  let v := requested arg s in
  _interval (setInterval arg s) = Some v /\
  model (setInterval arg s) = model s /\
  sent (setInterval arg s) = sent s /\
  if v =? 0
  then active (setInterval arg s) = [] /\
       _updater (setInterval arg s) = _updater s /\
       next_timer (setInterval arg s) = next_timer s
  else active (setInterval arg s) = [(next_timer s, v * 1000)] /\
       _updater (setInterval arg s) = Some (next_timer s) /\
       next_timer (setInterval arg s) = Pos.succ (next_timer s).
Proof.
  intros Hne Hok v. unfold setInterval. fold (requested arg s). fold v.
  rewrite bool_decide_eq_false_2 by assumption.
  assert (Hok1 : timers_ok (set_interval (Some v) s)) by exact Hok.
  pose proof (clear_updater_active _ Hok1) as Ha.
  destruct (clear_updater_rest (set_interval (Some v) s))
    as (Hu & Hn & Hi & Hm & Hs).
  cbn in Hu, Hn, Hi, Hm, Hs.
  destruct (v =? 0); cbn; rewrite ?Ha, ?Hu, ?Hn, ?Hi, ?Hm, ?Hs; repeat split.
Qed.

Lemma setInterval_ok arg s : timers_ok s -> timers_ok (setInterval arg s).
Proof.
  intros Hok.
  destruct (decide (Some (requested arg s) = _interval s)) as [He|Hne].
  - rewrite setInterval_same by assumption. exact Hok.
  - destruct (setInterval_other arg s Hne Hok) as (_ & _ & _ & H).
    destruct Hok as (Hid & _ & _).
    destruct (requested arg s =? 0); destruct H as (Ha & Hu & Hn);
      unfold timers_ok; rewrite Ha, Hu, Hn.
    + repeat split; [exact Hid | intros t Ht; inversion Ht | cbn; lia].
    + repeat split.
      * intros id [= <-]. lia.
      * intros t Ht. apply list_elem_of_singleton in Ht. by subst.
      * cbn. lia.
Qed.

Lemma poll_ok s : timers_ok s -> timers_ok (poll s).
Proof.
  intros Hok. unfold poll.
  assert (Hs : timers_ok (send MyUpdate s)) by exact Hok.
  destruct (comm_live (model (send MyUpdate s))); auto using clear_updater_ok.
Qed.

Lemma update_ok s : timers_ok s -> timers_ok (update s).
Proof.
  intros Hok. unfold update.
  destruct (display _ s) as [s'|] eqn:Hd; [|exact Hok].
  apply setInterval_ok.
  eapply timers_ok_ext; [eapply display_timer_part, Hd | exact Hok].
Qed.

Lemma remove_all_timer_part sel s :
  timer_part (remove_all sel s) = timer_part s.
Proof.
  revert s. induction sel as [|[|id] sel IH]; intros s; cbn; [done| |];
    rewrite IH; reflexivity.
Qed.

Lemma build_panel_timers s :
  active (build_panel s) = active s /\
  _updater (build_panel s) = _updater s /\
  next_timer (build_panel s) = next_timer s /\
  model (build_panel s) = model s /\
  sent (build_panel s) = sent s.
Proof.
  unfold build_panel.
  set (s1 := set_interval (Some 0) s).
  pose proof (remove_all_timer_part (not_own (select "qcodes-output-view" s1)) s1)
    as H%timer_part_eq.
  destruct H as (Ha & Hu & Hn & _ & Hm & Hs).
  cbn. rewrite Ha, Hu, Hn, Hm, Hs. repeat split.
Qed.

Lemma render_ok s : timers_ok s -> timers_ok (render s).
Proof.
  intros Hok. unfold render.
  assert (H0 : timers_ok (set_interval (Some 0) s)) by exact Hok.
  destruct (cls s); try (apply update_ok; exact H0).
  apply update_ok.
  destruct (build_panel_timers s) as (Ha & Hu & Hn & _).
  unfold timers_ok. rewrite Ha, Hu, Hn. exact Hok.
Qed.

Lemma step_ok e s : timers_ok s -> timers_ok (step e s).
Proof.
  intros Hok. destruct e; cbn.
  - by apply render_ok.
  - by apply update_ok.
  - by apply setInterval_ok.
  - by apply clear_updater_ok.
  - unfold tick. destruct (is_active id s); auto using poll_ok.
  - destruct (rendered s); [|done].
    eapply timers_ok_ext; [apply js_state_click_timer_part | done].
  - destruct (rendered s); done.
  - destruct (rendered s); done.
  - destruct (rendered _); [|done].
    eapply timers_ok_ext; [apply on_resize_timer_part | done].
  - destruct (draggable s); done.
  - done.
  - done.
  - done.
Qed.

Lemma run_ok evs s : timers_ok s -> timers_ok (run evs s).
Proof.
  revert s. induction evs as [|e evs IH]; intros s Hok; cbn; [done|].
  apply IH, step_ok, Hok.
Qed.

Lemma fresh_ok c m w h page el_cls in_doc layout :
  timers_ok (fresh c m w h page el_cls in_doc layout).
Proof.
  repeat split; cbn; [intros id [=] | intros t Ht; inversion Ht | lia].
Qed.

(** ** A stopped timer stays stopped *)

Lemma stopped_ext id s s' :
  timer_part s' = timer_part s -> stopped id s -> stopped id s'.
Proof.
  intros Hp (Hok & Hlt & Hna). split; [by eapply timers_ok_ext|].
  apply timer_part_eq in Hp as (Ha & _ & Hn & _).
  unfold is_active. rewrite Ha, Hn. done.
Qed.

Lemma stopped_clear_updater id s : stopped id s -> stopped id (clear_updater s).
Proof.
  intros (Hok & Hlt & Hna). split; [by apply clear_updater_ok|].
  destruct (clear_updater_rest s) as (_ & Hn & _).
  unfold is_active. rewrite Hn, (clear_updater_active s Hok). done.
Qed.

Lemma stopped_setInterval id arg s :
  stopped id s -> stopped id (setInterval arg s).
Proof.
  intros (Hok & Hlt & Hna). split; [by apply setInterval_ok|].
  destruct (decide (Some (requested arg s) = _interval s)) as [He|Hne].
  - by rewrite setInterval_same.
  - destruct (setInterval_other arg s Hne Hok) as (_ & _ & _ & H).
    unfold is_active.
    destruct (requested arg s =? 0); destruct H as (-> & _ & ->); [done|].
    split; [lia|]. cbn. rewrite orb_false_r. apply Pos.eqb_neq. lia.
Qed.

Lemma stopped_update id s : stopped id s -> stopped id (update s).
Proof.
  intros H. unfold update.
  destruct (display _ s) as [s'|] eqn:Hd; [|exact H].
  apply stopped_setInterval.
  eapply stopped_ext; [eapply display_timer_part, Hd | exact H].
Qed.

Lemma stopped_render id s : stopped id s -> stopped id (render s).
Proof.
  intros H. unfold render.
  assert (H0 : stopped id (set_interval (Some 0) s)) by exact H.
  destruct (cls s); try (apply stopped_update; exact H0).
  apply stopped_update.
  destruct (build_panel_timers s) as (Ha & Hu & Hn & _).
  destruct H as ((Hid & Hact & Hlen) & Hlt & Hna).
  unfold stopped, timers_ok, is_active. rewrite Ha, Hu, Hn. done.
Qed.

Lemma stopped_step id e s : stopped id s -> stopped id (step e s).
Proof.
  intros H. destruct e; cbn.
  - by apply stopped_render.
  - by apply stopped_update.
  - by apply stopped_setInterval.
  - by apply stopped_clear_updater.
  - unfold tick. destruct (is_active id0 s); [|done]. unfold poll.
    assert (Hs : stopped id (send MyUpdate s)) by exact H.
    destruct (comm_live _); [done | by apply stopped_clear_updater].
  - destruct (rendered s); [|done].
    eapply stopped_ext; [apply js_state_click_timer_part | done].
  - destruct (rendered s); done.
  - destruct (rendered s); done.
  - destruct (rendered _); [|done].
    eapply stopped_ext; [apply on_resize_timer_part | done].
  - destruct (draggable s); done.
  - done.
  - done.
  - done.
Qed.

Lemma stopped_run id evs s : stopped id s -> stopped id (run evs s).
Proof.
  revert s. induction evs as [|e evs IH]; intros s H; [done|].
  apply (IH (step e s)), stopped_step, H.
Qed.

Lemma active_handed_out id s :
  timers_ok s -> is_active id s = true -> (id < next_timer s)%positive.
Proof.
  intros (Hid & Hact & _) H. unfold is_active in H.
  apply existsb_exists in H as (t & Ht & He).
  apply Pos.eqb_eq in He as <-.
  apply Hid, Hact, list_elem_of_In, Ht.
Qed.

(** ** Events that ask for no new interval *)

Lemma updates_send_abort s : updates (send Abort s) = updates s.
Proof.
  unfold updates, send. cbn. rewrite List.filter_app. cbn.
  apply app_nil_r.
Qed.

Lemma updates_ext s s' : sent s' = sent s -> updates s' = updates s.
Proof. unfold updates. by intros ->. Qed.

Lemma quiet_step e s :
  active s = [] -> quiet_event e s = true ->
  active (step e s) = [] /\ updates (step e s) = updates s.
Proof.
  intros Ha Hq. destruct e; cbn in *; try discriminate.
  - (* Update *)
    apply bool_decide_eq_true_1 in Hq. unfold update.
    destruct (display _ s) as [s'|] eqn:Hd; [|done].
    destruct (timer_part_eq _ _ (display_timer_part _ _ _ Hd))
      as (Ha' & _ & _ & Hi & Hm & Hs).
    rewrite setInterval_same.
    + rewrite Ha'. split; [done | by apply updates_ext].
    + cbn. rewrite Hm, Hi. exact Hq.
  - apply bool_decide_eq_true_1 in Hq. by rewrite setInterval_same.
  - unfold remove, clear_updater, clearInterval.
    destruct (_updater s); cbn; rewrite ?Ha; done.
  - unfold tick, is_active. rewrite Ha. done.
  - destruct (rendered s); [|done].
    destruct (timer_part_eq _ _ (js_state_click_timer_part b s))
      as (Ha' & _ & _ & _ & _ & Hs).
    rewrite Ha'. split; [done | by apply updates_ext].
  - destruct (rendered s); done.
  - destruct (rendered s); [|done]. split; [done | apply updates_send_abort].
  - destruct (rendered _); [|done].
    destruct (timer_part_eq _ _
                (on_resize_timer_part (set_innerHeight h (set_innerWidth w s))))
      as (Ha' & _ & _ & _ & _ & Hs).
    rewrite Ha'. split; [done | by apply updates_ext].
  - destruct (draggable s); done.
  - done.
  - done.
  - done.
Qed.

Lemma quiet_run evs s :
  active s = [] -> quiet evs s = true ->
  active (run evs s) = [] /\ updates (run evs s) = updates s.
Proof.
  revert s. induction evs as [|e evs IH]; intros s Ha Hq; [done|].
  cbn [quiet] in Hq. apply andb_prop in Hq as [Hq1 Hq2].
  destruct (quiet_step e s Ha Hq1) as [Ha' Hu'].
  destruct (IH _ Ha' Hq2) as [Ha'' Hu''].
  change (run (e :: evs) s) with (run evs (step e s)). split; congruence.
Qed.

(** ** C8 *)

(** C8.  [UpdateView.setInterval] keeps at most one timer alive.  On a
    view whose timers are in order (a fresh view is): a call asking for
    the value [_interval] already has changes nothing; a call repeated is
    the call made once; a call asking for another value stops the timer
    [_updater] names, whether or not it starts a new one; and after any
    sequence of events, calls of [setInterval] among them, at most one
    timer runs. *)
Theorem setInterval_single_timer (s : State) (arg : option Z) :
  timers_ok s ->
  (Some (requested arg s) = _interval s -> setInterval arg s = s) /\
  setInterval arg (setInterval arg s) = setInterval arg s /\
  (Some (requested arg s) <> _interval s ->
   forall id, _updater s = Some id ->
              is_active id (setInterval arg s) = false) /\
  (forall args, (length (active (run (map SetInterval args) s)) <= 1)%nat) /\
  (forall evs, (length (active (run evs s)) <= 1)%nat).
Proof.
  intros Hok. split; [apply setInterval_same|]. split; [|split; [|split]].
  - destruct (decide (Some (requested arg s) = _interval s)) as [He|Hne].
    + rewrite (setInterval_same arg s He). by apply setInterval_same.
    + destruct (setInterval_other arg s Hne Hok) as (Hi & Hm & _).
      apply setInterval_same. unfold requested in *.
      destruct arg; rewrite ?Hm; by rewrite Hi.
  - intros Hne id Hid.
    destruct (setInterval_other arg s Hne Hok) as (_ & _ & _ & H).
    destruct Hok as (Hfresh & _ & _). specialize (Hfresh id Hid).
    unfold is_active.
    destruct (requested arg s =? 0); destruct H as (-> & _); [done|].
    cbn. rewrite orb_false_r. apply Pos.eqb_neq. lia.
  - intros args. apply (run_ok _ s Hok).
  - intros evs. apply (run_ok _ s Hok).
Qed.

(** ** C2 *)

(** C2, amended.  On a view whose timers are in order: a call of
    [setInterval] that asks for a new, nonzero interval, made directly or
    by [update] with the interval of the model, leaves exactly one timer
    running, with a period of interval * 1000 ms; each time a running
    timer comes due one update message is sent; if the comm is live the
    timer keeps running, and if it is dead the timer is cleared, never
    runs again whatever happens, and no update message follows as long
    as no event asks for a new interval.  That the configured interval
    is not zero does not by itself mean that a timer runs. *)
Theorem polling_until_comm_dead (s : State) :
  timers_ok s ->
  (forall arg, requested arg s <> 0 -> Some (requested arg s) <> _interval s ->
     active (setInterval arg s) = [(next_timer s, requested arg s * 1000)]) /\
  (forall s', display (_message (model s)) s = Some s' ->
     interval (model s) <> 0 -> Some (interval (model s)) <> _interval s ->
     active (update s) = [(next_timer s, interval (model s) * 1000)]) /\
  (forall id, is_active id s = true ->
     sent (tick id s) = sent s ++ [MyUpdate] /\
     (comm_live (model s) = true -> active (tick id s) = active s) /\
     (comm_live (model s) = false ->
        active (tick id s) = [] /\
        (forall evs, is_active id (run evs (tick id s)) = false) /\
        (forall evs, quiet evs (tick id s) = true ->
                     active (run evs (tick id s)) = [] /\
                     updates (run evs (tick id s)) = updates (tick id s)))).
Proof.
  intros Hok. split; [|split].
  - intros arg Hnz Hne.
    destruct (setInterval_other arg s Hne Hok) as (_ & _ & _ & H).
    apply Z.eqb_neq in Hnz. rewrite Hnz in H. apply H.
  - intros s' Hd Hnz Hne. unfold update. rewrite Hd.
    pose proof (display_timer_part _ _ _ Hd) as Hpart.
    destruct (timer_part_eq _ _ Hpart) as (_ & _ & Hn & Hi & Hm & _).
    assert (Hne' : Some (requested None s') <> _interval s')
      by (cbn; by rewrite Hm, Hi).
    destruct (setInterval_other None s' Hne' (timers_ok_ext _ _ Hpart Hok))
      as (_ & _ & _ & H).
    cbn in H. rewrite Hm, Hn in H.
    apply Z.eqb_neq in Hnz. rewrite Hnz in H. apply H.
  - intros id Hid. unfold tick. rewrite Hid. unfold poll.
    assert (Hs : timers_ok (send MyUpdate s)) by exact Hok.
    change (model (send MyUpdate s)) with (model s).
    destruct (clear_updater_rest (send MyUpdate s)) as (_ & _ & _ & _ & Hsent).
    pose proof (clear_updater_active _ Hs) as Hclear.
    pose proof (active_handed_out id s Hok Hid) as Hlt.
    destruct (comm_live (model s)); (split; [|split]); try done.
    intros _. split; [done|]. split.
    + intros evs.
      assert (Hst : stopped id (clear_updater (send MyUpdate s))).
      { split; [by apply clear_updater_ok|].
        destruct (clear_updater_rest (send MyUpdate s)) as (_ & Hn & _).
        unfold is_active. rewrite Hn, Hclear. done. }
      apply (stopped_run id evs _ Hst).
    + intros evs Hq. by apply quiet_run.
Qed.

Ltac timers_ok_by_evaluation :=
  repeat split;
  [ intros ? H; vm_compute in H; injection H as <-; reflexivity
  | intros ? H; vm_compute in H;
    repeat (apply elem_of_cons in H as [-> | H]; [reflexivity|]);
    inversion H
  | vm_compute; lia ].

Lemma setInterval_single_timer_witness :
  timers_ok polling_view /\
  _updater polling_view = Some 1%positive /\
  is_active 1 (setInterval (Some 2) polling_view) = false /\
  active (setInterval (Some 2) polling_view) = [(2%positive, 2000)].
Proof.
  assert (Hok : timers_ok polling_view) by timers_ok_by_evaluation.
  destruct (setInterval_single_timer polling_view (Some 2) Hok)
    as (_ & _ & Hclear & _).
  split; [exact Hok|]. split; [reflexivity|]. split; [|reflexivity].
  apply (Hclear ltac:(vm_compute; discriminate) 1%positive).
  reflexivity.
Defined.

Lemma polling_until_comm_dead_witness :
  timers_ok dead_view /\
  is_active 1 dead_view = true /\
  comm_live (model dead_view) = false /\
  active (tick 1 dead_view) = [] /\
  updates (run [Tick 1; Update; SetInterval (Some 1); ClickAbort]
               (tick 1 dead_view))
  = updates (tick 1 dead_view).
Proof.
  assert (Hok : timers_ok dead_view) by timers_ok_by_evaluation.
  destruct (polling_until_comm_dead dead_view Hok) as (_ & _ & Htick).
  destruct (Htick 1%positive ltac:(reflexivity)) as (_ & _ & Hdead).
  destruct (Hdead ltac:(reflexivity)) as (Hcleared & _ & Hquiet).
  split; [exact Hok|]. split; [reflexivity|]. split; [reflexivity|].
  split; [exact Hcleared|].
  apply Hquiet. reflexivity.
Defined.

(** C2 as stated fails, twice.  The comm of [dead_view] is dead when
    timer 1 comes due, the timer is cleared, and yet a later call of
    [setInterval] with another interval starts timer 2, whose first tick
    sends one more update message.  And [polling_view] after [remove]
    has its interval at one second and its comm live, but no timer: the
    [update] that follows starts none, [_interval] being what the model
    asks for, and no update message is sent. *)
Lemma polling_resumes_after_dead_comm :
  timers_ok dead_view /\
  is_active 1 dead_view = true /\
  comm_live (model dead_view) = false /\
  active (tick 1 dead_view) = [] /\
  updates (run [SetInterval (Some 2); Tick 2] (tick 1 dead_view))
  = updates (tick 1 dead_view) ++ [MyUpdate] /\
  updates (run [SetInterval (Some 2); Tick 2] (tick 1 dead_view))
  <> updates (tick 1 dead_view) /\
  interval (model (step Update (remove polling_view))) = 1 /\
  comm_live (model (step Update (remove polling_view))) = true /\
  active (step Update (remove polling_view)) = [] /\
  forall id, sent (tick id (step Update (remove polling_view))) = [].
Proof.
  split; [timers_ok_by_evaluation|].
  split; [reflexivity|]. split; [reflexivity|]. split; [reflexivity|].
  split; [reflexivity|]. split; [vm_compute; discriminate|].
  split; [reflexivity|]. split; [reflexivity|]. split; [reflexivity|].
  intros id. reflexivity.
Qed.

(** ** The panel *)

Lemma setInterval_panel_part arg s :
  panel_part (setInterval arg s) = panel_part s.
Proof.
  unfold setInterval, clear_updater, clearInterval, start_timer.
  repeat case_match; reflexivity.
Qed.

Lemma poll_panel_part s : panel_part (poll s) = panel_part s.
Proof.
  unfold poll, clear_updater, clearInterval, send.
  repeat case_match; reflexivity.
Qed.

Lemma clear_updater_panel_part s : panel_part (clear_updater s) = panel_part s.
Proof. unfold clear_updater, clearInterval. case_match; reflexivity. Qed.

Lemma panel_part_state s s' :
  panel_part s' = panel_part s -> qcodes_state s' = qcodes_state s.
Proof. unfold panel_part. intros H. by simplify_eq. Qed.

Lemma js_state_click_state b s :
  qcodes_state (js_state_click b s) = Some (state_name b).
Proof.
  unfold js_state_click. rewrite state_of_class_className.
  destruct b; cbn; repeat case_match; reflexivity.
Qed.

Lemma subprocess_display_state m s :
  qcodes_state (subprocess_display m s) =
  if JS.truthy m && bool_decide (qcodes_state s = Some "minimized")
  then Some "docked" else qcodes_state s.
Proof.
  unfold subprocess_display.
  destruct (JS.truthy m); [|reflexivity].
  change (qcodes_state (scroll_to_bottom s)) with (qcodes_state s).
  destruct (bool_decide (qcodes_state s = Some "minimized")); cbn.
  - case_match; cbn; apply (js_state_click_state BtnDocked).
  - case_match; reflexivity.
Qed.

Lemma display_state m s s' :
  display m s = Some s' ->
  qcodes_state s' = qcodes_state s \/ qcodes_state s' = Some "docked".
Proof.
  unfold display. destruct (cls s); [| |destruct (rendered s)];
    intros [= <-]; try (left; reflexivity).
  rewrite subprocess_display_state. case_match; auto.
Qed.

Lemma update_state s :
  qcodes_state (update s) = qcodes_state s \/
  qcodes_state (update s) = Some "docked".
Proof.
  unfold update. destruct (display _ s) as [s'|] eqn:Hd; [|by left].
  rewrite (panel_part_state _ _ (setInterval_panel_part None _)).
  eapply display_state, Hd.
Qed.

Lemma remove_all_view sel s :
  (cls (remove_all sel s), qcodes_state (remove_all sel s),
   el_classes (remove_all sel s), model (remove_all sel s))
  = (cls s, qcodes_state s, el_classes s, model s).
Proof.
  revert s. induction sel as [|[|id] sel IH]; intros s; cbn; [done| |];
    rewrite IH; reflexivity.
Qed.

Lemma build_panel_state s :
  qcodes_state (build_panel s) = Some "docked" /\ cls (build_panel s) = cls s.
Proof.
  unfold build_panel. cbn. split; [reflexivity|].
  pose proof (remove_all_view
    (not_own (select "qcodes-output-view" (set_interval (Some 0) s)))
    (set_interval (Some 0) s)) as H.
  by simplify_eq.
Qed.

Lemma render_state s :
  cls s = SubprocessView -> qcodes_state (render s) = Some "docked".
Proof.
  intros Hc. unfold render. rewrite Hc.
  destruct (build_panel_state s) as [Hd _].
  destruct (update_state (build_panel s)) as [H|H]; congruence.
Qed.

Lemma in_panel_states b : state_name b ∈ panel_states.
Proof. destruct b; unfold panel_states; set_solver. Qed.

Lemma docked_in_panel_states : "docked" ∈ panel_states.
Proof. apply (in_panel_states BtnDocked). Qed.

Lemma step_state e s :
  qcodes_state (step e s) = qcodes_state s \/
  exists st, qcodes_state (step e s) = Some st /\ st ∈ panel_states.
Proof.
  destruct e; cbn.
  - unfold render. destruct (cls s) eqn:Hc.
    + destruct (update_state (set_interval (Some 0) s)) as [H|H];
        [left; exact H | right; eauto using docked_in_panel_states].
    + destruct (update_state (set_interval (Some 0) s)) as [H|H];
        [left; exact H | right; eauto using docked_in_panel_states].
    + right. exists "docked". split; [|apply docked_in_panel_states].
      pose proof (render_state s Hc) as H. unfold render in H.
      by rewrite Hc in H.
  - destruct (update_state s) as [H|H];
      [left; exact H | right; eauto using docked_in_panel_states].
  - left. apply panel_part_state, setInterval_panel_part.
  - left. apply panel_part_state, clear_updater_panel_part.
  - left. unfold tick. destruct (is_active id s); [|done].
    apply panel_part_state, poll_panel_part.
  - destruct (rendered s); [|by left].
    right. exists (state_name b).
    split; [apply js_state_click_state | apply in_panel_states].
  - destruct (rendered s); by left.
  - destruct (rendered s); by left.
  - left. destruct (rendered _); [|done]. frame.
  - left. destruct (draggable s); done.
  - by left.
  - by left.
  - by left.
Qed.

(** ** C3 *)

(** C3.  The [qcodes-state] attribute of the panel is [docked] after
    [render]; a click on a state button sets it to the state the button's
    class names, and that is the state the button stands for; no event
    gives it a value other than [docked], [minimized] or [floated]; and
    from [render] on it is always one of the three. *)
Theorem panel_three_states :
  (forall s, cls s = SubprocessView -> qcodes_state (render s) = Some "docked") /\
  (forall b, state_of_class (className b) = Some (state_name b)) /\
  (forall b s, rendered s = true ->
     qcodes_state (step (ClickState b) s) = state_of_class (className b)) /\
  (forall e s,
     qcodes_state (step e s) = qcodes_state s \/
     exists st, qcodes_state (step e s) = Some st /\ st ∈ panel_states) /\
  (forall evs s, cls s = SubprocessView ->
     exists st, qcodes_state (run evs (render s)) = Some st /\ st ∈ panel_states).
Proof.
  split; [exact render_state|]. split; [exact state_of_class_className|].
  split; [|split; [exact step_state|]].
  - intros b s Hr. cbn. rewrite Hr, state_of_class_className.
    apply js_state_click_state.
  - intros evs s Hc.
    assert (H : exists st, qcodes_state (render s) = Some st /\ st ∈ panel_states)
      by eauto using render_state, docked_in_panel_states.
    revert H. generalize (render s). clear.
    induction evs as [|e evs IH]; intros s H; [exact H|].
    change (run (e :: evs) s) with (run evs (step e s)). apply IH.
    destruct (step_state e s) as [He|He]; [|exact He].
    rewrite He. exact H.
Qed.

Lemma panel_three_states_witness :
  cls (new_panel true) = SubprocessView /\
  qcodes_state (render (new_panel true)) = Some "docked" /\
  rendered (render (new_panel true)) = true /\
  qcodes_state (step (ClickState BtnFloated) (render (new_panel true)))
  = Some "floated" /\
  exists st,
    qcodes_state (run [ClickState BtnMinimized; ModelChange dead_model; Update]
                      (render (new_panel true))) = Some st /\
    st ∈ panel_states.
Proof.
  destruct panel_three_states as (Hrender & Hname & Hclick & _ & Hrun).
  split; [reflexivity|].
  split; [apply Hrender; reflexivity|].
  split; [reflexivity|].
  split.
  - rewrite (Hclick BtnFloated (render (new_panel true))); [|reflexivity].
    apply (Hname BtnFloated).
  - apply Hrun. reflexivity.
Defined.

(** ** C5 *)

Lemma truthy_nonempty m : m <> "" -> JS.truthy m = true.
Proof.
  intros H. unfold JS.truthy. apply negb_true_iff. by apply String.eqb_neq.
Qed.

Lemma subprocess_display_output m s :
  m <> "" ->
  outputArea (subprocess_display m s) = outputArea s ++ [m] /\
  clear_disabled (subprocess_display m s) = false.
Proof.
  intros Hm. unfold subprocess_display. rewrite (truthy_nonempty m Hm).
  split; frame.
Qed.

Lemma subprocess_display_silent s :
  outputArea (subprocess_display "" s) = outputArea s /\
  clear_disabled (subprocess_display "" s) = clear_disabled s.
Proof. split; reflexivity. Qed.

(** C5.  [SubprocessView.display] of a nonempty message appends it to the
    output area, whose earlier content stays as it was, and enables the
    Clear button; [UpdateView.display] makes the message the whole
    [innerHTML] of the element. *)
Theorem display_appends_or_replaces (s : State) (message : string) :
  (cls s = SubprocessView -> rendered s = true -> message <> "" ->
     exists s', display message s = Some s' /\
                outputArea s' = outputArea s ++ [message] /\
                clear_disabled s' = false) /\
  (cls s = UpdateView ->
     exists s', display message s = Some s' /\ innerHTML s' = message).
Proof.
  unfold display. split.
  - intros -> -> Hm. eexists. split; [reflexivity|].
    by apply subprocess_display_output.
  - intros ->. by eexists.
Qed.

Lemma display_appends_or_replaces_witness :
  outputArea (render (new_panel true)) = ["ready"] /\
  (exists s', display "step 1 done" (render (new_panel true)) = Some s' /\
              outputArea s' = ["ready"; "step 1 done"] /\
              clear_disabled s' = false) /\
  (exists s', display "step 1 done" polling_view = Some s' /\
              innerHTML s' = "step 1 done").
Proof.
  destruct (display_appends_or_replaces (render (new_panel true)) "step 1 done")
    as [Hsub _].
  destruct (display_appends_or_replaces polling_view "step 1 done")
    as [_ Hbase].
  split; [reflexivity|]. split.
  - apply Hsub; [reflexivity | reflexivity | discriminate].
  - apply Hbase. reflexivity.
Defined.

(** ** C9 *)

Lemma on_resize_clamps s :
  qcodes_state s = Some "floated" ->
  position_left (on_resize s) <= innerWidth (on_resize s) - 20 /\
  position_top (on_resize s) <= innerHeight (on_resize s) - 20 /\
  el_width (on_resize s) = el_width s /\
  el_height (on_resize s) = el_height s.
Proof.
  intros Hf. unfold on_resize. rewrite bool_decide_eq_true_2 by assumption.
  cbv zeta.
  destruct (Z.ltb_spec (innerWidth s - 20) (position_left s));
    destruct (Z.ltb_spec (innerHeight s - 20) (position_top s));
    unfold position_left, position_top in *; cbn; repeat split; lia.
Qed.

(** C9, amended.  After a resize of the window with the panel floated,
    the panel's left offset is at most [innerWidth - 20] and its top
    offset at most [innerHeight - 20].  Where the offset is moreover not
    negative and the panel at least 20 pixels wide (high), at least 20
    pixels of its width (height) lie inside the viewport. *)
Theorem resize_clamps_panel (s : State) (w h : Z) :
  rendered s = true ->
  qcodes_state s = Some "floated" ->
  let s' := step (Resize w h) s in
  innerWidth s' = w /\ innerHeight s' = h /\
  position_left s' <= innerWidth s' - 20 /\
  position_top s' <= innerHeight s' - 20 /\
  (0 <= position_left s' -> 20 <= el_width s' -> 20 <= visible_width s') /\
  (0 <= position_top s' -> 20 <= el_height s' -> 20 <= visible_height s').
Proof.
  intros Hr Hf s'. subst s'. cbn. rewrite Hr.
  set (s1 := set_innerHeight h (set_innerWidth w s)).
  assert (Hf1 : qcodes_state s1 = Some "floated") by exact Hf.
  destruct (on_resize_clamps s1 Hf1) as (Hl & Ht & Hw & Hh).
  assert (Hiw : innerWidth (on_resize s1) = w) by frame.
  assert (Hih : innerHeight (on_resize s1) = h) by frame.
  unfold visible_width, visible_height.
  repeat split; try assumption; lia.
Qed.

Lemma resize_clamps_panel_witness :
  rendered dragged_away = true /\
  qcodes_state dragged_away = Some "floated" /\
  position_left (step (Drag 900 700) dragged_away) = 900 /\
  position_left (step (Resize 640 480) (step (Drag 900 700) dragged_away))
  <= 640 - 20 /\
  20 <= visible_width (step (Resize 640 480) (step (Drag 900 700) dragged_away)).
Proof.
  destruct (resize_clamps_panel (step (Drag 900 700) dragged_away) 640 480
              ltac:(reflexivity) ltac:(reflexivity))
    as (Hw & _ & Hleft & _ & Hvis & _).
  split; [reflexivity|]. split; [reflexivity|]. split; [reflexivity|].
  split.
  - rewrite Hw in Hleft. exact Hleft.
  - apply Hvis; vm_compute; discriminate.
Defined.

(** C9 as stated fails: [dragged_away] is floated, 400 pixels wide, with
    its left edge 1000 pixels left of the window.  The resize handler
    compares offsets with upper bounds only, leaves the panel where it
    is, and nothing of it is inside the viewport. *)
Lemma resize_leaves_panel_outside :
  rendered dragged_away = true /\
  qcodes_state dragged_away = Some "floated" /\
  position_left (step (Resize 700 500) dragged_away) = -1000 /\
  el_width (step (Resize 700 500) dragged_away) = 400 /\
  visible_width (step (Resize 700 500) dragged_away) = 0 /\
  ~ 20 <= visible_width (step (Resize 700 500) dragged_away).
Proof. repeat split; try reflexivity. vm_compute. intros H. apply H. reflexivity. Qed.

(** ** C10 *)

Lemma remove_all_own sel s :
  Own ∉ sel -> el_attached (remove_all sel s) = el_attached s.
Proof.
  revert s. induction sel as [|[|id] sel IH]; intros s Hown; [done| |].
  - exfalso. apply Hown. left.
  - cbn. rewrite IH; [done|]. intros H. apply Hown. by right.
Qed.

Lemma not_own_spec sel r : r ∈ not_own sel <-> r ∈ sel /\ r <> Own.
Proof.
  unfold not_own. rewrite list_elem_of_In, List.filter_In, <- list_elem_of_In.
  destruct r; split; intros [H1 H2]; split; try done.
Qed.

(** Every element left attached by [remove_all] was attached before and
    was not selected. *)
Lemma remove_all_others sel s n' :
  n' ∈ others (remove_all sel s) ->
  exists n, n ∈ others s /\ node_id n' = node_id n /\
            classes n' = classes n /\
            (attached n' = true -> attached n = true /\ Other (node_id n) ∉ sel).
Proof.
  revert s. induction sel as [|[|id] sel IH]; intros s Hin.
  - exists n'. split_and!; try done. intros Hatt. split; [done|].
    intros H. inversion H.
  - destruct (IH _ Hin) as (n & Hn & Hid & Hc & Ha).
    exists n. split_and!; try done. intros Hatt.
    destruct (Ha Hatt) as [Hattn Hsel]. split; [done|].
    intros H. apply elem_of_cons in H as [H|H]; [discriminate|done].
  - destruct (IH _ Hin) as (n1 & Hn1 & Hid & Hc & Ha). cbn in Hn1.
    apply list_elem_of_fmap in Hn1 as (n & -> & Hn).
    exists n. unfold detach, within in *.
    destruct (Nat.eqb_spec (node_id n) id) as [He|Hne]; cbn in *.
    + split_and!; try done. intros Hatt. destruct (Ha Hatt); discriminate.
    + destruct (existsb (Nat.eqb id) (ancestors n)); cbn in *.
      * split_and!; try done. intros Hatt. destruct (Ha Hatt); discriminate.
      * split_and!; try done. intros Hatt.
        destruct (Ha Hatt) as [Hattn Hsel]. split; [done|].
        intros H. apply elem_of_cons in H as [H|H]; [congruence|done].
Qed.

Lemma select_others c s n :
  n ∈ others s -> attached n = true -> has_class c (classes n) = true ->
  Other (node_id n) ∈ not_own (select c s).
Proof.
  intros Hn Ha Hc. apply not_own_spec. split; [|discriminate].
  unfold select. apply elem_of_app. right.
  apply list_elem_of_fmap. exists n. split; [done|].
  apply list_elem_of_In, List.filter_In. rewrite <- list_elem_of_In.
  split; [done|]. by rewrite Ha, Hc.
Qed.

Lemma build_panel_dom s :
  (forall n, n ∈ others (build_panel s) -> is_panel n = false) /\
  has_class "qcodes-output-view" (el_classes (build_panel s)) = true /\
  el_attached (build_panel s) = el_attached s.
Proof.
  unfold build_panel. cbn.
  set (s1 := set_interval (Some 0) s).
  set (sel := not_own (select "qcodes-output-view" s1)).
  split; [|split].
  - intros n' Hin.
    destruct (remove_all_others sel s1 n' Hin) as (n & Hn & _ & Hc & Ha).
    unfold is_panel. destruct (attached n') eqn:Hatt; [|done]. cbn.
    destruct (Ha eq_refl) as [Hatt_n Hsel]. rewrite Hc.
    destruct (has_class _ (classes n)) eqn:Hcls; [|done].
    exfalso. apply Hsel. by apply select_others.
  - unfold add_class.
    destruct (has_class _ (el_classes (remove_all sel s1))) eqn:Hc; [done|].
    unfold has_class. rewrite existsb_app. cbn. apply orb_true_r.
  - apply (remove_all_own sel s1). intros H%not_own_spec. by destruct H.
Qed.

Lemma subprocess_display_dom m s :
  qcodes_state s <> Some "minimized" ->
  others (subprocess_display m s) = others s /\
  el_classes (subprocess_display m s) = el_classes s /\
  el_attached (subprocess_display m s) = el_attached s.
Proof.
  intros H. unfold subprocess_display.
  change (qcodes_state (scroll_to_bottom s)) with (qcodes_state s).
  rewrite (bool_decide_eq_false_2 _ H).
  repeat split; frame.
Qed.

Lemma panel_part_dom s s' :
  panel_part s' = panel_part s ->
  others s' = others s /\ el_classes s' = el_classes s /\
  el_attached s' = el_attached s.
Proof. unfold panel_part. intros H. by simplify_eq. Qed.

Lemma filter_none {A} (f : A -> bool) (l : list A) :
  (forall x, x ∈ l -> f x = false) -> List.filter f l = [].
Proof.
  induction l as [|x l IH]; intros H; [done|]. cbn.
  rewrite (H x) by left. apply IH. intros y Hy. apply H. by right.
Qed.

(** C10, amended.  [SubprocessView.render] takes every element with
    class [qcodes-output-view] other than the view's own out of the
    document and gives the class to the view's own element, which it
    neither attaches nor detaches: after [render] the only panel the
    document can hold is the view's own, and it holds that one exactly
    when the view's element was in the document. *)
Theorem render_leaves_only_own_panel (s : State) :
  cls s = SubprocessView ->
  (forall n, n ∈ others (render s) -> attached n = true ->
             has_class "qcodes-output-view" (classes n) = false) /\
  has_class "qcodes-output-view" (el_classes (render s)) = true /\
  el_attached (render s) = el_attached s /\
  panels (render s) = (if el_attached s then [Own] else []).
Proof.
  intros Hc. unfold render. rewrite Hc.
  destruct (build_panel_dom s) as (Hothers & Hclass & Hatt).
  destruct (build_panel_state s) as (Hdocked & Hcls).
  assert (Hdom :
    others (update (build_panel s)) = others (build_panel s) /\
    el_classes (update (build_panel s)) = el_classes (build_panel s) /\
    el_attached (update (build_panel s)) = el_attached (build_panel s)).
  { unfold update.
    unfold display. rewrite Hcls, Hc.
    change (rendered (build_panel s)) with true. cbv iota.
    destruct (panel_part_dom _ _ (setInterval_panel_part None
      (subprocess_display (_message (model (build_panel s))) (build_panel s))))
      as (E1 & E2 & E3).
    rewrite E1, E2, E3.
    apply subprocess_display_dom. congruence. }
  destruct Hdom as (Ho & Hcl & Ha).
  assert (Hnone : forall n, n ∈ others (update (build_panel s)) ->
                            is_panel n = false)
    by (rewrite Ho; exact Hothers).
  split; [|split; [|split]].
  - intros n Hn Hattached. specialize (Hnone n Hn).
    unfold is_panel in Hnone. by rewrite Hattached in Hnone.
  - by rewrite Hcl.
  - by rewrite Ha.
  - unfold panels, select. rewrite Ha, Hcl, Hatt, Hclass, andb_true_r.
    rewrite (filter_none
      (fun n => attached n && has_class "qcodes-output-view" (classes n))
      _ Hnone). cbn.
    destruct (el_attached s); reflexivity.
Qed.

Lemma render_leaves_only_own_panel_witness :
  cls (new_panel true) = SubprocessView /\
  panels (new_panel true) = [Other 7] /\
  panels (render (new_panel true)) = [Own] /\
  panels (render (new_panel false)) = [] /\
  panels (step Attach (render (new_panel false))) = [Own].
Proof.
  destruct (render_leaves_only_own_panel (new_panel true) ltac:(reflexivity))
    as (_ & _ & _ & Hattached).
  destruct (render_leaves_only_own_panel (new_panel false) ltac:(reflexivity))
    as (_ & _ & _ & Hdetached).
  split; [reflexivity|]. split; [reflexivity|].
  split; [exact Hattached|]. split; [exact Hdetached|]. reflexivity.
Defined.

(** C10 as stated fails: rendered while its element is not yet in the
    document, the view removes the panel left on the page and the
    document then holds no panel at all. *)
Lemma render_detached_leaves_no_panel :
  cls (new_panel false) = SubprocessView /\
  el_attached (new_panel false) = false /\
  panels (new_panel false) = [Other 7] /\
  panels (render (new_panel false)) = [] /\
  length (panels (render (new_panel false))) <> 1%nat.
Proof. repeat split; try reflexivity. vm_compute. discriminate. Qed.

End WidgetFacts.

(* ================================================================== *)
(** * Properties of the notebook cells *)

Section NotebookFacts.

Import Notebook NotebookSpec.

(** ** Fuel *)

Lemma exec_stmt_extends rec rec' lib k s out :
  extends rec rec' ->
  exec_stmt rec lib k s = Some out -> exec_stmt rec' lib k s = Some out.
Proof.
  intros Hext.
  destruct s as [name|num name| |timer body|cond body|n body
                |body handler|body final]; cbn; try done.
  - destruct (rec k body) as [[[ev k'] r]|] eqn:E; [|done].
    by rewrite (Hext _ _ _ E).
  - destruct (lib k) as [[|]|e]; try done.
    destruct (rec (S k) _) as [[[ev k'] r]|] eqn:E; [|done].
    by rewrite (Hext _ _ _ E).
  - apply Hext.
  - destruct (rec k body) as [[[ev k'] [|e]]|] eqn:E; [| |done];
      rewrite (Hext _ _ _ E); [done|].
    destruct (rec k' handler) as [[[ev2 k2] r2]|] eqn:E2; [|done].
    by rewrite (Hext _ _ _ E2).
  - destruct (rec k body) as [[[ev k'] r]|] eqn:E; [|done].
    rewrite (Hext _ _ _ E).
    destruct (rec k' final) as [[[ev2 k2] r2]|] eqn:E2; [|done].
    by rewrite (Hext _ _ _ E2).
Qed.

Lemma exec_rest_extends rec rec' first rest out :
  extends rec rec' ->
  exec_rest rec first rest = Some out -> exec_rest rec' first rest = Some out.
Proof.
  intros Hext. destruct first as [[[ev k'] [|e]]|]; cbn; try done.
  destruct (rec k' rest) as [[[ev2 k2] r]|] eqn:E; [|done].
  by rewrite (Hext _ _ _ E).
Qed.

Lemma exec_S fuel lib : extends (exec fuel lib) (exec (S fuel) lib).
Proof.
  induction fuel as [|f IH]; intros k prog out H; [done|].
  destruct prog as [|s rest]; [exact H|].
  change (exec_rest (exec (S f) lib)
            (exec_stmt (exec (S f) lib) lib k s) rest = Some out).
  change (exec_rest (exec f lib)
            (exec_stmt (exec f lib) lib k s) rest = Some out) in H.
  destruct (exec_stmt (exec f lib) lib k s) as [first|] eqn:E; [|done].
  rewrite (exec_stmt_extends _ _ _ _ _ _ IH E).
  by apply (exec_rest_extends _ _ _ _ _ IH).
Qed.

(** More fuel changes no result. *)
Lemma exec_mono fuel fuel' lib :
  (fuel <= fuel')%nat -> extends (exec fuel lib) (exec fuel' lib).
Proof.
  induction 1 as [|f' _ IH]; [by intros k prog out|].
  intros k prog out H. by apply exec_S, IH.
Qed.

(** ** The polling loop *)

Lemma truthy_until_S lib k n :
  lib k = Returns true -> truthy_until lib (S k) n -> truthy_until lib k (S n).
Proof.
  intros Hk [Hlt Hn]. split.
  - intros [|m] Hm; [by rewrite Nat.add_0_r|].
    rewrite Nat.add_succ_r. apply (Hlt m). lia.
  - rewrite Nat.add_succ_r. exact Hn.
Qed.

Lemma truthy_until_inv lib k n :
  truthy_until lib k (S n) ->
  lib k = Returns true /\ truthy_until lib (S k) n.
Proof.
  intros [Hlt Hn]. split; [|split].
  - rewrite <- (Nat.add_0_r k). apply Hlt. lia.
  - intros m Hm. cbn. rewrite <- Nat.add_succ_r. apply Hlt. lia.
  - cbn. rewrite <- Nat.add_succ_r. exact Hn.
Qed.

(** Truthy [n] times, then falsy: the loop sleeps [n] times and ends. *)
Lemma loop_runs n : forall lib k,
  truthy_until lib k n ->
  exec (S (S (n + n))) lib k [sync_loop]
  = Some (loop_trace n, S (k + n), Normal).
Proof.
  induction n as [|n IH]; intros lib k H.
  - destruct H as [_ H]. rewrite (Nat.add_0_r k) in *.
    cbn. rewrite H. reflexivity.
  - apply truthy_until_inv in H as [Hk H].
    replace (S (S (S n + S n))) with (S (S (S (S (n + n))))) by lia.
    specialize (IH lib (S k) H).
    change (exec (S (S (S (S (n + n))))) lib k [sync_loop]) with
      (exec_rest (exec (S (S (S (n + n)))) lib)
         (exec_stmt (exec (S (S (S (n + n)))) lib) lib k sync_loop) []).
    unfold sync_loop at 1. cbn [exec_stmt]. rewrite Hk.
    change (exec (S (S (S (n + n)))) lib (S k) ([Sleep] ++ [While "data.sync()" [Sleep]]))
      with (exec_rest (exec (S (S (n + n))) lib)
              (Some ([Slept], S k, Normal)) [sync_loop]).
    cbn [exec_rest]. rewrite IH. cbn.
    rewrite app_nil_r, Nat.add_succ_r. reflexivity.
Qed.

(** However the loop ends, it ends on the first poll that is not
    truthy: a falsy one ends it normally, one that raises ends it with
    the exception. *)
Lemma loop_result fuel : forall lib k ev k' r,
  exec fuel lib k [sync_loop] = Some (ev, k', r) ->
  (exists n, truthy_until lib k n /\ ev = loop_trace n /\
             k' = S (k + n) /\ r = Normal) \/
  (exists n e, (forall m, (m < n)%nat -> lib (k + m)%nat = Returns true) /\
               lib (k + n)%nat = Raises e /\ r = Exception e).
Proof.
  induction fuel as [fuel IH] using lt_wf_ind. intros lib k ev k' r H.
  destruct fuel as [|f]; [discriminate|].
  change (exec_rest (exec f lib)
            (exec_stmt (exec f lib) lib k sync_loop) [] = Some (ev, k', r)) in H.
  unfold sync_loop at 1 in H. cbn [exec_stmt] in H.
  destruct (lib k) as [[|]|e] eqn:Hk.
  - (* truthy: sleep and poll again *)
    destruct f as [|f1]; [discriminate|].
    change (exec (S f1) lib (S k) ([Sleep] ++ [While "data.sync()" [Sleep]]))
      with (exec_rest (exec f1 lib) (Some ([Slept], S k, Normal)) [sync_loop])
      in H.
    cbn [exec_rest] in H.
    destruct (exec f1 lib (S k) [sync_loop]) as [[[ev2 k2] r2]|] eqn:E;
      [|discriminate].
    destruct (IH f1 ltac:(lia) lib (S k) ev2 k2 r2 E)
      as [(n & Hn & -> & -> & ->) | (n & e & Hlt & Hn & ->)].
    + left. exists (S n). cbn in H. injection H as <- <- <-.
      split; [by apply truthy_until_S|].
      rewrite app_nil_r, Nat.add_succ_r. done.
    + right. exists (S n), e. cbn in H. injection H as <- <- <-.
      split; [|split; [|done]].
      * intros [|m] Hm; [by rewrite Nat.add_0_r|].
        rewrite Nat.add_succ_r. apply (Hlt m). lia.
      * rewrite Nat.add_succ_r. exact Hn.
  - (* falsy: the loop ends *)
    left. exists 0%nat. cbn in H.
    destruct f as [|f1]; [discriminate|]. cbn in H. injection H as <- <- <-.
    split; [|by rewrite Nat.add_0_r].
    split; [intros m Hm; lia | by rewrite Nat.add_0_r].
  - (* the poll raises *)
    right. exists 0%nat, e. cbn in H. injection H as <- <- <-.
    split; [intros m Hm; lia|]. by rewrite Nat.add_0_r.
Qed.

(** A library that never raises and is falsy at some poll is truthy up
    to a first falsy poll. *)
Lemma first_falsy lib n : forall k,
  never_raises lib -> lib (k + n)%nat = Returns false ->
  exists n', truthy_until lib k n'.
Proof.
  induction n as [|n IH]; intros k Hnr H.
  - exists 0%nat. split; [intros m Hm; lia | exact H].
  - destruct (Hnr k) as [[|] Hk].
    + destruct (IH (S k) Hnr) as [n' Hn'].
      * by rewrite Nat.add_succ_r in H.
      * exists (S n'). by apply truthy_until_S.
    + exists 0%nat. split; [intros m Hm; lia | by rewrite Nat.add_0_r].
Qed.

(** Truthy for ever: no amount of fuel ends the loop. *)
Lemma loop_diverges fuel : forall lib k,
  (forall m, lib (k + m)%nat = Returns true) ->
  exec fuel lib k [sync_loop] = None.
Proof.
  induction fuel as [fuel IH] using lt_wf_ind. intros lib k H.
  destruct fuel as [|f]; [done|].
  change (exec_rest (exec f lib)
            (exec_stmt (exec f lib) lib k sync_loop) [] = None).
  unfold sync_loop at 1. cbn [exec_stmt].
  assert (Hk : lib k = Returns true)
    by (rewrite <- (Nat.add_0_r k); apply H).
  rewrite Hk.
  destruct f as [|f1]; [done|].
  change (exec (S f1) lib (S k) ([Sleep] ++ [While "data.sync()" [Sleep]]))
    with (exec_rest (exec f1 lib) (Some ([Slept], S k, Normal)) [sync_loop]).
  cbn [exec_rest]. rewrite IH; [done | lia |].
  intros m. cbn. rewrite <- Nat.add_succ_r. apply H.
Qed.

Lemma sleeps_loop_trace n : sleeps (loop_trace n) = n.
Proof. induction n as [|n IH]; [done|]. unfold sleeps in *. cbn. by rewrite IH. Qed.

(** ** C6 *)

(** C6.  [while data.sync(): time.sleep(0.1)] ends normally exactly when
    [data.sync()], having returned truthy values so far, returns a falsy
    one; with a [sync] that never raises the loop ends exactly when some
    poll is falsy.  Nothing bounds the iterations: truthy [n] times and
    then falsy, the loop sleeps [n] times, whatever [n]; truthy for ever,
    it never ends. *)
Theorem sync_loop_termination (lib : library) (k : nat) :
  ((exists fuel ev k', exec fuel lib k [sync_loop] = Some (ev, k', Normal))
   <-> exists n, truthy_until lib k n) /\
  (never_raises lib ->
   ((exists fuel out, exec fuel lib k [sync_loop] = Some out)
    <-> exists n, lib (k + n)%nat = Returns false)) /\
  (forall n, truthy_until lib k n ->
     exists fuel ev, exec fuel lib k [sync_loop] = Some (ev, S (k + n), Normal) /\
                     sleeps ev = n) /\
  ((forall m, lib (k + m)%nat = Returns true) ->
   forall fuel, exec fuel lib k [sync_loop] = None).
Proof.
  split; [|split; [|split]].
  - split.
    + intros (fuel & ev & k' & H).
      destruct (loop_result _ _ _ _ _ _ H)
        as [(n & Hn & _) | (n & e & _ & _ & [=])]. by exists n.
    + intros [n Hn]. eexists _, _, _. by apply loop_runs.
  - intros Hnr. split.
    + intros (fuel & [[ev k'] r] & H).
      destruct (loop_result _ _ _ _ _ _ H)
        as [(n & [_ Hn] & _) | (n & e & _ & Hn & _)].
      * by exists n.
      * destruct (Hnr (k + n)%nat) as [b Hb]. congruence.
    + intros [n Hn]. destruct (first_falsy lib n k Hnr Hn) as [n' Hn'].
      eexists _, _. by apply loop_runs.
  - intros n Hn. eexists _, _. split; [by apply loop_runs|].
    apply sleeps_loop_trace.
  - intros H fuel. by apply loop_diverges.
Qed.

Lemma sync_loop_termination_witness :
  never_raises (in_sync_after 7) /\
  truthy_until (in_sync_after 7) 4 3 /\
  (exists fuel ev, exec fuel (in_sync_after 7) 4 [sync_loop]
                   = Some (ev, 8%nat, Normal) /\ sleeps ev = 3%nat) /\
  forall fuel, exec fuel (fun _ => Returns true) 4 [sync_loop] = None.
Proof.
  assert (Hnr : never_raises (in_sync_after 7)) by (intros i; eexists; reflexivity).
  assert (Ht : truthy_until (in_sync_after 7) 4 3).
  { split; [|reflexivity].
    intros [|[|[|m]]] Hm; try reflexivity. lia. }
  destruct (sync_loop_termination (in_sync_after 7) 4) as (_ & _ & Hrun & _).
  destruct (sync_loop_termination (fun _ => Returns true) 4) as (_ & _ & _ & Hdiv).
  split; [exact Hnr|]. split; [exact Ht|]. split.
  - exact (Hrun 3%nat Ht).
  - apply Hdiv. reflexivity.
Defined.

(** ** Blocks without [try] *)

Lemma handler_free_cons s rest :
  handler_free (s :: rest) = handler_free_stmt s && handler_free rest.
Proof. reflexivity. Qed.

Lemma handler_free_app p1 p2 :
  handler_free (p1 ++ p2) = handler_free p1 && handler_free p2.
Proof. unfold handler_free. apply forallb_app. Qed.

Lemma handler_free_unrolled n body :
  handler_free body = true -> handler_free (concat (replicate n body)) = true.
Proof.
  intros H. induction n as [|n IH]; [done|].
  cbn [replicate concat]. by rewrite handler_free_app, H, IH.
Qed.

Lemma handler_free_loop cond body :
  handler_free body = true -> handler_free (body ++ [While cond body]) = true.
Proof.
  intros H. rewrite handler_free_app, H. cbn.
  change (forallb handler_free_stmt body) with (handler_free body).
  by rewrite H.
Qed.

(** ** How a run ends *)

Lemma raised_is_raise x e : raised x = Some e -> is_raise x = true.
Proof. by destruct x. Qed.

Lemma ends_well_cons x ev r :
  is_raise x = false -> ends_well ev r -> ends_well (x :: ev) r.
Proof.
  intros Hx. destruct r as [|e]; cbn.
  - by constructor.
  - intros (pre & c & post & -> & Hc & Hpre & Hpost).
    exists (x :: pre), c, post. split; [done|]. split; [done|].
    split; [by constructor | done].
Qed.

Lemma ends_well_app ev1 ev2 r :
  Forall (fun x => is_raise x = false) ev1 ->
  ends_well ev2 r -> ends_well (ev1 ++ ev2) r.
Proof.
  induction 1 as [|x ev1 Hx _ IH]; intros H; [done|].
  cbn. apply ends_well_cons; auto.
Qed.

Lemma timer_exit_prints timer :
  Forall (fun x => is_timer_print x = true) (timer_exit timer).
Proof.
  unfold timer_exit. destruct timer as [name|]; [destruct (JS.truthy name)|];
    repeat constructor.
Qed.

Lemma timer_print_no_raise l :
  Forall (fun x => is_timer_print x = true) l ->
  Forall (fun x => is_raise x = false) l.
Proof. intros H. eapply Forall_impl; [exact H|]. by intros []. Qed.

Lemma ends_well_with timer ev r :
  ends_well ev r -> ends_well (TimerEntered :: ev ++ timer_exit timer) r.
Proof.
  intros H. apply ends_well_cons; [done|]. destruct r as [|e]; cbn in *.
  - apply Forall_app. split; [done|].
    apply timer_print_no_raise, timer_exit_prints.
  - destruct H as (pre & c & post & -> & Hc & Hpre & Hpost).
    exists pre, c, (post ++ timer_exit timer).
    split; [by rewrite <- app_assoc|]. split; [done|]. split; [done|].
    apply Forall_app. split; [done | apply timer_exit_prints].
Qed.

Lemma exec_stmt_ends_well rec lib k s ev k' r :
  handler_free_stmt s = true ->
  (forall k p ev k' r, handler_free p = true ->
     rec k p = Some (ev, k', r) -> ends_well ev r) ->
  exec_stmt rec lib k s = Some (ev, k', r) -> ends_well ev r.
Proof.
  intros Hs Hrec.
  destruct s as [name|num name| |timer body|cond body|n body
                |body handler|body final]; cbn; try discriminate Hs.
  - unfold call. destruct (lib k) as [b|e]; intros [= <- <- <-]; cbn.
    + by repeat constructor.
    + exists [], (Raised name e), []. by repeat constructor.
  - unfold divide. destruct (lib k) as [[|]|e]; intros [= <- <- <-]; cbn.
    + by repeat constructor.
    + exists [Called name false], (Failed (num +:+ "/" +:+ name) "ZeroDivisionError"), [].
      by repeat constructor.
    + exists [], (Raised name e), []. by repeat constructor.
  - intros [= <- <- <-]. by repeat constructor.
  - destruct (rec k body) as [[[evb kb] rb]|] eqn:E; [|done].
    intros [= <- <- <-]. eapply ends_well_with, Hrec, E. exact Hs.
  - destruct (lib k) as [[|]|e].
    + destruct (rec (S k) _) as [[[evb kb] rb]|] eqn:E; [|done].
      intros [= <- <- <-]. apply ends_well_cons; [done|].
      eapply Hrec, E. by apply handler_free_loop.
    + intros [= <- <- <-]. by repeat constructor.
    + intros [= <- <- <-]. exists [], (Raised cond e), []. by repeat constructor.
  - apply Hrec. by apply handler_free_unrolled.
Qed.

Lemma ends_well_exec fuel : forall lib k prog ev k' r,
  handler_free prog = true ->
  exec fuel lib k prog = Some (ev, k', r) -> ends_well ev r.
Proof.
  induction fuel as [|f IH]; intros lib k prog ev k' r Hf H; [done|].
  destruct prog as [|s rest]; [injection H as <- <- <-; by constructor|].
  rewrite handler_free_cons in Hf. apply andb_prop in Hf as [Hs Hrest].
  change (exec_rest (exec f lib)
            (exec_stmt (exec f lib) lib k s) rest = Some (ev, k', r)) in H.
  destruct (exec_stmt (exec f lib) lib k s) as [[[ev1 k1] r1]|] eqn:E;
    [|done].
  apply exec_stmt_ends_well in E; [|exact Hs|intros; eapply IH; eassumption].
  destruct r1 as [|e]; cbn in H.
  - destruct (exec f lib k1 rest) as [[[ev2 k2] r2]|] eqn:E2; [|done].
    injection H as <- <- <-. apply ends_well_app; [exact E|].
    eapply IH, E2. exact Hrest.
  - injection H as <- <- <-. exact E.
Qed.

(** A run that ended well is cut in one way only at an event that
    raised. *)
Lemma ends_well_split ev r pre x e post :
  ends_well ev r -> ev = pre ++ x :: post -> raised x = Some e ->
  r = Exception e /\
  Forall (fun x => is_raise x = false) pre /\
  Forall (fun x => is_timer_print x = true) post.
Proof.
  intros H -> Hx. pose proof (raised_is_raise _ _ Hx) as Hrx.
  destruct r as [|e0]; cbn in H.
  - apply Forall_app in H as [_ H]. inversion H; congruence.
  - destruct H as (pre0 & x0 & post0 & Heq & Hx0 & Hpre0 & Hpost0).
    revert pre Heq. induction Hpre0 as [|y0 pre0 Hy0 _ IH]; intros pre Heq.
    + destruct pre as [|y pre]; cbn in Heq; injection Heq as Hy Ht.
      * subst x0 post0. split; [congruence | by split].
      * subst post0. apply Forall_app in Hpost0 as [_ Hp].
        apply timer_print_no_raise in Hp. inversion Hp; congruence.
    + destruct pre as [|y pre]; cbn in Heq; injection Heq as Hy Ht.
      * subst y0. congruence.
      * subst y0. destruct (IH pre Ht) as (He & Hpre & Hpost).
        split; [done|]. split; [by constructor | done].
Qed.

Lemma exec_stmt_all_returned rec lib k s ev k' r :
  handler_free_stmt s = true ->
  (forall k p ev k' r, handler_free p = true ->
     rec k p = Some (ev, k', r) -> all_returned lib k k' r) ->
  exec_stmt rec lib k s = Some (ev, k', r) -> all_returned lib k k' r.
Proof.
  intros Hs Hrec. unfold all_returned.
  destruct s as [name|num name| |timer body|cond body|n body
                |body handler|body final]; cbn; try discriminate Hs.
  - unfold call. destruct (lib k) as [b|e] eqn:Hk; intros [= <- <- <-].
    + split; [lia|]. intros _ i Hi. assert (i = k) as -> by lia. eauto.
    + split; [lia | done].
  - unfold divide. destruct (lib k) as [[|]|e] eqn:Hk; intros [= <- <- <-].
    + split; [lia|]. intros _ i Hi. assert (i = k) as -> by lia. eauto.
    + split; [lia | done].
    + split; [lia | done].
  - intros [= <- <- <-]. split; [lia|]. intros _ i Hi. lia.
  - destruct (rec k body) as [[[evb kb] rb]|] eqn:E; [|done].
    intros [= <- <- <-]. eapply Hrec, E. exact Hs.
  - destruct (lib k) as [[|]|e] eqn:Hk.
    + destruct (rec (S k) _) as [[[evb kb] rb]|] eqn:E; [|done].
      intros [= <- <- <-].
      destruct (Hrec _ _ _ _ _ (handler_free_loop cond body Hs) E) as [Hle Hret].
      split; [lia|]. intros Hn i Hi.
      destruct (decide (i = k)) as [->|Hne]; [eauto|]. apply Hret; [done | lia].
    + intros [= <- <- <-]. split; [lia|]. intros _ i Hi.
      assert (i = k) as -> by lia. eauto.
    + intros [= <- <- <-]. split; [lia | done].
  - apply Hrec. by apply handler_free_unrolled.
Qed.

Lemma exec_all_returned fuel : forall lib k prog ev k' r,
  handler_free prog = true ->
  exec fuel lib k prog = Some (ev, k', r) -> all_returned lib k k' r.
Proof.
  induction fuel as [|f IH]; intros lib k prog ev k' r Hf H; [done|].
  destruct prog as [|s rest].
  { injection H as <- <- <-. split; [lia|]. intros _ i Hi. lia. }
  rewrite handler_free_cons in Hf. apply andb_prop in Hf as [Hs Hrest].
  change (exec_rest (exec f lib)
            (exec_stmt (exec f lib) lib k s) rest = Some (ev, k', r)) in H.
  destruct (exec_stmt (exec f lib) lib k s) as [[[ev1 k1] r1]|] eqn:E;
    [|done].
  apply exec_stmt_all_returned in E; [|exact Hs|intros; eapply IH; eassumption].
  destruct r1 as [|e]; cbn in H.
  - destruct (exec f lib k1 rest) as [[[ev2 k2] r2]|] eqn:E2; [|done].
    injection H as <- <- <-. apply IH in E2; [|exact Hrest].
    destruct E as [Hle1 Hret1], E2 as [Hle2 Hret2].
    split; [lia|]. intros Hn i Hi.
    destruct (decide (i < k1)%nat); [apply Hret1 | apply Hret2]; auto; lia.
  - injection H as <- <- <-. exact E.
Qed.

(** An exception that ends a run without [try] comes from an event of
    the run. *)
Lemma exception_was_raised fuel lib k prog ev k' e :
  handler_free prog = true ->
  exec fuel lib k prog = Some (ev, k', Exception e) ->
  exists x, x ∈ ev /\ raised x = Some e.
Proof.
  intros Hf H. apply ends_well_exec in H; [|exact Hf].
  destruct H as (pre & x & post & -> & Hx & _).
  exists x. split; [|exact Hx]. apply elem_of_app. right. left.
Qed.

(** ** A cell in which an operation raises does end *)

Lemma size_stmt_pos s : (1 <= size_stmt s)%nat.
Proof. destruct s; cbn; lia. Qed.

Lemma size_cons s rest : size (s :: rest) = (size_stmt s + size rest)%nat.
Proof. reflexivity. Qed.

Lemma size_unrolled n body :
  size (concat (replicate n body)) = (n * size body)%nat.
Proof.
  induction n as [|n IH]; [done|]. cbn [replicate concat].
  unfold size in *. rewrite map_app, list_sum_app, IH. lia.
Qed.

Lemma terminates_nil lib k : terminates lib k [].
Proof. by exists 1%nat, ([], k, Normal). Qed.

(** The first statement has run with fuel [f]; if it ended normally and
    the rest ends from there, the block ends. *)
Lemma terminates_cons f lib k s rest ev k1 r1 :
  exec_stmt (exec f lib) lib k s = Some (ev, k1, r1) ->
  (r1 = Normal -> terminates lib k1 rest) ->
  terminates lib k (s :: rest).
Proof.
  intros Hs Hrest. destruct r1 as [|e].
  - destruct (Hrest eq_refl) as (f2 & [[ev2 k2] r2] & H2).
    exists (S (f `max` f2)), (ev ++ ev2, k2, r2).
    change (exec_rest (exec (f `max` f2) lib)
              (exec_stmt (exec (f `max` f2) lib) lib k s) rest
            = Some (ev ++ ev2, k2, r2)).
    rewrite (exec_stmt_extends _ _ _ _ _ _
               (exec_mono f (f `max` f2) lib ltac:(lia)) Hs).
    cbn. by rewrite (exec_mono f2 (f `max` f2) lib ltac:(lia) _ _ _ H2).
  - exists (S f), (ev, k1, Exception e).
    change (exec_rest (exec f lib) (exec_stmt (exec f lib) lib k s) rest
            = Some (ev, k1, Exception e)).
    by rewrite Hs.
Qed.

(** Past operations that returned, the one that raises is still ahead. *)
Lemma raises_within_later lib k k1 d :
  raises_within lib k d -> all_returned lib k k1 Normal ->
  raises_within lib k1 (d - (k1 - k)).
Proof.
  intros (j & e & Hj & He) [Hle Hret]. exists j, e. split; [|done].
  destruct (decide (j < k1)%nat) as [Hlt|Hge]; [|lia].
  destruct (Hret eq_refl j ltac:(lia)) as [b Hb]. congruence.
Qed.

Lemma exec_terminates lib d : forall sz prog k,
  handler_free prog = true ->
  (size prog <= sz)%nat -> raises_within lib k d -> terminates lib k prog.
Proof.
  induction d as [|d IHd].
  { intros sz prog k _ _ (j & e & Hj & _). lia. }
  induction sz as [|sz IHsz]; intros prog k Hf Hsz Hr.
  { destruct prog as [|s rest]; [apply terminates_nil|].
    rewrite size_cons in Hsz. pose proof (size_stmt_pos s). lia. }
  destruct prog as [|s rest]; [apply terminates_nil|].
  rewrite handler_free_cons in Hf. apply andb_prop in Hf as [Hs Hfrest].
  rewrite size_cons in Hsz. pose proof (size_stmt_pos s) as Hpos.
  (* the rest, once the first statement has ended normally at [k1] *)
  assert (Hrest : forall k1, all_returned lib k k1 Normal ->
                             terminates lib k1 rest).
  { intros k1 Hret. pose proof (raises_within_later _ _ _ _ Hr Hret) as Hr1.
    destruct Hret as [Hle _].
    destruct (decide (k1 = k)) as [->|Hne].
    - apply (IHsz rest k); [exact Hfrest | lia | exact Hr].
    - apply (IHd (size rest) rest k1); [exact Hfrest | lia |].
      destruct Hr1 as (j & e & Hj & He). exists j, e. split; [lia | done]. }
  destruct s as [name|num name| |timer body|cond body|n body
                |body handler|body final]; try discriminate Hs.
  - (* a call into the library *)
    apply (terminates_cons 0 lib k (Op name) rest
             (fst (fst (call name lib k))) (snd (fst (call name lib k)))
             (snd (call name lib k))).
    + cbn. by destruct (call name lib k) as [[? ?] ?].
    + intros Hn. apply Hrest.
      apply (exec_stmt_all_returned (fun _ _ => None) lib k (Op name)
               (fst (fst (call name lib k)))); [done|done|].
      cbn. destruct (call name lib k) as [[? ?] ?]. cbn in *. by subst.
  - (* a division by what a call returns *)
    apply (terminates_cons 0 lib k (Divide num name) rest
             (fst (fst (divide num name lib k)))
             (snd (fst (divide num name lib k)))
             (snd (divide num name lib k))).
    + cbn. by destruct (divide num name lib k) as [[? ?] ?].
    + intros Hn. apply Hrest.
      apply (exec_stmt_all_returned (fun _ _ => None) lib k (Divide num name)
               (fst (fst (divide num name lib k)))); [done|done|].
      cbn. destruct (divide num name lib k) as [[? ?] ?]. cbn in *. by subst.
  - (* sleep *)
    apply (terminates_cons 0 lib k Sleep rest [Slept] k Normal); [done|].
    intros _. apply Hrest. split; [lia|]. intros _ i Hi. lia.
  - (* with Timer(...) *)
    cbn in Hsz.
    destruct (IHsz body k Hs ltac:(unfold size; lia) Hr)
      as (f & [[evb kb] rb] & Hb).
    apply (terminates_cons f lib k (With timer body) rest
             (TimerEntered :: evb ++ timer_exit timer) kb rb).
    + cbn. by rewrite Hb.
    + intros ->. apply Hrest. eapply exec_all_returned, Hb. exact Hs.
  - (* while *)
    destruct (lib k) as [[|]|e] eqn:Hk.
    + assert (Hr1 : raises_within lib (S k) d).
      { destruct Hr as (j & e & Hj & He). exists j, e. split; [|done].
        destruct (decide (j = k)) as [->|]; [congruence | lia]. }
      destruct (IHd _ (body ++ [While cond body]) (S k)
                  (handler_free_loop cond body Hs) (le_n _) Hr1)
        as (f & [[evb kb] rb] & Hb).
      apply (terminates_cons f lib k (While cond body) rest
               (Called cond true :: evb) kb rb).
      * cbn. by rewrite Hk, Hb.
      * intros ->. apply Hrest.
        apply (exec_stmt_all_returned (exec f lib) lib k (While cond body)
                 (Called cond true :: evb)); [exact Hs| |].
        -- intros. eapply exec_all_returned; eassumption.
        -- cbn. by rewrite Hk, Hb.
    + apply (terminates_cons 0 lib k (While cond body) rest
               [Called cond false] (S k) Normal).
      * cbn. by rewrite Hk.
      * intros _. apply Hrest. split; [lia|]. intros _ i Hi.
        assert (i = k) as -> by lia. eauto.
    + apply (terminates_cons 0 lib k (While cond body) rest
               [Raised cond e] (S k) (Exception e)); [|done].
      cbn. by rewrite Hk.
  - (* for ... in range(n) *)
    cbn in Hsz.
    destruct (IHsz (concat (replicate n body)) k
                (handler_free_unrolled n body Hs)
                ltac:(rewrite size_unrolled; unfold size; lia) Hr)
      as (f & [[evb kb] rb] & Hb).
    apply (terminates_cons f lib k (For n body) rest evb kb rb).
    + exact Hb.
    + intros ->. apply Hrest. eapply exec_all_returned, Hb.
      by apply handler_free_unrolled.
Qed.

(** A cell without [try] lets exceptions through. *)
Lemma lets_through (cell : list stmt) :
  handler_free cell = true -> lets_exceptions_through cell.
Proof.
  intros Hf lib. split; [|split].
  - intros fuel ev k r pre x e post H Heq Hx.
    eapply ends_well_split; [eapply ends_well_exec, H; exact Hf | exact Heq | exact Hx].
  - intros fuel ev k e. by apply exception_was_raised.
  - intros j e Hj.
    destruct (exec_terminates lib (S j) (size cell) cell 0 Hf (le_n _))
      as (fuel & [[ev k] r] & H).
    + exists j, e. split; [lia | done].
    + by exists fuel, ev, k, r.
Qed.

(** A cell with a handler does not: the call fails once, the handler
    runs the call again, and the cell ends normally. *)
Lemma guarded_cell_recovers :
  handler_free guarded_cell = false /\
  exec 3 fails_once 0 guarded_cell
  = Some ([Raised "station1.measure()" "VisaIOError";
           Called "station1.measure()" true], 2%nat, Normal) /\
  ~ lets_exceptions_through guarded_cell.
Proof.
  split; [reflexivity|]. split; [reflexivity|].
  intros H. destruct (H fails_once) as (Hsplit & _ & _).
  destruct (Hsplit 3%nat _ 2%nat Normal []
              (Raised "station1.measure()" "VisaIOError") "VisaIOError"
              [Called "station1.measure()" true] eq_refl eq_refl eq_refl)
    as [Hr _].
  discriminate Hr.
Qed.

(** In the Keysight notebook the division by a time base that reads
    zero raises, and [acquire_sample_rate] is not called. *)
Lemma zero_timebase_ends_cell :
  exec 4 zero_timebase 0 cell_sample_rate
  = Some ([Called "mso.acquire_points(nPoints)" true;
           Called "mso.timebase_range()" false;
           Failed "nPoints/mso.timebase_range()" "ZeroDivisionError"],
          2%nat, Exception "ZeroDivisionError").
Proof. reflexivity. Qed.

(** ** C7 *)

(** C7.  No cell of either notebook contains a [try]: nothing in the
    notebooks handles an exception, retries, or cleans up after one.  So,
    whatever the library does, a call that raises ends its cell with that
    exception, which reaches the top level of the cell: nothing had
    raised before it, no statement of the cell and no second attempt
    follows it, and the cell does end.  All that runs on the way is
    [Timer.__exit__] of the [with] blocks around the call, which prints
    the timer's name and the elapsed time and lets the exception pass.
    The same holds of the one exception the notebooks can raise
    themselves, the division in the Keysight notebook. *)
Theorem notebooks_let_exceptions_through :
  Forall (fun cell => handler_free cell = true /\ lets_exceptions_through cell)
         notebooks.
Proof.
  assert (H : Forall (fun cell => handler_free cell = true) notebooks)
    by (repeat constructor).
  eapply Forall_impl; [exact H|].
  intros cell Hf. split; [exact Hf | by apply lets_through].
Qed.

Lemma notebooks_let_exceptions_through_witness :
  cell_timed_loops ∈ notebooks /\
  handler_free cell_timed_loops = true /\
  exists fuel post,
    exec fuel fails_at_run 0 cell_timed_loops
    = Some ([TimerEntered;
             Called "k1.volt[-5:5:1]" true;
             Called "qc.Loop(..., 0)" true;
             Called ".each(a1.volt)" true;
             Raised ".run(location='testsweep', overwrite=True, background=False)"
                    "VisaIOError"]
            ++ post, 4%nat, Exception "VisaIOError") /\
    post = [Printed "[Time Loop 1]"; PrintedElapsed] /\
    Forall (fun x => is_timer_print x = true) post.
Proof.
  assert (Hin : cell_timed_loops ∈ notebooks)
    by (unfold notebooks, ithaco_notebook; set_solver).
  split; [exact Hin|].
  destruct (proj1 (Forall_forall _ _) notebooks_let_exceptions_through
              cell_timed_loops Hin) as [Hfree Hlets].
  split; [exact Hfree|].
  destruct (Hlets fails_at_run) as (Hsplit & _ & _).
  exists 7%nat, [Printed "[Time Loop 1]"; PrintedElapsed].
  split; [reflexivity|]. split; [reflexivity|].
  eapply (Hsplit 7%nat _ 4%nat (Exception "VisaIOError")
            [TimerEntered; Called "k1.volt[-5:5:1]" true;
             Called "qc.Loop(..., 0)" true; Called ".each(a1.volt)" true]
            (Raised ".run(location='testsweep', overwrite=True, background=False)"
                    "VisaIOError") "VisaIOError");
    reflexivity.
Defined.

End NotebookFacts.

(* ================================================================== *)
(** * Properties of the sweep entry point *)

Section SweepFacts.

Import Sweep SweepSpec.

Context {world : Type}.

Lemma settings_length (p : Settable world) values w :
  length (settings p values w) = length values.
Proof.
  revert w. induction values as [|v values IH]; intros w; [done|].
  cbn. by rewrite IH.
Qed.

Lemma columns_length_from (ps : list (Gettable world)) : forall i,
  length (concat (imap (fun j g => map (fun o => ((i + j)%nat, fst o, snd o))
                                       (outputs g)) ps))
  = list_sum (map (fun g => length (outputs g)) ps).
Proof.
  induction ps as [|g ps IH]; intros i; [done|].
  cbn. rewrite length_app, length_map. f_equal.
  etransitivity; [|apply (IH (S i))]. f_equal. f_equal.
  apply imap_ext. intros j g' _. cbn.
  by rewrite Nat.add_succ_r.
Qed.

Lemma columns_length (ps : list (Gettable world)) :
  length (columns ps) = list_sum (map (fun g => length (outputs g)) ps).
Proof. apply (columns_length_from ps 0). Qed.

Lemma single_valued_sum (ps : list (Gettable world)) :
  Forall (fun g => length (outputs g) = 1%nat) ps ->
  list_sum (map (fun g => length (outputs g)) ps) = length ps.
Proof.
  induction 1 as [|g ps Hg _ IH]; [done|].
  change (length (outputs g)
          + list_sum (map (fun g => length (outputs g)) ps)
          = S (length ps))%nat.
  by rewrite Hg, IH.
Qed.

(** The bench at the [i]-th setting is the one reached by setting the
    first [i + 1] set points in turn. *)
Lemma settings_lookup (p : Settable world) values : forall i w,
  (i < length values)%nat ->
  settings p values w !! i = Some (bench_after p values i w).
Proof.
  induction values as [|v values IH]; intros i w Hi; [cbn in Hi; lia|].
  destruct i as [|i]; [reflexivity|].
  cbn in Hi.
  change (settings p values (set p v w) !! i
          = Some (bench_after p values i (set p v w))).
  apply IH. lia.
Qed.

(** Parameters that read one value each fill one column each, in the
    order of [each(...)]. *)
Lemma columns_single_from (ps : list (Gettable world)) : forall off j g,
  Forall (fun g => length (outputs g) = 1%nat) ps ->
  ps !! j = Some g ->
  exists name read,
    outputs g = [(name, read)] /\
    concat (imap (fun i g => map (fun o => ((off + i)%nat, fst o, snd o))
                                 (outputs g)) ps) !! j
    = Some ((off + j)%nat, name, read).
Proof.
  induction ps as [|g0 ps IH]; intros off j g Hone Hj; [done|].
  inversion Hone as [|? ? Hg0 Hps]; subst.
  destruct (outputs g0) as [|[n0 r0] [|? ?]] eqn:Ho; try discriminate Hg0.
  cbn [imap concat]. rewrite Ho. cbn [map app fst snd].
  destruct j as [|j].
  - injection Hj as <-. exists n0, r0. split; [exact Ho | reflexivity].
  - cbn in Hj. destruct (IH (S off) j g Hps Hj) as (name & read & Hg & Hl).
    exists name, read. split; [exact Hg|].
    cbn [lookup list_lookup].
    rewrite Nat.add_succ_r. etransitivity; [|exact Hl]. f_equal. f_equal.
    apply imap_ext. intros i g' _. cbn. by rewrite Nat.add_succ_r.
Qed.

Lemma columns_single (ps : list (Gettable world)) j g :
  Forall (fun g => length (outputs g) = 1%nat) ps ->
  ps !! j = Some g ->
  exists name read,
    outputs g = [(name, read)] /\ columns ps !! j = Some (j, name, read).
Proof. apply (columns_single_from ps 0). Qed.

(** ** C1 *)

(** C1.  A sweep records one reading of every measured value at each
    setting.  The first array holds the set points; for each value read
    there is one more array, and its entry [i] is what the parameter
    reads on the bench once the set points up to the [i]-th have been
    set in turn; so every array is as long as the list of set points.
    When each parameter given to [each] reads a single value, the
    [j]-th parameter fills the array after the [j]-th.  For
    [Loop(k1.volt[-5:5:1], 0).each(a1.volt, a2.volt)], whatever the
    instruments do, the arrays are [volt_set], [volt_0] and [volt_1],
    each of length 10; [volt_set] is -5, -4, ..., 4, and [volt_0] and
    [volt_1] hold the readings of the first and of the second parameter
    at these ten settings. *)
Theorem sweep_records_every_setting
    (p : Settable world) (values : list Z) (d : Z)
    (ps : list (Gettable world)) (w : world) :
  let data := sweep_arrays (each ps (new_loop p values d)) w in
  (forall loc default store, exists store' ds,
     run (each ps (new_loop p values d)) loc true default store w
     = Some (store', ds) /\ arrays ds = data) /\
  Forall (fun a => length (snd a) = length values) data /\
  head data = Some (set_name p +:+ "_set", map inject_Z values) /\
  length data = S (length (columns ps)) /\
  (forall j c, columns ps !! j = Some c ->
     exists readings,
       data !! S j = Some (array_name (columns ps) c, readings) /\
       forall i, (i < length values)%nat ->
         readings !! i = Some (snd c (bench_after p values i w))) /\
  (Forall (fun g => length (outputs g) = 1%nat) ps ->
   length data = S (length ps) /\
   forall j g, ps !! j = Some g ->
     exists name read readings,
       outputs g = [(name, read)] /\
       data !! S j = Some (array_name (columns ps) (j, name, read), readings) /\
       forall i, (i < length values)%nat ->
         readings !! i = Some (read (bench_after p values i w))) /\
  (forall (set_volt : Z -> world -> world) (read1 read2 : world -> Q),
     p = {| set_name := "volt"; set := set_volt |} ->
     values = slice (-5) 5 1 ->
     ps = [ {| outputs := [("volt", read1)] |};
            {| outputs := [("volt", read2)] |} ] ->
     map fst data = ["volt_set"; "volt_0"; "volt_1"] /\
     Forall (fun a => length (snd a) = 10%nat) data /\
     data !! 0%nat
     = Some ("volt_set",
             map inject_Z [-5; -4; -3; -2; -1; 0; 1; 2; 3; 4]) /\
     exists readings1 readings2,
       data !! 1%nat = Some ("volt_0", readings1) /\
       data !! 2%nat = Some ("volt_1", readings2) /\
       forall i, (i < 10)%nat ->
         readings1 !! i = Some (read1 (bench_after p values i w)) /\
         readings2 !! i = Some (read2 (bench_after p values i w))).
Proof.
  intros data.
  assert (Hlen : Forall (fun a => length (snd a) = length values) data).
  { subst data. unfold sweep_arrays. cbn. constructor.
    - cbn. apply length_map.
    - apply Forall_forall. intros a Ha.
      apply list_elem_of_fmap in Ha as (c & -> & _). cbn.
      by rewrite length_map, settings_length. }
  assert (Hcount : length data = S (length (columns ps))).
  { subst data. unfold sweep_arrays. cbn. by rewrite length_map. }
  assert (Hcol : forall j c, columns ps !! j = Some c ->
     exists readings,
       data !! S j = Some (array_name (columns ps) c, readings) /\
       forall i, (i < length values)%nat ->
         readings !! i = Some (snd c (bench_after p values i w))).
  { intros j c Hc. exists (map (snd c) (settings p values w)). split.
    - subst data. unfold sweep_arrays. cbn -[columns array_name].
      etransitivity; [apply list_lookup_fmap|]. by rewrite Hc.
    - intros i Hi. etransitivity; [apply list_lookup_fmap|].
      by rewrite settings_lookup.
  }
  assert (Hpar : Forall (fun g => length (outputs g) = 1%nat) ps ->
     forall j g, ps !! j = Some g ->
     exists name read readings,
       outputs g = [(name, read)] /\
       data !! S j = Some (array_name (columns ps) (j, name, read), readings) /\
       forall i, (i < length values)%nat ->
         readings !! i = Some (read (bench_after p values i w))).
  { intros Hone j g Hg.
    destruct (columns_single ps j g Hone Hg) as (name & read & Ho & Hc).
    destruct (Hcol j _ Hc) as (readings & Hd & Hr).
    by exists name, read, readings. }
  split; [intros loc default store; by eexists _, _|].
  split; [exact Hlen|]. split; [reflexivity|]. split; [exact Hcount|].
  split; [exact Hcol|]. split.
  - intros Hone. split; [|by apply Hpar].
    by rewrite Hcount, columns_length, single_valued_sum.
  - intros set_volt read1 read2 Hp Hv Hps. split; [|split; [|split]].
    + subst data. rewrite Hp, Hps. reflexivity.
    + rewrite Hv in Hlen. exact Hlen.
    + subst data. rewrite Hp, Hv. reflexivity.
    + assert (Hone : Forall (fun g => length (outputs g) = 1%nat) ps)
        by (rewrite Hps; repeat constructor).
      assert (Hten : length values = 10%nat) by (by rewrite Hv).
      destruct (Hpar Hone 0%nat {| outputs := [("volt", read1)] |}
                  ltac:(by rewrite Hps))
        as (n1 & r1 & readings1 & [= <- <-] & Hd1 & Hr1).
      destruct (Hpar Hone 1%nat {| outputs := [("volt", read2)] |}
                  ltac:(by rewrite Hps))
        as (n2 & r2 & readings2 & [= <- <-] & Hd2 & Hr2).
      exists readings1, readings2. split; [|split].
      * rewrite Hd1, Hps. reflexivity.
      * rewrite Hd2, Hps. reflexivity.
      * intros i Hi. split; [apply Hr1 | apply Hr2]; lia.
Qed.

(** ** C4 *)

(** C4.  A call of [run] with a location given produces, whenever it
    produces a data set, one whose location is the one given and which
    is persisted under it; with [overwrite=True] it always produces
    one. *)
Theorem run_keys_dataset_by_location
    (lp : Loop world) (loc default : string)
    (store : gmap string DataSet) (w : world) :
  (exists store' data,
     run lp (Some loc) true default store w = Some (store', data)) /\
  (forall overwrite store' data,
     run lp (Some loc) overwrite default store w = Some (store', data) ->
     location data = loc /\ store' !! loc = Some data).
Proof.
  split; [by eexists _, _|].
  intros overwrite store' data. unfold run.
  destruct (negb overwrite && _); [done|].
  intros [= <- <-]. split; [done|]. apply lookup_insert_eq.
Qed.

End SweepFacts.

Section SweepWitnesses.

Import Sweep SweepSpec.

Lemma sweep_records_every_setting_witness :
  map fst (sweep_arrays two_meter_sweep 0)
  = ["volt_set"; "volt_0"; "volt_1"] /\
  Forall (fun a => length (snd a) = 10%nat)
         (sweep_arrays two_meter_sweep 0) /\
  length (sweep_arrays two_meter_sweep 0) = 3%nat /\
  bench_after k1_volt (slice (-5) 5 1) 3 0 = -2 /\
  (exists readings1 readings2,
     sweep_arrays two_meter_sweep 0 !! 1%nat = Some ("volt_0", readings1) /\
     sweep_arrays two_meter_sweep 0 !! 2%nat = Some ("volt_1", readings2) /\
     readings1 !! 3%nat = Some (inject_Z 2) /\
     readings2 !! 3%nat = Some (inject_Z (-2))) /\
  sweep_arrays two_meter_sweep 0
  = [("volt_set", map inject_Z [-5; -4; -3; -2; -1; 0; 1; 2; 3; 4]);
     ("volt_0", map inject_Z [5; 4; 3; 2; 1; 0; -1; -2; -3; -4]);
     ("volt_1", map inject_Z [-5; -4; -3; -2; -1; 0; 1; 2; 3; 4])].
Proof.
  destruct (sweep_records_every_setting k1_volt
              (slice (-5) 5 1) 0
              [a1_volt; a2_volt] 0)
    as (_ & _ & _ & _ & _ & Hone & Hinst).
  destruct (Hinst (fun v _ => v) (fun w => inject_Z (- w)) inject_Z
              ltac:(reflexivity) ltac:(reflexivity) ltac:(reflexivity))
    as (Hnames & Hten & _ & readings1 & readings2 & Hd1 & Hd2 & Hread).
  split; [exact Hnames|]. split; [exact Hten|].
  split; [apply Hone; repeat constructor|].
  split; [reflexivity|].
  split; [|reflexivity].
  exists readings1, readings2.
  split; [exact Hd1|]. split; [exact Hd2|].
  exact (Hread 3%nat ltac:(lia)).
Defined.

Lemma run_keys_dataset_by_location_witness :
  exists store' data,
    run two_meter_sweep (Some "testsweep") true "data/#001"
      ∅ 0 = Some (store', data) /\
    location data = "testsweep" /\
    store' !! "testsweep" = Some data.
Proof.
  destruct (run_keys_dataset_by_location two_meter_sweep
              "testsweep" "data/#001" ∅ 0) as [(store' & data & Hrun) Hkey].
  exists store', data. split; [exact Hrun|]. exact (Hkey true store' data Hrun).
Defined.

End SweepWitnesses.

(* ================================================================== *)
(** * Further properties of the widget script *)

Section WidgetExtras.

Import Widget WidgetSpec WidgetMore.

Ltac frame' :=
  unfold subprocess_display, js_state_click, on_resize, clear_click,
    abort_click, send, scroll_to_bottom, scroll_to;
  try rewrite state_of_class_className;
  repeat case_match; reflexivity.

(** ** What the timer operations leave alone, continued *)

Lemma setInterval_rest arg s :
  hidden (setInterval arg s) = hidden s /\
  abort_disabled (setInterval arg s) = abort_disabled s /\
  subprocessList (setInterval arg s) = subprocessList s /\
  scrollTop (setInterval arg s) = scrollTop s /\
  sent (setInterval arg s) = sent s.
Proof.
  unfold setInterval, clear_updater, clearInterval, start_timer.
  repeat case_match; repeat split.
Qed.

Lemma clear_updater_hidden s : hidden (clear_updater s) = hidden s.
Proof. unfold clear_updater, clearInterval. case_match; reflexivity. Qed.

Lemma panel_part_fields s s' :
  panel_part s' = panel_part s ->
  cls s' = cls s /\ rendered s' = rendered s /\
  outputArea s' = outputArea s /\ clear_disabled s' = clear_disabled s /\
  innerHTML s' = innerHTML s /\ qcodes_state s' = qcodes_state s /\
  css_left s' = css_left s /\ css_top s' = css_top s /\
  draggable s' = draggable s.
Proof. unfold panel_part. intros H. by simplify_eq. Qed.

Lemma subprocess_display_cls m s :
  cls (subprocess_display m s) = cls s /\
  rendered (subprocess_display m s) = rendered s.
Proof. split; frame'. Qed.

Lemma display_cls m s s' :
  display m s = Some s' -> cls s' = cls s /\ rendered s' = rendered s.
Proof.
  unfold display. destruct (cls s) eqn:Hc; [| |destruct (rendered s) eqn:Hr];
    intros [= <-]; try done.
  destruct (subprocess_display_cls m s) as [-> ->]. done.
Qed.

Lemma update_cls s : cls (update s) = cls s /\ rendered (update s) = rendered s.
Proof.
  unfold update. destruct (display _ s) as [s'|] eqn:Hd; [|done].
  destruct (panel_part_fields _ _ (setInterval_panel_part None s'))
    as (Hc & Hr & _).
  destruct (display_cls _ _ _ Hd). split; congruence.
Qed.

Lemma build_panel_fields s :
  cls (build_panel s) = cls s /\ rendered (build_panel s) = true /\
  outputArea (build_panel s) = [] /\ clear_disabled (build_panel s) = true /\
  qcodes_state (build_panel s) = Some "docked".
Proof.
  destruct (build_panel_state s) as [Hd Hc]. by repeat split.
Qed.

Lemma render_cls s : cls (render s) = cls s.
Proof.
  unfold render. destruct (cls s) eqn:Hc.
  - destruct (update_cls (set_interval (Some 0) s)) as [H _]. by rewrite H.
  - destruct (update_cls (set_interval (Some 0) s)) as [H _]. by rewrite H.
  - destruct (update_cls (build_panel s)) as [H _].
    destruct (build_panel_fields s) as [H' _]. congruence.
Qed.

Lemma step_cls e s : cls (step e s) = cls s.
Proof.
  destruct e; cbn.
  - apply render_cls.
  - apply update_cls.
  - apply (panel_part_fields _ _ (setInterval_panel_part arg s)).
  - apply (panel_part_fields _ _ (clear_updater_panel_part s)).
  - unfold tick. destruct (is_active id s); [|done].
    apply (panel_part_fields _ _ (poll_panel_part s)).
  - destruct (rendered s); [frame' | done].
  - destruct (rendered s); done.
  - destruct (rendered s); done.
  - destruct (rendered _); [frame' | done].
  - destruct (draggable s); done.
  - done.
  - done.
  - done.
Qed.

Lemma run_cls evs s : cls (run evs s) = cls s.
Proof.
  revert s. induction evs as [|e evs IH]; intros s; [done|].
  change (run (e :: evs) s) with (run evs (step e s)).
  by rewrite IH, step_cls.
Qed.

(** ** Who sends what *)

Lemma update_sent s : sent (update s) = sent s.
Proof.
  unfold update. destruct (display _ s) as [s'|] eqn:Hd; [|done].
  destruct (setInterval_rest None s') as (_ & _ & _ & _ & ->).
  apply (timer_part_eq _ _ (display_timer_part _ _ _ Hd)).
Qed.

Lemma render_sent s : sent (render s) = sent s.
Proof.
  unfold render.
  destruct (cls s); rewrite update_sent; try done.
  apply build_panel_timers.
Qed.

(** Only a timer that comes due sends an update message, only the Abort
    button sends an abort message, and nothing else sends anything:
    whatever happens, the messages sent so far stay, in their order. *)
Theorem only_ticks_and_abort_send (e : event) (s : State) :
  (sent (step e s) = sent s \/
   (exists id, e = Tick id /\ is_active id s = true /\
               sent (step e s) = sent s ++ [MyUpdate]) \/
   (e = ClickAbort /\ rendered s = true /\
    sent (step e s) = sent s ++ [Abort])) /\
  (forall evs, exists more, sent (run evs s) = sent s ++ more).
Proof.
  assert (Hstep : forall e s,
    sent (step e s) = sent s \/
    (exists id, e = Tick id /\ is_active id s = true /\
                sent (step e s) = sent s ++ [MyUpdate]) \/
    (e = ClickAbort /\ rendered s = true /\
     sent (step e s) = sent s ++ [Abort])).
  { clear. intros e s. destruct e; cbn.
    - left. apply render_sent.
    - left. apply update_sent.
    - left. apply setInterval_rest.
    - left. apply clear_updater_rest.
    - unfold tick. destruct (is_active id s) eqn:Ha; [|by left].
      right. left. exists id. split; [done|]. split; [done|].
      unfold poll. destruct (comm_live _); [done|].
      apply (clear_updater_rest (send MyUpdate s)).
    - left. destruct (rendered s); [frame' | done].
    - left. destruct (rendered s); done.
    - destruct (rendered s) eqn:Hr; [|by left]. right. right. done.
    - left. destruct (rendered _); [frame' | done].
    - left. destruct (draggable s); done.
    - by left.
    - by left.
    - by left. }
  split; [apply Hstep|].
  intros evs. revert s. induction evs as [|e' evs IH]; intros s.
  - exists []. by rewrite app_nil_r.
  - change (run (e' :: evs) s) with (run evs (step e' s)).
    destruct (IH (step e' s)) as [more ->].
    destruct (Hstep e' s) as [-> | [(id & _ & _ & ->) | (_ & _ & ->)]].
    + by exists more.
    + exists (MyUpdate :: more). by rewrite <- app_assoc.
    + exists (Abort :: more). by rewrite <- app_assoc.
Qed.

(** ** The Clear button *)

Lemma subprocess_display_clear m s :
  clear_matches_output s -> clear_matches_output (subprocess_display m s).
Proof.
  unfold clear_matches_output. intros H.
  destruct (decide (m = "")) as [->|Hm].
  - destruct (subprocess_display_silent s) as [-> ->]. exact H.
  - destruct (subprocess_display_output m s Hm) as [-> ->].
    symmetry. apply bool_decide_eq_false_2. by destruct (outputArea s).
Qed.

Lemma update_clear s : clear_matches_output s -> clear_matches_output (update s).
Proof.
  intros H. unfold update.
  destruct (display _ s) as [s'|] eqn:Hd; [|done].
  destruct (panel_part_fields _ _ (setInterval_panel_part None s'))
    as (_ & _ & Ho & Hc & _).
  unfold clear_matches_output. rewrite Ho, Hc.
  revert Hd. unfold display.
  destruct (cls s); [| |destruct (rendered s)]; intros [= <-]; try exact H.
  by apply subprocess_display_clear.
Qed.

Lemma render_clear s :
  cls s = SubprocessView -> clear_matches_output (render s).
Proof.
  intros Hc. unfold render. rewrite Hc. apply update_clear.
  unfold clear_matches_output.
  destruct (build_panel_fields s) as (_ & _ & -> & -> & _). done.
Qed.

Lemma clear_matches_ext s s' :
  outputArea s' = outputArea s -> clear_disabled s' = clear_disabled s ->
  clear_matches_output s -> clear_matches_output s'.
Proof. unfold clear_matches_output. by intros -> ->. Qed.

Lemma clear_matches_panel_part s s' :
  panel_part s' = panel_part s ->
  clear_matches_output s -> clear_matches_output s'.
Proof.
  intros Hp. destruct (panel_part_fields _ _ Hp) as (_ & _ & Ho & Hc & _).
  by apply clear_matches_ext.
Qed.

Lemma step_clear e s :
  clear_matches_output s -> clear_matches_output (step e s).
Proof.
  intros H. destruct e.
  - change (clear_matches_output (render s)). unfold render.
    destruct (cls s) eqn:Hc.
    + by apply update_clear.
    + by apply update_clear.
    + pose proof (render_clear s Hc) as H'. unfold render in H'.
      by rewrite Hc in H'.
  - by apply update_clear.
  - apply (clear_matches_panel_part s); [apply setInterval_panel_part | done].
  - apply (clear_matches_panel_part s); [apply clear_updater_panel_part | done].
  - change (clear_matches_output (tick id s)). unfold tick.
    destruct (is_active id s); [|done].
    apply (clear_matches_panel_part s); [apply poll_panel_part | done].
  - change (clear_matches_output
              (if rendered s then js_state_click b s else s)).
    destruct (rendered s); [|done].
    apply (clear_matches_ext s); [frame' | frame' | done].
  - change (clear_matches_output (if rendered s then clear_click s else s)).
    destruct (rendered s); done.
  - change (clear_matches_output (if rendered s then abort_click s else s)).
    destruct (rendered s); done.
  - cbn. destruct (rendered _); [|done].
    apply (clear_matches_ext s); [frame' | frame' | done].
  - cbn. destruct (draggable s); done.
  - done.
  - done.
  - done.
Qed.

(** From [render] on, whatever happens, the Clear button of the panel is
    disabled exactly when the output area is empty. *)
Theorem clear_enabled_iff_output (s : State) (evs : list event) :
  cls s = SubprocessView ->
  (clear_disabled (run evs (render s)) = true
   <-> outputArea (run evs (render s)) = []).
Proof.
  intros Hc.
  assert (H : clear_matches_output (run evs (render s))).
  { pose proof (render_clear s Hc) as H. revert H. generalize (render s).
    induction evs as [|e evs IH]; intros s0 H; [exact H|].
    apply (IH (step e s0)), step_clear, H. }
  unfold clear_matches_output in H. rewrite H. apply bool_decide_eq_true.
Qed.

Lemma clear_enabled_iff_output_witness :
  outputArea (run [ClickClear] (render (new_panel true))) = [] /\
  clear_disabled (run [ClickClear] (render (new_panel true))) = true /\
  clear_disabled (render (new_panel true)) = false.
Proof.
  pose proof (clear_enabled_iff_output (new_panel true) [ClickClear]
                ltac:(reflexivity)) as [_ H1].
  pose proof (clear_enabled_iff_output (new_panel true) []
                ltac:(reflexivity)) as [H2 _].
  split; [reflexivity|]. split; [apply H1; reflexivity|].
  destruct (clear_disabled (render (new_panel true))) eqn:E; [|reflexivity].
  specialize (H2 E). discriminate H2.
Defined.

(** ** A hidden view *)

Lemma remove_all_hidden sel s :
  hidden (remove_all sel s) = hidden s /\
  innerHTML (remove_all sel s) = innerHTML s.
Proof.
  revert s. induction sel as [|[|id] sel IH]; intros s; cbn; [done| |].
  - apply (IH (set_el_attached false s)).
  - apply (IH (set_others (map (detach id) (others s)) s)).
Qed.

Lemma display_hidden m s s' :
  display m s = Some s' -> hidden s = true -> hidden s' = true.
Proof.
  unfold display. destruct (cls s); [| |destruct (rendered s)];
    intros [= <-] H; try done.
  replace (hidden (subprocess_display m s)) with (hidden s) by frame'. done.
Qed.

Lemma update_hidden s : hidden s = true -> hidden (update s) = true.
Proof.
  intros H. unfold update. destruct (display _ s) as [s'|] eqn:Hd; [|done].
  destruct (setInterval_rest None s') as (-> & _).
  eapply display_hidden; eassumption.
Qed.

Lemma step_hidden e s : hidden s = true -> hidden (step e s) = true.
Proof.
  intros H. destruct e.
  - change (hidden (render s) = true). unfold render.
    destruct (cls s); apply update_hidden; try exact H.
    unfold build_panel. cbn.
    by rewrite (proj1 (remove_all_hidden _ (set_interval (Some 0) s))).
  - by apply update_hidden.
  - change (hidden (setInterval arg s) = true).
    by destruct (setInterval_rest arg s) as (-> & _).
  - change (hidden (clear_updater s) = true). by rewrite clear_updater_hidden.
  - change (hidden (tick id s) = true). unfold tick, poll.
    destruct (is_active id s); [|done].
    destruct (comm_live _); [done|]. by rewrite clear_updater_hidden.
  - cbn. destruct (rendered s); [|done].
    replace (hidden (js_state_click b s)) with (hidden s) by frame'. done.
  - cbn. destruct (rendered s); done.
  - cbn. destruct (rendered s); done.
  - cbn. destruct (rendered _); [|done].
    set (s1 := set_innerHeight h (set_innerWidth w s)).
    replace (hidden (on_resize s1)) with (hidden s) by frame'. done.
  - cbn. destruct (draggable s); done.
  - done.
  - done.
  - done.
Qed.

Lemma update_innerHTML s :
  innerHTML (update s) =
  match cls s with
  | UpdateView => _message (model s)
  | _ => innerHTML s
  end.
Proof.
  unfold update, display.
  destruct (cls s); [| |destruct (rendered s)];
    rewrite ?(proj1 (proj2 (proj2 (proj2 (proj2
               (panel_part_fields _ _ (setInterval_panel_part None _)))))));
    try done.
  frame'.
Qed.

Lemma step_innerHTML e s :
  cls s <> UpdateView -> innerHTML (step e s) = innerHTML s.
Proof.
  intros Hc. destruct e.
  - change (innerHTML (render s) = innerHTML s). unfold render.
    destruct (cls s) eqn:Hcls; [done| |]; rewrite update_innerHTML.
    + cbn. by rewrite Hcls.
    + destruct (build_panel_fields s) as (-> & _). rewrite Hcls.
      unfold build_panel. cbn.
      exact (proj2 (remove_all_hidden _ (set_interval (Some 0) s))).
  - change (innerHTML (update s) = innerHTML s). rewrite update_innerHTML.
    by destruct (cls s).
  - apply (panel_part_fields _ _ (setInterval_panel_part arg s)).
  - apply (panel_part_fields _ _ (clear_updater_panel_part s)).
  - change (innerHTML (tick id s) = innerHTML s). unfold tick.
    destruct (is_active id s); [|done].
    apply (panel_part_fields _ _ (poll_panel_part s)).
  - cbn. destruct (rendered s); [frame' | done].
  - cbn. destruct (rendered s); done.
  - cbn. destruct (rendered s); done.
  - cbn. destruct (rendered _); [frame' | done].
  - cbn. destruct (draggable s); done.
  - done.
  - done.
  - done.
Qed.

(** A [HiddenUpdateView] never shows a message: whatever happens, the
    content of its element stays what it was, and from [render] on the
    element is hidden. *)
Theorem hidden_view_shows_nothing (s : State) (evs : list event) :
  cls s = HiddenUpdateView ->
  innerHTML (run evs s) = innerHTML s /\
  hidden (run evs (render s)) = true.
Proof.
  intros Hc. split.
  - revert s Hc. induction evs as [|e evs IH]; intros s Hc; [done|].
    change (run (e :: evs) s) with (run evs (step e s)).
    rewrite IH by (by rewrite step_cls).
    apply step_innerHTML. by rewrite Hc.
  - assert (H : hidden (render s) = true).
    { unfold render, update, display. rewrite Hc. cbn. rewrite Hc.
      by destruct (setInterval_rest None
                     (set_hidden true (set_interval (Some 0) s))) as (-> & _). }
    revert H. generalize (render s). clear.
    induction evs as [|e evs IH]; intros s H; [done|].
    apply (IH (step e s)), step_hidden, H.
Qed.

Lemma hidden_view_shows_nothing_witness :
  let s := fresh HiddenUpdateView live_model 800 600 [] [] true (fun _ => 0) in
  innerHTML (run [Render; ModelChange dead_model; Update; Tick 1] s) = "" /\
  hidden (run [ModelChange dead_model; Update; Tick 1] (render s)) = true.
Proof.
  intros s. split.
  - apply (hidden_view_shows_nothing s
             [Render; ModelChange dead_model; Update; Tick 1%positive]).
    reflexivity.
  - apply (hidden_view_shows_nothing s
             [ModelChange dead_model; Update; Tick 1%positive]).
    reflexivity.
Defined.

(** ** Messages delivered one after the other *)

Lemma deliver_update m s :
  deliver m s = update (set_model (with_message m (model s)) s).
Proof. reflexivity. Qed.

Lemma deliver_cls m s :
  cls (deliver m s) = cls s /\ rendered (deliver m s) = rendered s.
Proof.
  rewrite deliver_update.
  destruct (update_cls (set_model (with_message m (model s)) s)) as [H1 H2].
  split; [exact H1 | exact H2].
Qed.

Lemma deliver_output m s :
  cls s = SubprocessView -> rendered s = true ->
  outputArea (deliver m s) =
  outputArea s ++ (if JS.truthy m then [m] else []).
Proof.
  intros Hc Hr. rewrite deliver_update. unfold update, display. cbn.
  rewrite Hc, Hr.
  rewrite (proj1 (proj2 (proj2
            (panel_part_fields _ _ (setInterval_panel_part None _))))).
  set (s1 := set_model (with_message m (model s)) s).
  destruct (decide (m = "")) as [->|Hm].
  - cbn. rewrite app_nil_r. apply (subprocess_display_silent s1).
  - rewrite (truthy_nonempty m Hm).
    apply (subprocess_display_output m s1 Hm).
Qed.

(** The panel buffers: messages delivered one after the other to a
    rendered [SubprocessView] are all in the output area, in the order
    of their arrival, after what was there; empty messages leave no
    trace, and a message delivered twice is there twice. *)
Theorem panel_accumulates_messages (s : State) (ms : list string) :
  cls s = SubprocessView -> rendered s = true ->
  outputArea (deliver_all ms s) = outputArea s ++ List.filter JS.truthy ms.
Proof.
  revert s. induction ms as [|m ms IH]; intros s Hc Hr.
  - cbn. by rewrite app_nil_r.
  - change (deliver_all (m :: ms) s) with (deliver_all ms (deliver m s)).
    destruct (deliver_cls m s) as [Hc' Hr'].
    rewrite IH by congruence. rewrite deliver_output by assumption.
    cbn. destruct (JS.truthy m); by rewrite <- app_assoc.
Qed.

Lemma panel_accumulates_messages_witness :
  outputArea (deliver_all ["a"; ""; "b"; "b"] (render (new_panel true)))
  = ["ready"; "a"; "b"; "b"].
Proof.
  apply (panel_accumulates_messages (render (new_panel true))
           ["a"; ""; "b"; "b"]); reflexivity.
Defined.

Lemma last_cons {A} (m : A) (ms : list A) (d : A) :
  List.last (m :: ms) d = List.last ms m.
Proof.
  revert m d. induction ms as [|a ms IH]; intros m d; [done|].
  change (List.last (m :: a :: ms) d) with (List.last (a :: ms) d).
  by rewrite (IH a d), (IH a m).
Qed.

(** An [UpdateView] shows the latest message only: after messages
    delivered one after the other, the content of its element is the
    last of them, the empty message included. *)
Theorem update_view_shows_latest (s : State) (ms : list string) :
  cls s = UpdateView ->
  innerHTML (deliver_all ms s) = List.last ms (innerHTML s).
Proof.
  revert s. induction ms as [|m ms IH]; intros s Hc; [done|].
  change (deliver_all (m :: ms) s) with (deliver_all ms (deliver m s)).
  destruct (deliver_cls m s) as [Hc' _].
  rewrite IH by congruence.
  assert (Hm : innerHTML (deliver m s) = m).
  { rewrite deliver_update, update_innerHTML. cbn. by rewrite Hc. }
  by rewrite Hm, last_cons.
Qed.

Lemma update_view_shows_latest_witness :
  innerHTML (deliver_all ["a"; "b"; ""] polling_view) = "".
Proof.
  apply (update_view_shows_latest polling_view ["a"; "b"; ""]). reflexivity.
Defined.

(** ** The Abort button and the list of subprocesses *)

Lemma append_cons a s t : String a s +:+ t = String a (s +:+ t).
Proof. reflexivity. Qed.

Lemma append_nil t : "" +:+ t = t.
Proof. reflexivity. Qed.

Lemma prefix_spec sub s :
  String.prefix sub s = true <-> exists post, s = sub +:+ post.
Proof.
  revert s. induction sub as [|a sub IH]; intros [|b s]; cbn.
  - split; [intros _; by exists "" | done].
  - split; [intros _; by exists (String b s) | done].
  - split; [done | intros [post [=]]].
  - destruct (ascii_dec a b) as [->|Hne].
    + rewrite IH. split; intros [post H]; exists post;
        rewrite append_cons in *; congruence.
    + split; [done|]. intros [post H]. rewrite append_cons in H. congruence.
Qed.

Lemma occurs_cons sub c rest :
  occurs sub (String c rest) <->
  String.prefix sub (String c rest) = true \/ occurs sub rest.
Proof.
  split.
  - intros ([|a pre] & post & H).
    + left. apply prefix_spec. by exists post.
    + right. injection H as _ H. by exists pre, post.
  - intros [H|(pre & post & ->)].
    + apply prefix_spec in H as [post H]. by exists "", post.
    + by exists (String c pre), post.
Qed.

Lemma occurs_empty sub :
  occurs sub "" <-> String.prefix sub "" = true.
Proof.
  split.
  - intros ([|a pre] & post & H); [|done].
    apply prefix_spec. by exists post.
  - intros H. apply prefix_spec in H as [post H]. by exists "", post.
Qed.

Lemma indexOf_from_found sub s : forall i,
  JS.indexOf_from sub s i <> -1 -> occurs sub s.
Proof.
  induction s as [|c rest IH]; intros i; cbn [JS.indexOf_from].
  - destruct (String.prefix sub "") eqn:E; [|done].
    intros _. by apply occurs_empty.
  - destruct (String.prefix sub (String c rest)) eqn:E.
    + intros _. apply occurs_cons. by left.
    + intros H. apply occurs_cons. right. by apply (IH (i + 1)).
Qed.

(** [indexOf] answers -1 exactly when the string does not occur. *)
Lemma indexOf_from_none sub s : forall i,
  0 <= i -> (JS.indexOf_from sub s i = -1 <-> ~ occurs sub s).
Proof.
  induction s as [|c rest IH]; intros i Hi; cbn [JS.indexOf_from].
  - rewrite occurs_empty. destruct (String.prefix sub ""); [|done].
    split; [lia | intros H; by destruct H].
  - rewrite occurs_cons.
    destruct (String.prefix sub (String c rest)).
    + split; [lia | intros H; destruct H; by left].
    + rewrite (IH (i + 1)) by lia. split.
      * intros H [?|?]; [done | by apply H].
      * intros H ?. apply H. by right.
Qed.

Lemma indexOf_none s sub : JS.indexOf s sub = -1 <-> ~ occurs sub s.
Proof. apply indexOf_from_none. lia. Qed.

Lemma subprocess_display_abort m s :
  let processes := JS.or_else (_processes (model s)) "No subprocesses" in
  abort_disabled (subprocess_display m s)
  = (JS.indexOf processes "Measurement" =? -1) /\
  subprocessList (subprocess_display m s) = processes.
Proof.
  unfold subprocess_display.
  match goal with
  | |- context [set_abort_disabled _ ?x] => set (s' := x)
  end.
  assert (Hm : model s' = model s) by (subst s'; frame').
  cbn. by rewrite Hm.
Qed.

Lemma update_abort s :
  cls s = SubprocessView -> rendered s = true ->
  let processes := JS.or_else (_processes (model s)) "No subprocesses" in
  abort_disabled (update s) = (JS.indexOf processes "Measurement" =? -1) /\
  subprocessList (update s) = processes.
Proof.
  intros Hc Hr processes. unfold update, display. rewrite Hc, Hr.
  destruct (setInterval_rest None
              (subprocess_display (_message (model s)) s))
    as (_ & -> & -> & _).
  apply subprocess_display_abort.
Qed.

(** After every update of the rendered panel the Abort button is enabled
    exactly when the model's list of subprocesses mentions
    [Measurement], and the header shows that list, or [No subprocesses]
    when it is empty, in which case Abort is disabled. *)
Theorem abort_enabled_iff_measurement (s : State) :
  cls s = SubprocessView -> rendered s = true ->
  (abort_disabled (update s) = false
   <-> occurs "Measurement" (_processes (model s))) /\
  subprocessList (update s)
  = (if String.eqb (_processes (model s)) "" then "No subprocesses"
     else _processes (model s)).
Proof.
  intros Hc Hr. destruct (update_abort s Hc Hr) as [Ha Hl].
  rewrite Ha, Hl. unfold JS.or_else, JS.truthy.
  destruct (String.eqb_spec (_processes (model s)) "") as [He|Hne].
  - split; [|done]. rewrite He.
    change (JS.indexOf "No subprocesses" "Measurement" =? -1) with true.
    split; [done|]. intros H%occurs_empty. discriminate H.
  - change (negb false) with true. cbv iota. split; [|done].
    destruct (Z.eqb_spec (JS.indexOf (_processes (model s)) "Measurement") (-1))
      as [Hi|Hi].
    + split; [done|]. intros H. by apply indexOf_none in Hi.
    + split; [|done]. intros _.
      by apply (indexOf_from_found _ _ 0).
Qed.

Lemma abort_enabled_iff_measurement_witness :
  let running :=
    step (ModelChange {| _message := ""; interval := 1;
                         _processes := "<Measurement, DataServer>";
                         comm_live := true |})
         (render (new_panel true)) in
  abort_disabled (update running) = false /\
  subprocessList (update running) = "<Measurement, DataServer>" /\
  abort_disabled (render (new_panel true)) = true /\
  subprocessList (render (new_panel true)) = "No subprocesses".
Proof.
  intros running.
  destruct (abort_enabled_iff_measurement running
              ltac:(reflexivity) ltac:(reflexivity)) as [[_ Hen] Hlist].
  split; [|by repeat split].
  apply Hen. by exists "<", ", DataServer>".
Defined.

(** ** A new message: restoring and scrolling *)

(** A nonempty message restores a minimized panel: it becomes docked,
    which shows the output area again, is moved into the page body, and
    is scrolled to the bottom of the new content.  An empty message
    leaves it minimized. *)
Theorem message_restores_minimized (s : State) (m : string) :
  cls s = SubprocessView -> rendered s = true ->
  qcodes_state s = Some "minimized" ->
  exists s', display m s = Some s' /\
    if JS.truthy m
    then qcodes_state s' = Some "docked" /\ content_shown s' = true /\
         el_attached s' = true /\
         scrollTop s' = bottom s (outputArea s ++ [m])
    else qcodes_state s' = Some "minimized" /\ content_shown s' = false /\
         scrollTop s' = scrollTop s.
Proof.
  intros Hc Hr Hmin. unfold display. rewrite Hc, Hr.
  eexists. split; [reflexivity|].
  unfold content_shown, subprocess_display.
  destruct (JS.truthy m); [|cbn; rewrite Hmin; done].
  change (qcodes_state (scroll_to_bottom s)) with (qcodes_state s).
  rewrite (bool_decide_eq_true_2 _ Hmin), Z.eqb_refl.
  unfold js_state_click. rewrite state_of_class_className.
  change (qcodes_state (scroll_to_bottom s)) with (qcodes_state s).
  rewrite Hmin. cbn. done.
Qed.

Lemma message_restores_minimized_witness :
  let minimized := step (ClickState BtnMinimized) (render (new_panel false)) in
  exists s', display "done" minimized = Some s' /\
             qcodes_state s' = Some "docked" /\ el_attached s' = true.
Proof.
  intros minimized.
  destruct (message_restores_minimized minimized "done"
              ltac:(reflexivity) ltac:(reflexivity) ltac:(reflexivity))
    as (s' & Hd & Hs & _ & Ha & _).
  exists s'. by repeat split.
Defined.

(** A nonempty message keeps the reader's place in a panel that is not
    minimized: scrolled to the bottom before, the output area is
    scrolled to the bottom of the new content; scrolled elsewhere, to an
    offset the new content still allows, it stays there. *)
Theorem message_keeps_scroll_place (s : State) (m : string) :
  cls s = SubprocessView -> rendered s = true -> m <> "" ->
  qcodes_state s <> Some "minimized" ->
  exists s', display m s = Some s' /\
    (scrollTop s = bottom s (outputArea s) ->
     scrollTop s' = bottom s (outputArea s ++ [m])) /\
    (scrollTop s <> bottom s (outputArea s) ->
     0 <= scrollTop s <= max_scroll s (outputArea s ++ [m]) ->
     scrollTop s' = scrollTop s).
Proof.
  intros Hc Hr Hm Hmin. unfold display. rewrite Hc, Hr.
  eexists. split; [reflexivity|].
  unfold subprocess_display. rewrite (truthy_nonempty m Hm).
  change (qcodes_state (scroll_to_bottom s)) with (qcodes_state s).
  rewrite (bool_decide_eq_false_2 _ Hmin).
  change (scrollTop (scroll_to_bottom s)) with (bottom s (outputArea s)).
  destruct (Z.eqb_spec (scrollTop s) (bottom s (outputArea s))) as [He|Hne];
    (split; [|intros; try done]); cbn; unfold bottom in *; try done; lia.
Qed.

Lemma message_keeps_scroll_place_witness :
  let long := deliver_all ["1"; "2"; "3"; "4"; "5"] (render (new_panel true)) in
  scrollTop long = 34 /\
  exists s', display "6" long = Some s' /\ scrollTop s' = 48.
Proof.
  intros long.
  destruct (message_keeps_scroll_place long "6"
              ltac:(vm_compute; reflexivity) ltac:(vm_compute; reflexivity)
              ltac:(discriminate) ltac:(vm_compute; discriminate))
    as (s' & Hd & Hbottom & _).
  split; [vm_compute; reflexivity|]. exists s'. split; [exact Hd|].
  apply Hbottom. vm_compute. reflexivity.
Defined.

(** ** The buttons on show *)

Lemma run_state_in_panel_states evs s :
  (exists st, qcodes_state s = Some st /\ st ∈ panel_states) ->
  exists st, qcodes_state (run evs s) = Some st /\ st ∈ panel_states.
Proof.
  revert s. induction evs as [|e evs IH]; intros s H; [exact H|].
  change (run (e :: evs) s) with (run evs (step e s)). apply IH.
  destruct (step_state e s) as [He|He]; [|exact He].
  rewrite He. exact H.
Qed.

Lemma render_rendered s : cls s = SubprocessView -> rendered (render s) = true.
Proof.
  intros Hc. unfold render. rewrite Hc.
  destruct (update_cls (build_panel s)) as [_ ->]. apply build_panel_fields.
Qed.

Lemma step_rendered e s : rendered s = true -> rendered (step e s) = true.
Proof.
  intros H. destruct e.
  - change (rendered (render s) = true). unfold render. destruct (cls s).
    + by destruct (update_cls (set_interval (Some 0) s)) as [_ ->].
    + by destruct (update_cls (set_interval (Some 0) s)) as [_ ->].
    + destruct (update_cls (build_panel s)) as [_ ->].
      apply build_panel_fields.
  - change (rendered (update s) = true). by destruct (update_cls s) as [_ ->].
  - change (rendered (setInterval arg s) = true).
    by rewrite (proj1 (proj2 (panel_part_fields _ _
                                (setInterval_panel_part arg s)))).
  - change (rendered (clear_updater s) = true).
    by rewrite (proj1 (proj2 (panel_part_fields _ _
                                (clear_updater_panel_part s)))).
  - change (rendered (tick id s) = true). unfold tick.
    destruct (is_active id s); [|done].
    by rewrite (proj1 (proj2 (panel_part_fields _ _ (poll_panel_part s)))).
  - cbn. rewrite H. rewrite <- H. frame'.
  - cbn. by rewrite H.
  - cbn. by rewrite H.
  - cbn. rewrite H. rewrite <- H. frame'.
  - cbn. by destruct (draggable s).
  - done.
  - done.
  - done.
Qed.

Lemma run_rendered evs s : rendered s = true -> rendered (run evs s) = true.
Proof.
  revert s. induction evs as [|e evs IH]; intros s H; [done|].
  apply (IH (step e s)), step_rendered, H.
Qed.

(** From [render] on the panel shows exactly two of its three state
    buttons, those of the states it is not in, and a click on a button
    on show always changes the state and hides that button. *)
Theorem two_state_buttons_on_show (s : State) (evs : list event) :
  cls s = SubprocessView ->
  let s' := run evs (render s) in
  length (List.filter (fun b => button_shown b s')
                      [BtnMinimized; BtnDocked; BtnFloated]) = 2%nat /\
  (forall b, button_shown b s' = true ->
     qcodes_state (step (ClickState b) s') <> qcodes_state s' /\
     button_shown b (step (ClickState b) s') = false).
Proof.
  intros Hc s'.
  assert (Hr : rendered s' = true)
    by (apply run_rendered; by apply render_rendered).
  destruct (run_state_in_panel_states evs (render s)) as (st & Hst & Hin).
  { exists "docked". split; [by apply render_state | apply docked_in_panel_states]. }
  fold s' in Hst. split.
  - unfold button_shown. rewrite Hst.
    unfold panel_states in Hin.
    repeat (apply elem_of_cons in Hin as [->|Hin]; [reflexivity|]).
    inversion Hin.
  - intros b Hb. cbn. rewrite Hr.
    unfold button_shown in *. rewrite js_state_click_state.
    apply negb_true_iff, bool_decide_eq_false in Hb.
    split; [congruence|].
    apply negb_false_iff, bool_decide_eq_true. done.
Qed.

Lemma two_state_buttons_on_show_witness :
  List.filter (fun b => button_shown b (run [] (render (new_panel true))))
              [BtnMinimized; BtnDocked; BtnFloated]
  = [BtnMinimized; BtnFloated] /\
  qcodes_state (step (ClickState BtnFloated) (run [] (render (new_panel true))))
  <> qcodes_state (run [] (render (new_panel true))).
Proof.
  pose proof (two_state_buttons_on_show (new_panel true) [] eq_refl) as H.
  cbv zeta in H. destruct H as [_ Hclick].
  split; [vm_compute; reflexivity|].
  exact (proj1 (Hclick BtnFloated ltac:(vm_compute; reflexivity))).
Defined.

(** ** Floating *)

Lemma js_state_click_floating b s :
  floating_consistent s -> floating_consistent (js_state_click b s).
Proof.
  unfold floating_consistent, js_state_click.
  rewrite state_of_class_className.
  destruct (bool_decide (qcodes_state s = Some "floated")) eqn:Hf;
    intros (Hd & Hl & Ht); destruct b; cbn; rewrite ?Hd, ?Hl, ?Ht; done.
Qed.

Lemma floating_ext s s' :
  qcodes_state s' = qcodes_state s -> draggable s' = draggable s ->
  css_left s' = css_left s -> css_top s' = css_top s ->
  floating_consistent s -> floating_consistent s'.
Proof. unfold floating_consistent. by intros -> -> -> ->. Qed.

Lemma floating_panel_part s s' :
  panel_part s' = panel_part s ->
  floating_consistent s -> floating_consistent s'.
Proof.
  intros Hp.
  destruct (panel_part_fields _ _ Hp) as (_ & _ & _ & _ & _ & H1 & H2 & H3 & H4).
  by apply floating_ext.
Qed.

Lemma subprocess_display_floating m s :
  floating_consistent s -> floating_consistent (subprocess_display m s).
Proof.
  intros H. unfold subprocess_display.
  destruct (JS.truthy m).
  - change (qcodes_state (scroll_to_bottom s)) with (qcodes_state s).
    destruct (bool_decide (qcodes_state s = Some "minimized")).
    + assert (H1 : floating_consistent (js_state_click BtnDocked (scroll_to_bottom s)))
        by (by apply js_state_click_floating).
      revert H1. apply floating_ext; case_match; reflexivity.
    + revert H. apply floating_ext; case_match; reflexivity.
  - exact H.
Qed.

Lemma update_floating s :
  floating_consistent s -> floating_consistent (update s).
Proof.
  intros H. unfold update. destruct (display _ s) as [s'|] eqn:Hd; [|done].
  apply (floating_panel_part s'); [apply setInterval_panel_part|].
  revert Hd. unfold display.
  destruct (cls s); [| |destruct (rendered s)]; intros [= <-]; try exact H.
  by apply subprocess_display_floating.
Qed.

Lemma on_resize_floating s :
  floating_consistent s -> floating_consistent (on_resize s).
Proof.
  intros H. unfold on_resize.
  destruct (bool_decide (qcodes_state s = Some "floated")) eqn:Hf; [|exact H].
  unfold floating_consistent in *. rewrite Hf in H.
  destruct H as (Hd & Hl & Ht). cbv zeta.
  destruct (_ <? _); destruct (_ <? _); cbn; rewrite Hf; done.
Qed.

Lemma step_floating e s :
  is_render e = false ->
  floating_consistent s -> floating_consistent (step e s).
Proof.
  intros He H. destruct e; try discriminate He.
  - by apply update_floating.
  - apply (floating_panel_part s); [apply setInterval_panel_part | done].
  - apply (floating_panel_part s); [apply clear_updater_panel_part | done].
  - change (floating_consistent (tick id s)). unfold tick.
    destruct (is_active id s); [|done].
    apply (floating_panel_part s); [apply poll_panel_part | done].
  - cbn. destruct (rendered s); [|done]. by apply js_state_click_floating.
  - cbn. destruct (rendered s); done.
  - cbn. destruct (rendered s); done.
  - cbn. destruct (rendered _); [|done]. by apply on_resize_floating.
  - cbn. destruct (draggable s) eqn:Hd; [|done].
    unfold floating_consistent in *. cbn.
    destruct (bool_decide (qcodes_state s = Some "floated")).
    + by repeat split.
    + destruct H as (H & _). congruence.
  - done.
  - done.
  - done.
Qed.

(** A panel rendered once is draggable, and placed through [left] and
    [top], exactly while it is floated: whatever happens after its
    [render], short of another [render], leaving the floated state undoes
    [draggable()] and both offsets, and nothing else sets them. *)
Theorem floated_iff_draggable (s : State) (evs : list event) :
  cls s = SubprocessView ->
  draggable s = false -> css_left s = None -> css_top s = None ->
  no_render evs = true ->
  floating_consistent (run evs (render s)).
Proof.
  intros Hc Hd Hl Ht Hevs.
  assert (H : floating_consistent (render s)).
  { unfold render. rewrite Hc. apply update_floating.
    unfold floating_consistent.
    destruct (build_panel_fields s) as (_ & _ & _ & _ & ->).
    rewrite bool_decide_eq_false_2 by discriminate.
    unfold build_panel. cbn.
    set (sel := not_own _). set (s1 := set_interval _ s).
    assert (Hfr : draggable (remove_all sel s1) = draggable s /\
                  css_left (remove_all sel s1) = css_left s /\
                  css_top (remove_all sel s1) = css_top s).
    { clearbody sel. change (draggable s) with (draggable s1).
      change (css_left s) with (css_left s1).
      change (css_top s) with (css_top s1). clearbody s1.
      revert s1. induction sel as [|[|id] sel IH]; intros s1; cbn; [done| |].
      - apply (IH (set_el_attached false s1)).
      - apply (IH (set_others (map (detach id) (others s1)) s1)). }
    destruct Hfr as (-> & -> & ->). done. }
  revert H Hevs. generalize (render s). clear.
  induction evs as [|e evs IH]; intros s H Hevs; [done|].
  cbn in Hevs. apply andb_prop in Hevs as [He Hevs].
  apply (IH (step e s)); [|done].
  apply step_floating; [by apply negb_true_iff | done].
Qed.

Lemma floated_iff_draggable_witness :
  floating_consistent
    (run [ClickState BtnFloated; Drag 5 5; Resize 300 300;
          ClickState BtnMinimized; ModelChange dead_model; Update]
         (render (new_panel true))) /\
  draggable (run [ClickState BtnFloated; Drag 5 5]
                 (render (new_panel true))) = true.
Proof.
  split; [|reflexivity].
  apply (floated_iff_draggable (new_panel true)); reflexivity.
Defined.

(** ** The resize handler *)

(** Running the resize handler a second time changes nothing more. *)
Theorem on_resize_idempotent (s : State) :
  on_resize (on_resize s) = on_resize s.
Proof.
  unfold on_resize.
  destruct (bool_decide (qcodes_state s = Some "floated")) eqn:Hf;
    [|by rewrite Hf].
  cbv zeta.
  destruct (Z.ltb_spec (innerWidth s - 20) (position_left s)) as [Hl|Hl];
    destruct (Z.ltb_spec (innerHeight s - 20) (position_top s)) as [Ht|Ht];
    cbn; rewrite Hf; unfold position_left, position_top in *; cbn;
    repeat match goal with
           | |- context [?a <? ?b] => destruct (Z.ltb_spec a b); try lia
           end; reflexivity.
Qed.

(** ** The period of the timer *)

Lemma delay_ext s s' :
  timer_part s' = timer_part s ->
  delay_matches_interval s -> delay_matches_interval s'.
Proof.
  intros Hp H. apply timer_part_eq in Hp as (Ha & _ & _ & Hi & _).
  unfold delay_matches_interval. by rewrite Ha, Hi.
Qed.

Lemma delay_no_timer s : active s = [] -> delay_matches_interval s.
Proof. intros Ha t Ht. rewrite Ha in Ht. inversion Ht. Qed.

Lemma setInterval_delay arg s :
  timers_ok s -> delay_matches_interval s ->
  delay_matches_interval (setInterval arg s).
Proof.
  intros Hok H.
  destruct (decide (Some (requested arg s) = _interval s)) as [He|Hne].
  - by rewrite setInterval_same.
  - destruct (setInterval_other arg s Hne Hok) as (Hi & _ & _ & Hact).
    destruct (Z.eqb_spec (requested arg s) 0) as [Hz|Hnz];
      destruct Hact as (Ha & _).
    + by apply delay_no_timer.
    + intros t Ht. rewrite Ha in Ht. apply list_elem_of_singleton in Ht as ->.
      exists (requested arg s). by repeat split.
Qed.

Lemma update_delay s :
  timers_ok s -> delay_matches_interval s -> delay_matches_interval (update s).
Proof.
  intros Hok H. unfold update.
  destruct (display _ s) as [s'|] eqn:Hd; [|done].
  pose proof (display_timer_part _ _ _ Hd) as Hp.
  apply setInterval_delay; [by eapply timers_ok_ext | by eapply delay_ext].
Qed.

Lemma step_delay e s :
  is_render e = false -> timers_ok s ->
  delay_matches_interval s -> delay_matches_interval (step e s).
Proof.
  intros He Hok H. destruct e; try discriminate He.
  - by apply update_delay.
  - by apply setInterval_delay.
  - apply delay_no_timer. by apply clear_updater_active.
  - change (delay_matches_interval (tick id s)). unfold tick.
    destruct (is_active id s); [|done]. unfold poll.
    assert (Hs : timers_ok (send MyUpdate s)) by exact Hok.
    destruct (comm_live _); [exact H|].
    apply delay_no_timer. by apply clear_updater_active.
  - cbn. destruct (rendered s); [|done].
    eapply delay_ext; [apply js_state_click_timer_part | done].
  - cbn. destruct (rendered s); done.
  - cbn. destruct (rendered s); done.
  - cbn. destruct (rendered _); [|done].
    eapply delay_ext; [apply on_resize_timer_part | done].
  - cbn. destruct (draggable s); done.
  - done.
  - done.
  - done.
Qed.

(** A view rendered once, with no timer of its own running before:
    whatever happens after, short of another [render], a timer that runs
    has the period [_interval] asks for, 1000 ms for each second, and
    [_interval] is not zero. *)
Theorem timer_period_follows_interval (s : State) (evs : list event) :
  timers_ok s -> active s = [] -> no_render evs = true ->
  delay_matches_interval (run evs (render s)).
Proof.
  intros Hok Ha Hevs.
  assert (H : delay_matches_interval (render s)).
  { unfold render.
    assert (H0 : timers_ok (set_interval (Some 0) s)) by exact Hok.
    destruct (cls s).
    - apply update_delay; [exact H0 | by apply delay_no_timer].
    - apply update_delay; [exact H0 | by apply delay_no_timer].
    - destruct (build_panel_timers s) as (Hba & Hbu & Hbn & _).
      apply update_delay.
      + unfold timers_ok. rewrite Hba, Hbu, Hbn. exact Hok.
      + apply delay_no_timer. by rewrite Hba. }
  pose proof (render_ok s Hok) as Hok'.
  revert H Hok' Hevs. generalize (render s). clear.
  induction evs as [|e evs IH]; intros s H Hok Hevs; [done|].
  cbn in Hevs. apply andb_prop in Hevs as [He Hevs].
  apply negb_true_iff in He.
  apply (IH (step e s)); [by apply step_delay | by apply step_ok | done].
Qed.

Lemma timer_period_follows_interval_witness :
  let s := fresh UpdateView live_model 800 600 [] [] true (fun _ => 0) in
  active (run [SetInterval (Some 3); Tick 2] (render s)) = [(2%positive, 3000)] /\
  delay_matches_interval (run [SetInterval (Some 3); Tick 2] (render s)).
Proof.
  intros s. split; [reflexivity|].
  apply (timer_period_follows_interval s); [|reflexivity|reflexivity].
  repeat split; cbn; [intros id H; discriminate H
                     | intros t H; inversion H | lia].
Defined.

(** ** Stopping the polling *)

(** An interval of zero turns the polling off: the call stops the timer
    and starts none, and no update message follows as long as no event
    asks for another interval. *)
Theorem zero_interval_stops_polling (s : State) :
  timers_ok s -> _interval s <> Some 0 ->
  active (setInterval (Some 0) s) = [] /\
  _interval (setInterval (Some 0) s) = Some 0 /\
  (forall evs, quiet evs (setInterval (Some 0) s) = true ->
     updates (run evs (setInterval (Some 0) s))
     = updates (setInterval (Some 0) s)).
Proof.
  intros Hok Hne.
  destruct (setInterval_other (Some 0) s ltac:(cbn; congruence) Hok)
    as (Hi & _ & _ & Ha & _).
  split; [exact Ha|]. split; [exact Hi|].
  intros evs Hq. by apply quiet_run.
Qed.

Lemma zero_interval_stops_polling_witness :
  active polling_view = [(1%positive, 1000)] /\
  active (setInterval (Some 0) polling_view) = [] /\
  updates (run [Tick 1; ModelChange (with_message "x" dead_model); Tick 1]
               (setInterval (Some 0) polling_view))
  = updates (setInterval (Some 0) polling_view).
Proof.
  assert (Hok : timers_ok polling_view).
  { repeat split.
    - intros id H. vm_compute in H. injection H as <-. reflexivity.
    - intros t H. vm_compute in H.
      apply elem_of_cons in H as [->|H]; [reflexivity | inversion H].
    - vm_compute. lia. }
  destruct (zero_interval_stops_polling polling_view Hok
              ltac:(vm_compute; discriminate)) as (Ha & _ & Hq).
  split; [vm_compute; reflexivity|]. split; [exact Ha|].
  apply Hq. vm_compute. reflexivity.
Defined.

(** [remove] stops the polling for good: no timer runs after it, and
    since it leaves [_interval] as it was, a later [update] with the same
    interval in the model does not start one again. *)
Theorem remove_stops_polling (s : State) :
  timers_ok s ->
  active (remove s) = [] /\
  _interval (remove s) = _interval s /\
  (Some (interval (model s)) = _interval s ->
   active (update (remove s)) = []) /\
  (forall evs, quiet evs (remove s) = true ->
     updates (run evs (remove s)) = updates (remove s)).
Proof.
  intros Hok.
  pose proof (clear_updater_active s Hok) as Ha.
  destruct (clear_updater_rest s) as (_ & _ & Hi & Hm & _).
  split; [exact Ha|]. split; [exact Hi|]. split.
  - intros He. unfold update. change (remove s) with (clear_updater s).
    destruct (display _ (clear_updater s)) as [s'|] eqn:Hd; [|done].
    destruct (timer_part_eq _ _ (display_timer_part _ _ _ Hd))
      as (Ha' & _ & _ & Hi' & Hm' & _).
    rewrite setInterval_same; [congruence|].
    cbn. rewrite Hm', Hi', Hm, Hi. exact He.
  - intros evs Hq. by apply quiet_run.
Qed.

Lemma remove_stops_polling_witness :
  active (remove polling_view) = [] /\
  updates (run [Update; Tick 1; Tick 2] (remove polling_view))
  = updates (remove polling_view).
Proof.
  assert (Hok : timers_ok polling_view).
  { repeat split.
    - intros id H. vm_compute in H. injection H as <-. reflexivity.
    - intros t H. vm_compute in H.
      apply elem_of_cons in H as [->|H]; [reflexivity | inversion H].
    - vm_compute. lia. }
  destruct (remove_stops_polling polling_view Hok) as (Ha & _ & _ & Hq).
  split; [exact Ha|].
  apply Hq. vm_compute. reflexivity.
Defined.

(** ** Reading the state off a button's class *)

Lemma append_empty_r s : s +:+ "" = s.
Proof. induction s as [|a s IH]; [done|]. by rewrite append_cons, IH. Qed.

Lemma drop_chars_app pre s : JS.drop_chars (String.length pre) (pre +:+ s) = s.
Proof. induction pre as [|a pre IH]; [done|]. exact IH. Qed.

Lemma has_char_drop c n s :
  has_char c s = false -> has_char c (JS.drop_chars n s) = false.
Proof.
  revert s. induction n as [|n IH]; intros [|a s] H; try done.
  cbn in H. apply orb_false_elim in H as [_ H]. by apply IH.
Qed.

Lemma split_shape sep s :
  JS.split sep s = first_piece sep s :: tail (JS.split sep s).
Proof.
  unfold first_piece. destruct s as [|c s]; [done|]. cbn.
  destruct (Ascii.eqb c sep); [done|]. by destruct (JS.split sep s).
Qed.

Lemma split_app sep a s :
  has_char sep a = false ->
  JS.split sep (a +:+ s) = (a +:+ first_piece sep s) :: tail (JS.split sep s).
Proof.
  induction a as [|c a IH]; intros H.
  - rewrite !append_nil. apply split_shape.
  - cbn in H. apply orb_false_elim in H as [Hc H].
    rewrite !append_cons. cbn. rewrite Hc, (IH H). reflexivity.
Qed.

Lemma split_no_sep sep s : has_char sep s = false -> JS.split sep s = [s].
Proof.
  intros H. rewrite <- (append_empty_r s) at 1.
  rewrite (split_app sep s "" H). by rewrite append_empty_r.
Qed.

Lemma first_piece_app sep a s :
  has_char sep a = false ->
  first_piece sep (a +:+ s) = a +:+ first_piece sep s.
Proof. intros H. unfold first_piece at 1. by rewrite split_app. Qed.

Lemma first_piece_sep sep s : first_piece sep (String sep s) = "".
Proof. unfold first_piece. cbn. by rewrite Ascii.eqb_refl. Qed.

Lemma prefix_other_char a sub c s :
  Ascii.eqb c a = false -> String.prefix (String a sub) (String c s) = false.
Proof.
  intros H. cbn. destruct (ascii_dec a c) as [->|]; [|done].
  by rewrite Ascii.eqb_refl in H.
Qed.

Lemma indexOf_from_skip a sub pre s : forall i,
  has_char a pre = false ->
  String.prefix (String a sub) s = true ->
  JS.indexOf_from (String a sub) (pre +:+ s) i = i + Z.of_nat (String.length pre).
Proof.
  induction pre as [|c pre IH]; intros i H Hp.
  - rewrite append_nil. destruct s; cbn [JS.indexOf_from]; rewrite Hp; cbn; lia.
  - cbn in H. apply orb_false_elim in H as [Hc H].
    rewrite append_cons. cbn [JS.indexOf_from].
    rewrite (prefix_other_char a sub c _ Hc), (IH (i + 1) H Hp).
    cbn [String.length]. lia.
Qed.

Lemma split_qcodes rest :
  JS.split "-" ("qcodes-" +:+ rest) = "qcodes" :: JS.split "-" rest.
Proof. reflexivity. Qed.

Lemma lookup_second {A} (a b : A) (l : list A) : (a :: b :: l) !! 1%nat = Some b.
Proof. reflexivity. Qed.

(** The handler reads the state off the class attribute whatever other
    classes the button carries: with the first [q] of the attribute
    starting [qcodes-name], and [name] free of hyphens and blanks and
    followed by a blank or nothing, the state is [name]. *)
Theorem state_of_class_reads_name (pre name suffix : string) :
  has_char "q" pre = false ->
  has_char "-" name = false -> has_char " " name = false ->
  (suffix = "" \/ exists rest, suffix = String " " rest) ->
  state_of_class (pre +:+ "qcodes-" +:+ name +:+ suffix) = Some name.
Proof.
  intros Hq Hh Hb Hs. unfold state_of_class, JS.indexOf.
  rewrite (indexOf_from_skip "q" "codes" pre _ 0 Hq) by reflexivity.
  unfold JS.substr.
  replace (0 + Z.of_nat (String.length pre) <? 0) with false
    by (symmetry; apply Z.ltb_ge; lia).
  rewrite Z.add_0_l, Nat2Z.id, drop_chars_app.
  rewrite (split_qcodes (name +:+ suffix)).
  rewrite (split_shape "-" (name +:+ suffix)), lookup_second.
  rewrite (first_piece_app "-" name suffix Hh).
  rewrite (split_shape " "). cbn [head].
  rewrite (first_piece_app " " name _ Hb).
  f_equal. rewrite <- (append_empty_r name) at 2. f_equal.
  destruct Hs as [->|[rest ->]]; [reflexivity|].
  change (String " "%char rest) with (" " +:+ rest).
  rewrite (first_piece_app "-" " " rest eq_refl).
  apply (first_piece_sep " " (first_piece "-" rest)).
Qed.

Lemma state_of_class_reads_name_witness :
  state_of_class "btn btn-xs js-state qcodes-floated active" = Some "floated".
Proof.
  apply (state_of_class_reads_name "btn btn-xs js-state " "floated" " active");
    [reflexivity | reflexivity | reflexivity |].
  right. by exists "active".
Defined.

(** A class attribute without a hyphen makes the handler throw: there is
    no second piece to split. *)
Theorem state_of_class_needs_hyphen (cn : string) :
  has_char "-" cn = false -> state_of_class cn = None.
Proof.
  intros H. unfold state_of_class, JS.substr.
  rewrite (split_no_sep "-" _ (has_char_drop "-" _ cn H)). reflexivity.
Qed.

Lemma state_of_class_needs_hyphen_witness :
  state_of_class "btn js_state qcodes_floated" = None.
Proof. apply state_of_class_needs_hyphen. reflexivity. Defined.

(** ** Rendering again *)

(** [render] resets [_interval] to zero but stops no timer: when the
    model's interval is zero, a timer that was running keeps running,
    with [_interval] now zero. *)
Theorem render_keeps_timer_when_interval_zero (s : State) :
  interval (model s) = 0 ->
  active (render s) = active s /\ _interval (render s) = Some 0.
Proof.
  intros Hz.
  assert (Hupd : forall s0, _interval s0 = Some 0 -> interval (model s0) = 0 ->
            active (update s0) = active s0 /\ _interval (update s0) = Some 0).
  { clear. intros s0 Hi Hm. unfold update.
    destruct (display _ s0) as [s'|] eqn:Hd; [|done].
    destruct (timer_part_eq _ _ (display_timer_part _ _ _ Hd))
      as (Ha' & _ & _ & Hi' & Hm' & _).
    rewrite setInterval_same; [split; congruence|].
    cbn. rewrite Hm', Hi', Hm, Hi. done. }
  unfold render. destruct (cls s).
  - apply (Hupd (set_interval (Some 0) s)); done.
  - apply (Hupd (set_interval (Some 0) s)); done.
  - destruct (build_panel_timers s) as (Ha & _ & _ & Hm & _).
    destruct (Hupd (build_panel s)) as [H1 H2].
    + unfold build_panel. cbn.
      exact (proj1 (proj2 (proj2 (proj2 (timer_part_eq _ _
               (remove_all_timer_part _ (set_interval (Some 0) s))))))).
    + by rewrite Hm.
    + split; [congruence | done].
Qed.

Lemma render_keeps_timer_when_interval_zero_witness :
  let s := step (ModelChange {| _message := ""; interval := 0;
                                _processes := ""; comm_live := true |})
                polling_view in
  active s = [(1%positive, 1000)] /\ active (render s) = active s /\
  _interval (render s) = Some 0.
Proof.
  intros s. split; [vm_compute; reflexivity|].
  apply (render_keeps_timer_when_interval_zero s). reflexivity.
Defined.

(** ** What [render] leaves on the page *)

(** An element that is not within a selected one stays as it is. *)
Lemma remove_all_keeps sel s n :
  n ∈ others s -> (forall id, Other id ∈ sel -> within id n = false) ->
  n ∈ others (remove_all sel s).
Proof.
  revert s. induction sel as [|[|id] sel IH]; intros s Hn Hsel; [done| |].
  - apply (IH (set_el_attached false s)); [done|].
    intros id H. apply Hsel. by right.
  - apply (IH (set_others (map (detach id) (others s)) s)).
    + cbn. apply list_elem_of_fmap. exists n. split; [|done].
      unfold detach. by rewrite (Hsel id) by left.
    + intros id' H. apply Hsel. by right.
Qed.

(** Where an element found after [remove_all] comes from: if it is still
    attached, it was attached before and within no selected element. *)
Lemma remove_all_origin sel s n' :
  n' ∈ others (remove_all sel s) ->
  exists n, n ∈ others s /\ node_id n' = node_id n /\
            ancestors n' = ancestors n /\
            (attached n' = true ->
             attached n = true /\
             forall id, Other id ∈ sel -> within id n = false).
Proof.
  revert s. induction sel as [|[|id] sel IH]; intros s Hin.
  - exists n'. split_and!; try done. intros Hatt. split; [done|].
    intros id H. inversion H.
  - destruct (IH _ Hin) as (n & Hn & Hid & Hanc & Ha).
    exists n. split_and!; try done. intros Hatt.
    destruct (Ha Hatt) as [Hattn Hsel]. split; [done|].
    intros id H. apply elem_of_cons in H as [H|H]; [discriminate|auto].
  - destruct (IH _ Hin) as (n1 & Hn1 & Hid & Hanc & Ha). cbn in Hn1.
    apply list_elem_of_fmap in Hn1 as (n & -> & Hn).
    exists n. unfold detach in *.
    destruct (within id n) eqn:Hw; cbn in *.
    + split_and!; try done. intros Hatt. destruct (Ha Hatt); discriminate.
    + split_and!; try done. intros Hatt.
      destruct (Ha Hatt) as [Hattn Hsel]. split; [done|].
      intros id' H. apply elem_of_cons in H as [H|H]; [|auto].
      injection H as ->. exact Hw.
Qed.

Lemma update_others s :
  cls s = SubprocessView -> rendered s = true ->
  qcodes_state s <> Some "minimized" -> others (update s) = others s.
Proof.
  intros Hc Hr Hm. unfold update, display. rewrite Hc, Hr.
  destruct (panel_part_dom _ _ (setInterval_panel_part None
              (subprocess_display (_message (model s)) s))) as (-> & _).
  by apply subprocess_display_dom.
Qed.

Lemma select_other_is_panel c s id :
  Other id ∈ not_own (select c s) ->
  exists p, p ∈ others s /\ node_id p = id /\
            attached p = true /\ has_class c (classes p) = true.
Proof.
  intros [H _]%not_own_spec. unfold select in H.
  apply elem_of_app in H as [H|H].
  - destruct (el_attached s && _); [|inversion H].
    apply list_elem_of_singleton in H. discriminate H.
  - apply list_elem_of_fmap in H as (p & [= ->] & Hp).
    apply list_elem_of_In, List.filter_In in Hp as [Hp Hf].
    apply andb_prop in Hf as [Ha Hcl].
    exists p. rewrite list_elem_of_In. done.
Qed.

(** [render] takes the earlier panels off the page with all that lies
    inside them, and nothing else.  An element that neither is nor lies
    inside an attached element of class [qcodes-output-view] is after
    [render] what it was before, attached or not; and no element still
    attached after [render] is, or lies inside, an element that was an
    attached panel before. *)
Theorem render_keeps_other_elements (s : State) (n : node) :
  cls s = SubprocessView ->
  (n ∈ others s ->
   (forall p, p ∈ others s -> attached p = true ->
              has_class "qcodes-output-view" (classes p) = true ->
              within (node_id p) n = false) ->
   n ∈ others (render s)) /\
  (n ∈ others (render s) -> attached n = true ->
   forall p, p ∈ others s -> attached p = true ->
             has_class "qcodes-output-view" (classes p) = true ->
             within (node_id p) n = false).
Proof.
  intros Hc.
  assert (Ho : others (render s) = others (build_panel s)).
  { unfold render. rewrite Hc.
    destruct (build_panel_fields s) as (Hcls & Hr & _ & _ & Hd).
    apply update_others; [congruence | done | congruence]. }
  rewrite Ho. unfold build_panel. cbn. split.
  - intros Hn Hout.
    apply (remove_all_keeps _ (set_interval (Some 0) s)); [exact Hn|].
    intros id H. apply select_other_is_panel in H as (p & Hp & <- & Ha & Hcl).
    by apply (Hout p).
  - intros Hn Hatt p Hp Ha Hcl.
    destruct (remove_all_origin _ (set_interval (Some 0) s) n Hn)
      as (n0 & _ & Hid & Hanc & Hin).
    destruct (Hin Hatt) as [_ Hsel].
    unfold within in *. rewrite Hid, Hanc.
    apply Hsel.
    exact (select_others "qcodes-output-view" (set_interval (Some 0) s) p Hp Ha Hcl).
Qed.

Lemma render_keeps_other_elements_witness :
  let toolbar := {| node_id := 3; classes := ["toolbar"]; ancestors := [];
                    attached := true |} in
  let header := {| node_id := 8; classes := ["qcodes-process-list"];
                   ancestors := [7%nat]; attached := true |} in
  let page := fresh SubprocessView live_model 800 600
                    [stale_panel; header; toolbar] [] false (fun _ => 0) in
  toolbar ∈ others (render page) /\
  List.filter attached (others (render page)) = [toolbar].
Proof.
  intros toolbar header page.
  destruct (render_keeps_other_elements page toolbar ltac:(reflexivity))
    as [Hkeep _].
  split; [|reflexivity].
  apply Hkeep.
  - right. right. left.
  - intros p Hp Ha Hcl. unfold page in Hp. cbn in Hp.
    apply elem_of_cons in Hp as [->|Hp]; [reflexivity|].
    apply elem_of_cons in Hp as [->|Hp]; [discriminate Hcl|].
    apply list_elem_of_singleton in Hp as ->. discriminate Hcl.
Defined.

End WidgetExtras.

(* ================================================================== *)
(** * Further properties of the notebook cells *)

Section NotebookExtras.

Import Notebook NotebookSpec NotebookMore.

(** ** Every timer reports *)

Lemma count_app f ev1 ev2 : count f (ev1 ++ ev2) = (count f ev1 + count f ev2)%nat.
Proof. unfold count. by rewrite List.filter_app, length_app. Qed.

Lemma balanced_app ev1 ev2 :
  timers_balanced ev1 -> timers_balanced ev2 -> timers_balanced (ev1 ++ ev2).
Proof. unfold timers_balanced. rewrite !count_app. lia. Qed.

Lemma timer_exit_counts timer :
  count is_timer_enter (timer_exit timer) = 0%nat /\
  count is_elapsed (timer_exit timer) = 1%nat.
Proof.
  unfold timer_exit. destruct timer as [name|]; [destruct (JS.truthy name)|];
    split; reflexivity.
Qed.

Lemma balanced_with timer ev :
  timers_balanced ev ->
  timers_balanced (TimerEntered :: ev ++ timer_exit timer).
Proof.
  unfold timers_balanced. intros H.
  change (TimerEntered :: ev ++ timer_exit timer)
    with ([TimerEntered] ++ ev ++ timer_exit timer).
  rewrite !count_app. destruct (timer_exit_counts timer) as [-> ->].
  change (count is_timer_enter [TimerEntered]) with 1%nat.
  change (count is_elapsed [TimerEntered]) with 0%nat. lia.
Qed.

Lemma exec_stmt_balanced rec lib k s ev k' r :
  (forall k p ev k' r, rec k p = Some (ev, k', r) -> timers_balanced ev) ->
  exec_stmt rec lib k s = Some (ev, k', r) -> timers_balanced ev.
Proof.
  intros Hrec.
  destruct s as [name|num name| |timer body|cond body|n body
                |body handler|body final]; cbn.
  - unfold call. destruct (lib k); intros [= <- <- <-]; reflexivity.
  - unfold divide. destruct (lib k) as [[|]|e]; intros [= <- <- <-];
      reflexivity.
  - intros [= <- <- <-]. reflexivity.
  - destruct (rec k body) as [[[evb kb] rb]|] eqn:E; [|done].
    intros [= <- <- <-]. eapply balanced_with, Hrec, E.
  - destruct (lib k) as [[|]|e].
    + destruct (rec (S k) _) as [[[evb kb] rb]|] eqn:E; [|done].
      intros [= <- <- <-].
      apply (balanced_app [Called cond true] evb); [reflexivity|].
      eapply Hrec, E.
    + intros [= <- <- <-]. reflexivity.
    + intros [= <- <- <-]. reflexivity.
  - apply Hrec.
  - destruct (rec k body) as [[[evb kb] [|e]]|] eqn:E; [| |done].
    + intros [= <- <- <-]. eapply Hrec, E.
    + destruct (rec kb handler) as [[[ev2 k2] r2]|] eqn:E2; [|done].
      intros [= <- <- <-]. apply balanced_app; eapply Hrec; eassumption.
  - destruct (rec k body) as [[[evb kb] rb]|] eqn:E; [|done].
    destruct (rec kb final) as [[[ev2 k2] [|e2]]|] eqn:E2; [| |done];
      intros [= <- <- <-]; apply balanced_app; eapply Hrec; eassumption.
Qed.

(** Every [with Timer(...)] block that was entered reports its elapsed
    time, once, whether its body ended normally or by an exception: a
    finished run holds as many elapsed-time lines as timers entered. *)
Theorem every_timer_reports fuel : forall lib k prog ev k' r,
  exec fuel lib k prog = Some (ev, k', r) -> timers_balanced ev.
Proof.
  induction fuel as [|f IH]; intros lib k prog ev k' r H; [done|].
  destruct prog as [|s rest]; [by injection H as <- <- <-|].
  change (exec_rest (exec f lib)
            (exec_stmt (exec f lib) lib k s) rest = Some (ev, k', r)) in H.
  destruct (exec_stmt (exec f lib) lib k s) as [[[ev1 k1] r1]|] eqn:E;
    [|done].
  apply exec_stmt_balanced in E; [|intros; eapply IH; eassumption].
  destruct r1 as [|e]; cbn in H.
  - destruct (exec f lib k1 rest) as [[[ev2 k2] r2]|] eqn:E2; [|done].
    injection H as <- <- <-. apply balanced_app; [exact E|]. eapply IH, E2.
  - injection H as <- <- <-. exact E.
Qed.

Lemma every_timer_reports_witness :
  exists ev k,
    exec 7 fails_at_run 0 cell_timed_loops = Some (ev, k, Exception "VisaIOError") /\
    count is_timer_enter ev = 1%nat /\ count is_elapsed ev = 1%nat.
Proof.
  eexists _, _. split; [reflexivity|].
  pose proof (every_timer_reports 7 fails_at_run 0 cell_timed_loops _ _ _ eq_refl)
    as H.
  split; [reflexivity|]. rewrite <- H. reflexivity.
Defined.

End NotebookExtras.
